(** * Veristat TLF Packager: title extraction, sort keys, TOC assembly

    A shallow embedding of [Veristat_TLF_Packager.py] and the properties its
    specification states about it.

    Modelling conventions.
    - A Python [str] is a list of Unicode code points ([list N]).  String
      literals are written as UTF-8 text and decoded by [py].
    - Whitespace ([str.strip], [str.split], [\s]) follows Python's table for
      all of Unicode.  Letters, digits and case mapping are modelled on Basic
      Latin: a code point above 127 counts as a caseless non-letter, and
      IGNORECASE folds ASCII letters only.
    - The [re] module is modelled by a backtracking matcher ([Re.run]) with
      Python's priorities: leftmost start, alternatives left to right, greedy
      or lazy repetition, capture groups.
    - File and library access (reading a file, PyMuPDF's text measurement,
      [os.path.basename]) enters as arguments; an operation that raises is an
      [option] that is [None].
    - Lengths and coordinates of the TOC renderer are rationals ([Q]). *)

From Stdlib Require Import List NArith ZArith QArith Qround Bool String Ascii.
From Stdlib Require Import Lia Arith Permutation Sorted.
Import ListNotations.

Set Implicit Arguments.
Close Scope Q_scope.
Open Scope N_scope.

(* ================================================================== *)
(** ** Python strings *)
(* ================================================================== *)

Definition char := N.
Definition str := list char.

(** UTF-8 decoding of a literal, so that patterns and examples can be written
    as they appear in the source. *)
Fixpoint utf8_decode (bs : list N) : str :=
  match bs with
  | [] => []
  | b0 :: t =>
      if (b0 <? 128)%N then b0 :: utf8_decode t
      else if (b0 <? 224)%N then
        match t with
        | b1 :: t1 => ((b0 mod 32) * 64 + b1 mod 64)%N :: utf8_decode t1
        | [] => [b0]
        end
      else if (b0 <? 240)%N then
        match t with
        | b1 :: b2 :: t2 =>
            ((b0 mod 16) * 4096 + (b1 mod 64) * 64 + b2 mod 64)%N :: utf8_decode t2
        | _ => [b0]
        end
      else
        match t with
        | b1 :: b2 :: b3 :: t3 =>
            ((b0 mod 8) * 262144 + (b1 mod 64) * 4096 + (b2 mod 64) * 64 + b3 mod 64)%N
              :: utf8_decode t3
        | _ => [b0]
        end
  end.

Definition py (s : string) : str :=
  utf8_decode (map N_of_ascii (list_ascii_of_string s)).

Definition ch (s : string) : char := hd 0 (py s).

Arguments py s%_string.
Arguments ch s%_string.

Definition char_eqb (a b : char) : bool := N.eqb a b.

Fixpoint str_eqb (a b : str) : bool :=
  match a, b with
  | [], [] => true
  | x :: a', y :: b' => char_eqb x y && str_eqb a' b'
  | _, _ => false
  end.

Definition in_range (lo hi c : char) : bool := ((lo <=? c) && (c <=? hi))%N.

(** [str.isspace] for one character (Python's Unicode whitespace table). *)
Definition isspace (c : char) : bool :=
  in_range 9 13 c || in_range 28 32 c || N.eqb c 133 || N.eqb c 160
  || N.eqb c 5760 || in_range 8192 8202 c || N.eqb c 8232 || N.eqb c 8233
  || N.eqb c 8239 || N.eqb c 8287 || N.eqb c 12288.

(** Letters, digits and letter case of ASCII.  For the characters beyond
    ASCII, Python's [str.lower], [\d], [\w], [\b] and [re.IGNORECASE] also
    know the letters and digits of the other scripts; here such a character
    is no letter and no digit, and [lower] leaves it as it is. *)
Definition isupper (c : char) : bool := in_range 65 90 c.
Definition islower (c : char) : bool := in_range 97 122 c.
Definition isalpha (c : char) : bool := isupper c || islower c.
Definition isdigit (c : char) : bool := in_range 48 57 c.
Definition isword (c : char) : bool := isalpha c || isdigit c || N.eqb c 95.

Definition lower_char (c : char) : char := if isupper c then (c + 32)%N else c.
Definition upper_char (c : char) : char := if islower c then (c - 32)%N else c.

(** [s.lower()], for ASCII text. *)
Definition lower (s : str) : str := map lower_char s.

Fixpoint dropwhile (p : char -> bool) (s : str) : str :=
  match s with
  | [] => []
  | c :: t => if p c then dropwhile p t else s
  end.

Definition lstrip_by (p : char -> bool) (s : str) : str := dropwhile p s.
Definition rstrip_by (p : char -> bool) (s : str) : str := rev (dropwhile p (rev s)).
Definition strip_by (p : char -> bool) (s : str) : str := rstrip_by p (lstrip_by p s).

(** [s.strip()] *)
Definition strip (s : str) : str := strip_by isspace s.

Definition mem_char (c : char) (cs : str) : bool := existsb (char_eqb c) cs.

(** [s.strip(chars)] *)
Definition strip_chars (chars : str) (s : str) : str :=
  strip_by (fun c => mem_char c chars) s.

(** [s.startswith(p)] *)
Fixpoint startswith (s p : str) : bool :=
  match p, s with
  | [], _ => true
  | x :: p', y :: s' => char_eqb x y && startswith s' p'
  | _ :: _, [] => false
  end.

(** [s.endswith(p)] *)
Definition endswith (s p : str) : bool := startswith (rev s) (rev p).

(** [sub in s] *)
Fixpoint contains (sub s : str) : bool :=
  startswith s sub ||
  match s with
  | [] => false
  | _ :: t => contains sub t
  end.

(** [s.count(c)] for a one-character argument, the only use in the source. *)
Definition count_char (c : char) (s : str) : nat :=
  List.length (filter (char_eqb c) s).

(** [s.replace(old, new)] for a non-empty [old]: occurrences are replaced from
    left to right and do not overlap ([skip] counts the characters of an
    occurrence already replaced). *)
Fixpoint replace_from (old new : str) (skip : nat) (s : str) : str :=
  match s with
  | [] => []
  | c :: t =>
      match skip with
      | S k => replace_from old new k t
      | O =>
          if startswith s old
          then new ++ replace_from old new (List.length old - 1)%nat t
          else c :: replace_from old new 0%nat t
      end
  end.

Definition replace (old new s : str) : str := replace_from old new 0%nat s.

(** Splitting at the characters selected by [sep]; [cur] is the piece being
    read, reversed. *)
Fixpoint split_at (sep : char -> bool) (cur : str) (s : str) : list str :=
  match s with
  | [] => [rev cur]
  | c :: t => if sep c then rev cur :: split_at sep [] t
              else split_at sep (c :: cur) t
  end.

(** [s.split(c)] for a one-character separator. *)
Definition split_char (c : char) (s : str) : list str := split_at (char_eqb c) [] s.

Definition nonempty (s : str) : bool := match s with [] => false | _ => true end.

(** [s.split()] : pieces between runs of whitespace, empty pieces dropped. *)
Definition split_ws (s : str) : list str := filter nonempty (split_at isspace [] s).

(** Line boundaries of [str.splitlines]. *)
Definition islinebreak (c : char) : bool :=
  in_range 10 13 c || in_range 28 30 c || N.eqb c 133 || N.eqb c 8232 || N.eqb c 8233.

(** [s.splitlines()]: "\r\n" is one boundary and a final boundary opens no
    further line. *)
Fixpoint splitlines_from (cur : str) (s : str) : list str :=
  match s with
  | [] => match cur with [] => [] | _ => [rev cur] end
  | c :: t =>
      if islinebreak c then
        rev cur ::
        match t with
        | c' :: t' => if N.eqb c 13 && N.eqb c' 10 then splitlines_from [] t'
                      else splitlines_from [] t
        | [] => []
        end
      else splitlines_from (c :: cur) t
  end.

Definition splitlines (s : str) : list str := splitlines_from [] s.

(** [s[i:j]] for [0 <= i], [0 <= j]. *)
Definition slice (i j : nat) (s : str) : str := firstn (j - i)%nat (skipn i s).

(** [int(s)] on a run of decimal digits; anything else raises.  (CPython
    also refuses a run of more than 4300 digits, its default limit for the
    conversion; the runs read here are taken to be shorter.) *)
Fixpoint digits_value (acc : Z) (s : str) : option Z :=
  match s with
  | [] => Some acc
  | c :: t => if isdigit c then digits_value (10 * acc + Z.of_N (c - 48))%Z t else None
  end.

Definition py_int (s : str) : option Z :=
  match s with
  | [] => None
  | _ => digits_value 0%Z s
  end.

(** [str(n)] for an integer. *)
Fixpoint digits_of_pos (fuel : nat) (n : N) (acc : str) : str :=
  match fuel with
  | O => acc
  | S f =>
      let acc' := (48 + n mod 10)%N :: acc in
      if (n <? 10)%N then acc' else digits_of_pos f (n / 10)%N acc'
  end.

Definition py_str_int (z : Z) : str :=
  let n := Z.to_N (Z.abs z) in
  let ds := digits_of_pos (S (N.to_nat (N.log2 n))) n [] in
  if (z <? 0)%Z then ch "-" :: ds else ds.

(* ================================================================== *)
(** ** Regular expressions ([re]) *)
(* ================================================================== *)

Module Re.

(** Items of a bracketed class. *)
Inductive item :=
| Range (lo hi : char)   (* a-z, or one character *)
| Digit                  (* \d *)
| Space.                 (* \s *)

Inductive re :=
| Eps
| Lit (c : char)
| Dot                                  (* . *)
| Class (negated : bool) (items : list item)
| Seq (r1 r2 : re)
| Alt (r1 r2 : re)
| Star (greedy : bool) (r : re)        (* r* and r*? *)
| Grp (n : nat) (r : re)               (* capturing group number n *)
| Bol                                  (* ^ *)
| Eol                                  (* $ *)
| WordB.                               (* \b *)

(** Compilation flags. *)
Record flags := { ignorecase : bool; dotall : bool }.

Definition no_flags := {| ignorecase := false; dotall := false |}.
Definition IGNORECASE := {| ignorecase := true; dotall := false |}.
Definition DOTALL := {| ignorecase := false; dotall := true |}.

(** Derived forms. *)
Definition Plus (r : re) : re := Seq r (Star true r).          (* r+ *)
Definition PlusLazy (r : re) : re := Seq r (Star false r).     (* r+? *)
Definition Opt (r : re) : re := Alt r Eps.                     (* r? *)
Definition d : re := Class false [Digit].                      (* \d *)
Definition s : re := Class false [Space].                      (* \s *)
Definition one (c : string) : item := Range (ch c) (ch c).
Definition range (lo hi : string) : item := Range (ch lo) (ch hi).

Arguments one c%_string.
Arguments range (lo hi)%_string.

(** A literal word, character by character. *)
Fixpoint lit_chars (cs : str) : re :=
  match cs with
  | [] => Eps
  | [c] => Lit c
  | c :: t => Seq (Lit c) (lit_chars t)
  end.

Definition lit (w : string) : re := lit_chars (py w).

Arguments lit w%_string.

(** r{lo,hi}: [lo] copies, then up to [extra] more, greedily. *)
Fixpoint upto (extra : nat) (r : re) : re :=
  match extra with
  | O => Eps
  | S k => Opt (Seq r (upto k r))
  end.

Fixpoint times (lo : nat) (r tail : re) : re :=
  match lo with
  | O => tail
  | S k => Seq r (times k r tail)
  end.

Definition Rep (lo hi : nat) (r : re) : re := times lo r (upto (hi - lo) r).

(** A position of the matcher in the subject: the offset, the character
    before it, the text from it on, and the groups captured so far (most
    recent first). *)
Record state := {
  pos : nat;
  prev : option char;
  rest : str;
  caps : list (nat * (nat * nat))
}.

Definition advance (c : char) (t : str) (st : state) : state :=
  {| pos := S (pos st); prev := Some c; rest := t; caps := caps st |}.

Definition set_cap (n : nat) (from : nat) (st : state) : state :=
  {| pos := pos st; prev := prev st; rest := rest st;
     caps := (n, (from, pos st)) :: caps st |}.

Definition item_has (c : char) (it : item) : bool :=
  match it with
  | Range lo hi => in_range lo hi c
  | Digit => isdigit c
  | Space => isspace c
  end.

Definition class_has (f : flags) (items : list item) (c : char) : bool :=
  existsb (item_has c) items
  || (ignorecase f
      && (existsb (item_has (lower_char c)) items
          || existsb (item_has (upper_char c)) items)).

Definition lit_matches (f : flags) (p c : char) : bool :=
  if ignorecase f then char_eqb (lower_char p) (lower_char c) else char_eqb p c.

Definition at_word_boundary (st : state) : bool :=
  let before := match prev st with Some c => isword c | None => false end in
  let after := match rest st with c :: _ => isword c | [] => false end in
  xorb before after.

(** One character of the subject, accepted by [p]. *)
Definition step (p : char -> bool) (st : state) (k : state -> option state)
  : option state :=
  match rest st with
  | c :: t => if p c then k (advance c t st) else None
  | [] => None
  end.

(** Repetition of a matcher [body]: an iteration has to consume input, and
    [fuel] (the length of the text ahead) bounds the number of iterations.
    Greedy repetition tries one more iteration before the continuation, lazy
    repetition the continuation first. *)
Fixpoint star_loop (greedy : bool)
  (body : state -> (state -> option state) -> option state)
  (k : state -> option state) (fuel : nat) (st0 : state) {struct fuel}
  : option state :=
  match fuel with
  | O => k st0
  | S fuel' =>
      let again :=
        body st0 (fun st1 => if (pos st0 <? pos st1)%nat
                             then star_loop greedy body k fuel' st1 else None) in
      if greedy then
        match again with
        | Some res => Some res
        | None => k st0
        end
      else
        match k st0 with
        | Some res => Some res
        | None => again
        end
  end.

(** The backtracking matcher: [run f r st k] matches [r] at [st] and hands
    every way of doing so, in priority order, to the continuation [k] until
    one succeeds. *)
Fixpoint run (f : flags) (r : re) (st : state) (k : state -> option state)
  {struct r} : option state :=
  match r with
  | Eps => k st
  | Lit p => step (lit_matches f p) st k
  | Dot => step (fun c => dotall f || negb (N.eqb c 10)) st k
  | Class neg items => step (fun c => xorb neg (class_has f items c)) st k
  | Seq r1 r2 => run f r1 st (fun st1 => run f r2 st1 k)
  | Alt r1 r2 =>
      match run f r1 st k with
      | Some res => Some res
      | None => run f r2 st k
      end
  | Star greedy r1 => star_loop greedy (run f r1) k (List.length (rest st)) st
  | Grp n r1 => run f r1 st (fun st1 => k (set_cap n (pos st) st1))
  | Bol => match prev st with None => k st | Some _ => None end
  | Eol => match rest st with
           | [] => k st
           | [c] => if N.eqb c 10 then k st else None
           | _ => None
           end
  | WordB => if at_word_boundary st then k st else None
  end.

(** A match object: span of group 0 and the captured groups. *)
Record mtch := { m_start : nat; m_end : nat; m_caps : list (nat * (nat * nat)) }.

Definition start_state (p : nat) (pv : option char) (t : str) : state :=
  {| pos := p; prev := pv; rest := t; caps := [] |}.

Definition match_at (f : flags) (r : re) (p : nat) (pv : option char) (t : str)
  : option mtch :=
  match run f r (start_state p pv t) Some with
  | Some st => Some {| m_start := p; m_end := pos st; m_caps := caps st |}
  | None => None
  end.

(** Leftmost match starting at offset [p] or later. *)
Fixpoint search_from (f : flags) (r : re) (p : nat) (pv : option char) (t : str)
  : option mtch :=
  match match_at f r p pv t with
  | Some m => Some m
  | None =>
      match t with
      | [] => None
      | c :: t' => search_from f r (S p) (Some c) t'
      end
  end.

(** [re.search(r, text, flags)] *)
Definition search (f : flags) (r : re) (text : str) : option mtch :=
  search_from f r 0 None text.

(** [re.match(r, text, flags)] *)
Definition match_ (f : flags) (r : re) (text : str) : option mtch :=
  match_at f r 0 None text.

(** [m.group(0)] *)
Definition group0 (text : str) (m : mtch) : str := slice (m_start m) (m_end m) text.

Fixpoint lookup_cap (n : nat) (cs : list (nat * (nat * nat))) : option (nat * nat) :=
  match cs with
  | [] => None
  | (i, span) :: cs' => if Nat.eqb i n then Some span else lookup_cap n cs'
  end.

(** [m.group(n)] for a group that took part in the match. *)
Definition group (text : str) (m : mtch) (n : nat) : option str :=
  match lookup_cap n (m_caps m) with
  | Some (i, j) => Some (slice i j text)
  | None => None
  end.

(** [re.split(r, text, flags)[0]] : the text before the first match. *)
Definition split_first (f : flags) (r : re) (text : str) : str :=
  match search f r text with
  | Some m => firstn (m_start m) text
  | None => text
  end.

(** [re.sub(r, repl, text)] for a constant replacement.  [skip] counts the
    characters of a match already replaced; an empty match is replaced and the
    scan moves on by one character. *)
Fixpoint sub_from (f : flags) (r : re) (repl : str)
  (skip : nat) (p : nat) (pv : option char) (t : str) : str :=
  match skip with
  | S k =>
      match t with
      | [] => []
      | c :: t' => sub_from f r repl k (S p) (Some c) t'
      end
  | O =>
      match match_at f r p pv t with
      | Some m =>
          repl ++
          match t with
          | [] => []
          | c :: t' =>
              if (m_end m =? p)%nat then c :: sub_from f r repl 0 (S p) (Some c) t'
              else sub_from f r repl (m_end m - p - 1) (S p) (Some c) t'
          end
      | None =>
          match t with
          | [] => []
          | c :: t' => c :: sub_from f r repl 0 (S p) (Some c) t'
          end
      end
  end.

Definition sub (f : flags) (r : re) (repl : str) (text : str) : str :=
  sub_from f r repl 0 0 None text.

(** [bool(re.search(...))] *)
Definition found (f : flags) (r : re) (text : str) : bool :=
  match search f r text with Some _ => true | None => false end.

End Re.

Import Re.

(** Concatenation of a pattern's parts, in order. *)
Fixpoint cat (rs : list re) : re :=
  match rs with
  | [] => Eps
  | [r] => r
  | r :: rs' => Seq r (cat rs')
  end.

(** Python truth value of a string. *)
Definition truthy (x : str) : bool := nonempty x.

(* ================================================================== *)
(** ** Extraction and helper functions *)
(* ================================================================== *)

(** Pattern "(\\header[lr]?)(.+?)(\\sectd|$)" *)
Definition header_pattern : re :=
  cat [Grp 1 (Seq (lit "\header") (Opt (Class false [one "l"; one "r"])));
       Grp 2 (PlusLazy Dot);
       Grp 3 (Alt (lit "\sectd") Eol)].

(** The scanner state of [extract_groups_from_rtf_header]:
    [(groups, depth, buf)]. *)
Definition scan_char (acc : list str * Z * str) (c : char) : list str * Z * str :=
  let '(groups, depth, buf) := acc in
  if char_eqb c (ch "{") then
    let buf := if (depth =? 0)%Z then [] else buf in
    (groups, (depth + 1)%Z, buf ++ [c])
  else if char_eqb c (ch "}") then
    let buf := buf ++ [c] in
    let depth := (depth - 1)%Z in
    if (depth =? 0)%Z && truthy buf then (groups ++ [buf], depth, [])
    else (groups, depth, buf)
  else if (depth >? 0)%Z then (groups, depth, buf ++ [c])
  else (groups, depth, buf).

(** Pull top-level RTF header groups {...} from the \header block. *)
Definition extract_groups_from_rtf_header (rtf_text : str) : list str :=
  match Re.search DOTALL header_pattern rtf_text with
  | None => []
  | Some header_match =>
      match Re.group rtf_text header_match 2 with
      | None => []
      | Some header_text =>
          let '(groups, _, _) := fold_left scan_char header_text ([], 0%Z, []) in
          groups
      end
  end.

(** Pattern "\\[a-z]+\d*[\s]?|{|}" *)
Definition control_word_pattern : re :=
  Alt (cat [Lit (ch "\"); Plus (Class false [range "a" "z"]); Star true d;
            Opt (Class false [Space])])
      (Alt (Lit (ch "{")) (Lit (ch "}"))).

(** Pattern "(cellx\d+|x\d+)" *)
Definition cellx_pattern : re :=
  Grp 1 (Alt (Seq (lit "cellx") (Plus d)) (Seq (lit "x") (Plus d))).

(** Pattern "\n+" *)
Definition newlines_pattern : re := Plus (Lit 10%N).

(** Pattern "^[-: ]+|[-: ]+$" *)
Definition edge_separators_pattern : re :=
  let seps := Class false [one "-"; one ":"; one " "] in
  Alt (Seq Bol (Plus seps)) (Seq (Plus seps) Eol).

(** Strip RTF control words and convert a header group to plain text lines. *)
Definition rtf_group_to_text (group : str) : list str :=
  let group := replace (py "\row") [10%N] (replace (py "\cell") [10%N] group) in
  let text := Re.sub no_flags control_word_pattern [] group in
  let text := Re.sub no_flags cellx_pattern [] text in
  let text := Re.sub no_flags newlines_pattern [10%N] text in
  map (fun l => Re.sub no_flags edge_separators_pattern [] (strip l))
      (filter (fun l => truthy (strip l)) (splitlines text)).

(** Read an RTF and return cleaned header lines.  [file] is the outcome of
    opening and reading the file: [None] when that raises. *)
Definition extract_header_lines_with_tablepattern (file : option str) : list str :=
  match file with
  | Some rtf_text => flat_map rtf_group_to_text (extract_groups_from_rtf_header rtf_text)
  | None => []
  end.

(** Pattern "\bNote\s*:" *)
Definition note_pattern : re := cat [WordB; lit "Note"; Star true s; Lit (ch ":")].

(** Remove trailing "Note:" segments from a line. *)
Definition filter_note_from_line (text : str) : str :=
  strip (Re.split_first IGNORECASE note_pattern text).

Definition footer_patterns : list re :=
  [ cat [lit "page"; Plus s; Plus d];
    cat [Plus d; Plus s; lit "of"; Plus s; Plus d];
    lit "confidential";
    lit "proprietary";
    lit "draft";
    lit "final";
    cat [lit "version"; Plus s; Plus (Class false [Digit; one "."])];
    cat [Rep 1 2 d; Class false [one "-"; one "/"]; Rep 1 2 d;
         Class false [one "-"; one "/"]; Rep 2 4 d];
    cat [Bol; Plus d; Eol];
    cat [lit "file"; Star true s; lit "name"; Star true s; Lit (ch ":")];
    cat [Bol; Class false [range "a" "z"]; Lit (ch ":"); Lit (ch "\")];
    cat [Bol; Lit (ch "/"); Class false [range "a" "z"]];
    cat [lit "author"; Star true s; Lit (ch ":")];
    cat [lit "date"; Star true s; Lit (ch ":")];
    cat [lit "time"; Star true s; Lit (ch ":")];
    cat [lit "printed"; Plus s; lit "on"];
    cat [lit "generated"; Plus s; lit "on"];
    cat [lit "last"; Plus s; lit "modified"];
    lit "©";
    lit "copyright";
    cat [lit "all"; Plus s; lit "rights"; Plus s; lit "reserved"];
    lit "sponsor";
    cat [lit "protocol"; Plus s; lit "number"];
    cat [lit "study"; Plus s; lit "code"];
    lit "cdisc";
    cat [lit "sas"; Plus s; lit "output"];
    cat [lit "program"; Star true s; Lit (ch ":")];
    cat [lit "output"; Star true s; Lit (ch ":")] ].

(** [sum(1 for ch in text if ch.isalpha())] *)
Definition alpha_count (text : str) : nat := List.length (filter isalpha text).

(** Detect if text is likely footer content. *)
Definition is_footer_content (text : str) : bool :=
  let text_lower := strip (lower text) in
  if existsb (fun pattern => Re.found no_flags pattern text_lower) footer_patterns
  then true
  else if (List.length (strip text) <? 3)%nat then true
  else if (count_char (ch " ") (strip text) =? 0)%nat
          && (30 <? List.length (strip text))%nat then true
  else if (8 <? List.length text)%nat && (alpha_count text <? 3)%nat then true
  else false.

(** Pattern "\[\d+\]" *)
Definition reference_pattern : re := cat [Lit (ch "["); Plus d; Lit (ch "]")].

(** Pattern "^\\?\*.*$" *)
Definition control_marker_pattern : re :=
  cat [Bol; Opt (Lit (ch "\")); Lit (ch "*"); Star true Dot; Eol].

(** Pattern "^[A-Z0-9\\\*]+$" *)
Definition all_caps_pattern : re :=
  cat [Bol; Plus (Class false [range "A" "Z"; range "0" "9"; one "\"; one "*"]); Eol].

Definition matched (f : flags) (r : re) (text : str) : bool :=
  match Re.match_ f r text with Some _ => true | None => false end.

(** Heuristic filter to accept/reject a line as a plausible title.  The test
    [alpha_count / len(c) < 0.3] is taken over the rationals. *)
Definition valid_title_candidate (candidate : str) : bool :=
  let c := strip candidate in
  if negb (truthy c) then false
  else if is_footer_content c then false
  else if startswith (lower c) (py "note:") then false
  else if (2 <? count_char (ch ".") c)%nat then false
  else if Re.found no_flags reference_pattern c then false
  else if matched no_flags control_marker_pattern c then false
  else if matched no_flags all_caps_pattern c then false
  else if (5 <? List.length c)%nat && (10 * alpha_count c <? 3 * List.length c)%nat
       then false
  else true.

(** Pattern "(?:(Table|Listing|Figure)\s+)?(Appendix)\s+\d+(?:\.\d+)*[A-Za-z0-9]*|(Table|Listing|Figure)\s+\d+(?:\.\d+)*[A-Za-z0-9]*" *)
Definition category_words : re := Alt (lit "Table") (Alt (lit "Listing") (lit "Figure")).

Definition numeric_path_suffix : re :=
  cat [Plus s; Plus d; Star true (Seq (Lit (ch ".")) (Plus d));
       Star true (Class false [range "A" "Z"; range "a" "z"; range "0" "9"])].

Definition title_pattern : re :=
  Alt (cat [Opt (Seq (Grp 1 category_words) (Plus s)); Grp 2 (lit "Appendix");
            numeric_path_suffix])
      (Seq (Grp 3 category_words) numeric_path_suffix).

(** [line[len(match.group(0)):]] *)
Definition after_token_length (line : str) (m : mtch) : str :=
  skipn (List.length (Re.group0 line m)) line.

(** [line[len(match.group(0)):].strip(" :–-")], then the note filter. *)
Definition remainder_of (line : str) (m : mtch) : str :=
  filter_note_from_line (strip_chars (py " :–-") (after_token_length line m)).

(** The body of the matching branch shared, statement for statement, by the
    RTF and PDF extractors: [lines] is the list indexed for the lookahead and
    [i] the index of the matching [line]. *)
Definition titles_at_match (lines : list str) (i : nat) (line : str) (m : mtch)
  : str * str * str :=
  let title1 := strip (Re.group0 line m) in
  let remainder := remainder_of line m in
  let title2 := if truthy remainder && valid_title_candidate remainder
                then remainder else [] in
  let title2 :=
    if negb (truthy title2) then
      match nth_error lines (i + 1) with
      | Some t2 =>
          let t2_clean := filter_note_from_line t2 in
          if valid_title_candidate t2_clean then strip t2_clean else title2
      | None => title2
      end
    else title2 in
  let title3 :=
    match nth_error lines (i + 2) with
    | Some t3 =>
        let t3_clean := filter_note_from_line t3 in
        if valid_title_candidate t3_clean then strip t3_clean else []
    | None => []
    end in
  (title1, title2, title3).

(** [for i, line in enumerate(window): match = re.search(...); if match: ...; break] *)
Fixpoint scan_search (lines window : list str) (i : nat) : str * str * str :=
  match window with
  | [] => ([], [], [])
  | line :: window' =>
      match Re.search IGNORECASE title_pattern line with
      | Some m => titles_at_match lines i line m
      | None => scan_search lines window' (S i)
      end
  end.

(** [bookmark = title1; if title2: ...; if title3: ...] *)
Definition compose_bookmark (title1 title2 title3 : str) : str :=
  let bookmark := title1 in
  let bookmark := if truthy title2 then bookmark ++ py ": " ++ title2 else bookmark in
  if truthy title3 then bookmark ++ py " - " ++ title3 else bookmark.

Definition titles := (str * str * str * str)%type.

Section Extractors.

(** [os.path.basename] of the running platform. *)
Variable os_path_basename : str -> str.

(** Parse RTF header lines to find Title1/2/3 and build a bookmark. *)
Definition extract_titles_from_header_lines (rtf_path : str) (header_lines : list str)
  : titles :=
  let header_lines := filter (fun line => negb (is_footer_content line)) header_lines in
  let '(title1, title2, title3) := scan_search header_lines header_lines 0 in
  if truthy title1 then
    (title1, title2, title3, compose_bookmark title1 title2 title3)
  else ([], [], [], os_path_basename rtf_path).

Definition extract_titles_from_rtf (rtf_path : str) (file : option str) : titles :=
  extract_titles_from_header_lines rtf_path (extract_header_lines_with_tablepattern file).

(** The fallback loops: a line that passes the validator fills the first
    title that is still empty. *)
Definition fallback_step (acc : str * str * str) (line : str) : str * str * str :=
  let '(title1, title2, title3) := acc in
  if valid_title_candidate line then
    if negb (truthy title1) then (filter_note_from_line line, title2, title3)
    else if negb (truthy title2) then (title1, filter_note_from_line line, title3)
    else if negb (truthy title3) then (title1, title2, filter_note_from_line line)
    else acc
  else acc.

(** Read page 1 of a PDF to find Title1/2/3 and build a bookmark.  [page1] is
    the text of the first page: [None] when opening or reading raises. *)
Definition extract_title_from_pdf (pdf_path : str) (page1 : option str) : titles :=
  match page1 with
  | None => ([], [], [], os_path_basename pdf_path)
  | Some text =>
      let lines := map strip (filter (fun line => truthy (strip line)) (splitlines text)) in
      let '(title1, title2, title3) := scan_search lines (firstn 20 lines) 0 in
      let '(title1, title2, title3) :=
        if negb (truthy title1)
        then fold_left fallback_step (firstn 3 lines) (title1, title2, title3)
        else (title1, title2, title3) in
      let bookmark := compose_bookmark title1 title2 title3 in
      let bookmark := if negb (truthy (strip bookmark))
                      then os_path_basename pdf_path else bookmark in
      (title1, title2, title3, bookmark)
  end.

End Extractors.

(* ------------------------------------------------------------------ *)
(** *** DOCX *)

(** What python-docx exposes of a document: the header paragraphs of each
    section, the body paragraphs, and the cell texts of each table row by
    row. *)
Record docx_document := {
  section_headers : list (list str);
  paragraphs : list str;
  tables : list (list (list str))
}.

(** The matching branch of the DOCX loops: the lookahead lines are validated
    and taken as they are. *)
Definition titles_at_match_docx (paras : list str) (idx : nat) (line : str) (m : mtch)
  : str * str * str :=
  let title1 := strip (Re.group0 line m) in
  let remainder := remainder_of line m in
  let title2 := if truthy remainder && valid_title_candidate remainder
                then remainder else [] in
  let title2 :=
    if negb (truthy title2) then
      match nth_error paras (idx + 1) with
      | Some cand2 => if valid_title_candidate cand2 then cand2 else title2
      | None => title2
      end
    else title2 in
  let title3 :=
    match nth_error paras (idx + 2) with
    | Some cand3 => if valid_title_candidate cand3 then cand3 else []
    | None => []
    end in
  (title1, title2, title3).

(** [for idx, line in enumerate(window): match = re.match(...); if match: ...; break] *)
Fixpoint scan_match (paras window : list str) (idx : nat) : str * str * str :=
  match window with
  | [] => ([], [], [])
  | line :: window' =>
      match Re.match_ IGNORECASE title_pattern line with
      | Some m => titles_at_match_docx paras idx line m
      | None => scan_match paras window' (S idx)
      end
  end.

(** The last fallback of the DOCX extractor, which stops at the third line
    that passes the validator. *)
Fixpoint fallback_docx (all_lines : list str) (found_lines : nat) (acc : str * str * str)
  : str * str * str :=
  match all_lines with
  | [] => acc
  | line :: more =>
      if valid_title_candidate line then
        let found_lines := S found_lines in
        let '(title1, title2, title3) := acc in
        let acc :=
          if negb (truthy title1) then (filter_note_from_line line, title2, title3)
          else if negb (truthy title2) then (title1, filter_note_from_line line, title3)
          else if negb (truthy title3) then (title1, title2, filter_note_from_line line)
          else acc in
        if (found_lines =? 3)%nat then acc else fallback_docx more found_lines acc
      else fallback_docx more found_lines acc
  end.

Section DocxExtractor.

Variable os_path_basename : str -> str.

(** Inspect DOCX header/body to find Title1/2/3 and build a bookmark.  [file]
    is the parsed document: [None] when python-docx raises. *)
Definition extract_title_from_docx (docx_path : str) (file : option docx_document)
  : titles :=
  match file with
  | None => ([], [], [], os_path_basename docx_path)
  | Some doc =>
      let paras := filter truthy (map strip (List.concat (section_headers doc))) in
      let paras := filter (fun p => negb (is_footer_content p)) paras in
      let '(title1, title2, title3) := scan_match paras (firstn 10 paras) 0 in
      let '(title1, title2, title3) :=
        if negb (truthy title1) then
          let body_paras := filter truthy (map strip (paragraphs doc)) in
          let body_paras :=
            body_paras ++ filter truthy (map strip (List.concat (List.concat (tables doc)))) in
          let body_paras := filter (fun p => negb (is_footer_content p)) body_paras in
          let '(title1, title2, title3) :=
            scan_match body_paras (firstn 15 body_paras) 0 in
          if negb (truthy title1) then
            let all_lines := paras ++ body_paras in
            fallback_docx (firstn 15 all_lines) 0 (title1, title2, title3)
          else (title1, title2, title3)
        else (title1, title2, title3) in
      let bookmark := compose_bookmark title1 title2 title3 in
      let bookmark := if negb (truthy (strip bookmark))
                      then os_path_basename docx_path else bookmark in
      (title1, title2, title3, bookmark)
  end.

End DocxExtractor.

(* ================================================================== *)
(** ** Sort key *)
(* ================================================================== *)

(** A key as [parse_sort_key] returns it: [(rank, numeric path)]. *)
Definition sort_key := (Z * list Z)%type.

Definition order : list (str * Z) :=
  [(py "table", 0%Z); (py "listing", 1%Z); (py "figure", 2%Z)].

(** Pattern "^[^a-zA-Z]*" *)
Definition leading_nonletters_pattern : re :=
  Seq Bol (Star true (Class true [range "a" "z"; range "A" "Z"])).

(** Pattern "appendix\s*(\d+)" *)
Definition appendix_number_pattern : re :=
  cat [lit "appendix"; Star true s; Grp 1 (Plus d)].

(** Pattern: group 1 is "\d+" followed by any number of "\.\d+" (group 2). *)
Definition dotted_number_pattern : re :=
  Grp 1 (Seq (Plus d) (Star true (Grp 2 (Seq (Lit (ch ".")) (Plus d))))).

(** [[int(x) for x in parts]] *)
Fixpoint ints (parts : list str) : option (list Z) :=
  match parts with
  | [] => Some []
  | x :: parts' =>
      match py_int x, ints parts' with
      | Some n, Some ns => Some (n :: ns)
      | _, _ => None
      end
  end.

(** [for key in order: if key in text: ...] *)
Fixpoint first_category (text : str) (keys : list (str * Z)) : option sort_key :=
  match keys with
  | [] => Some (99%Z, [0%Z])
  | (key, rank) :: keys' =>
      if contains key text then
        match Re.search no_flags dotted_number_pattern text with
        | Some m =>
            match Re.group text m 1 with
            | Some g =>
                match ints (split_char (ch ".") g) with
                | Some num => Some (rank, num)
                | None => None
                end
            | None => None
            end
        | None => Some (rank, [0%Z])
        end
      else first_category text keys'
  end.

(** Create a sortable key from a bookmark.  [None] stands for an exception
    ([int] on something that is not a number). *)
Definition parse_sort_key (bookmark : str) : option sort_key :=
  let text := lower bookmark in
  let text := Re.sub no_flags leading_nonletters_pattern [] text in
  if contains (py "appendix") text then
    match Re.search no_flags appendix_number_pattern text with
    | Some m =>
        match Re.group text m 1 with
        | Some g =>
            match py_int g with
            | Some n => Some (3%Z, [n])
            | None => None
            end
        | None => None
        end
    | None => Some (3%Z, [9999%Z])
    end
  else first_category text order.

(** Python's order on lists of integers and on keys (tuples): lexicographic. *)
Fixpoint path_ltb (a b : list Z) : bool :=
  match a, b with
  | [], [] => false
  | [], _ :: _ => true
  | _ :: _, [] => false
  | x :: a', y :: b' => (x <? y)%Z || ((x =? y)%Z && path_ltb a' b')
  end.

Definition path_leb (a b : list Z) : bool := negb (path_ltb b a).

Definition key_ltb (a b : sort_key) : bool :=
  (fst a <? fst b)%Z || ((fst a =? fst b)%Z && path_ltb (snd a) (snd b)).

(* ================================================================== *)
(** ** Table of contents *)
(* ================================================================== *)

(** An outline entry [(level, title, page)]. *)
Definition toc_entry := (Z * str * Z)%type.

(** What a call of [page.insert_text] drew ([drawn_as] records which
    statement of [generate_toc_pages] made the call). *)
Inductive drawn := Heading | TitleLine | LastTitleLine | DotLeader | PageNumber.

Record text_op := {
  drawn_as : drawn;
  at_x : Q;
  at_y : Q;
  text_of : str;
  fontsize_of : Q
}.

(** [fitz.Rect(x0, y0, x1, y1)] *)
Definition rect := (Q * Q * Q * Q)%type.

(** A link target [(toc page index, rectangle, target page)]. *)
Definition link_target := (nat * rect * Z)%type.

(** [a // b] on numbers that are not integers; raises when [b] is zero. *)
Definition floordiv (a b : Q) : option Z :=
  if Qeq_bool b 0 then None else Some (Qfloor (a / b)).

Section Toc.

(** [fitz.get_text_length(text, fontsize=...)] *)
Variable get_text_length : str -> Q -> Q.

(** The loop body of [wrap_toc_title]: the state is [(lines, current_line)]. *)
Definition wrap_word (font_size max_width : Q) (acc : list str * str) (word : str)
  : list str * str :=
  let '(lines, current_line) := acc in
  let test_line := current_line ++ (if truthy current_line then py " " else []) ++ word in
  if Qle_bool (get_text_length test_line font_size) max_width
  then (lines, test_line)
  else ((if truthy current_line then lines ++ [current_line] else lines), word).

(** Soft-wrap a TOC title to fit a width at a given font size. *)
Definition wrap_toc_title (title : str) (font_size max_width : Q) : list str :=
  let words := split_ws title in
  let '(lines, current_line) := fold_left (wrap_word font_size max_width) words ([], []) in
  let lines := if truthy current_line then lines ++ [current_line] else lines in
  filter (fun line => truthy (strip line)) lines.

(** [wrapped_lines] of an entry, as [paginate_wrapped_entries] computes it. *)
Definition wrapped_lines_of (font_size toc_text_max_width : Q) (entry : toc_entry)
  : list str :=
  let '(level, title, target_page) := entry in
  let indent := inject_Z (20 * (level - 1)) in
  let entry_max_width := (toc_text_max_width - indent)%Q in
  wrap_toc_title title font_size entry_max_width.

(** The loop body of [paginate_wrapped_entries]: the state is
    [(paginated_entries, current_page_entries, current_line_count)]. *)
Definition paginate_step (font_size toc_text_max_width : Q) (lines_per_page : Z)
  (acc : list (list (toc_entry * list str)) * list (toc_entry * list str) * Z)
  (entry : toc_entry)
  : list (list (toc_entry * list str)) * list (toc_entry * list str) * Z :=
  let '(paginated_entries, current_page_entries, current_line_count) := acc in
  let wrapped_lines := wrapped_lines_of font_size toc_text_max_width entry in
  let line_count := Z.of_nat (List.length wrapped_lines) in
  let '(paginated_entries, current_page_entries, current_line_count) :=
    if (current_line_count + line_count >? lines_per_page)%Z
    then (paginated_entries ++ [current_page_entries], [], 0%Z)
    else (paginated_entries, current_page_entries, current_line_count) in
  (paginated_entries, current_page_entries ++ [(entry, wrapped_lines)],
   (current_line_count + line_count)%Z).

(** Paginate wrapped TOC lines to fit per-page line capacity. *)
Definition paginate_wrapped_entries (toc_entries : list toc_entry)
  (font_size toc_text_max_width page_height : Q)
  : option (list (list (toc_entry * list str))) :=
  let y_spacing := (font_size * (3 # 2))%Q in
  match floordiv (page_height - 100) y_spacing with
  | None => None
  | Some q =>
      let lines_per_page := (q - 2)%Z in
      let '(paginated_entries, current_page_entries, _) :=
        fold_left (paginate_step font_size toc_text_max_width lines_per_page)
                  toc_entries ([], [], 0%Z) in
      Some (if match current_page_entries with [] => false | _ => true end
            then paginated_entries ++ [current_page_entries]
            else paginated_entries)
  end.

(** One wrapped line of an entry: the inner loop body of
    [generate_toc_pages].  The state is [(ops, y)]. *)
Definition draw_line (font_size page_number_x gap x : Q) (page_number_str : str)
  (count : nat) (acc : option (list text_op * Q)) (indexed : nat * str)
  : option (list text_op * Q) :=
  match acc with
  | None => None
  | Some (ops, y) =>
      let '(i, line) := indexed in
      let y_spacing := (font_size * (3 # 2))%Q in
      let page_number_width_local := get_text_length page_number_str font_size in
      let line_width := get_text_length line font_size in
      if (Z.of_nat i =? Z.of_nat count - 1)%Z then
        let ops := ops ++ [{| drawn_as := LastTitleLine; at_x := x; at_y := y;
                              text_of := line; fontsize_of := font_size |}] in
        let dots_start_x := (x + line_width + 2)%Q in
        let limit := (page_number_x - page_number_width_local - gap)%Q in
        let dotted :=
          if Qle_bool limit dots_start_x then Some ops
          else
            let dots_width := (limit - dots_start_x)%Q in
            let dot_char_width := get_text_length (py ".") font_size in
            match floordiv dots_width dot_char_width with
            | None => None
            | Some dot_count =>
                Some (ops ++ [{| drawn_as := DotLeader; at_x := dots_start_x; at_y := y;
                                 text_of := repeat (ch ".") (Z.to_nat dot_count);
                                 fontsize_of := font_size |}])
            end in
        match dotted with
        | None => None
        | Some ops =>
            Some (ops ++ [{| drawn_as := PageNumber;
                             at_x := (page_number_x - page_number_width_local)%Q;
                             at_y := y; text_of := page_number_str;
                             fontsize_of := font_size |}],
                  (y + y_spacing)%Q)
        end
      else
        Some (ops ++ [{| drawn_as := TitleLine; at_x := x; at_y := y;
                         text_of := line; fontsize_of := font_size |}],
              (y + y_spacing)%Q)
  end.

(** [list(enumerate(l))] *)
Definition enumerate (A : Type) (l : list A) : list (nat * A) :=
  combine (seq 0 (List.length l)) l.

(** One entry of a TOC page: the loop body over [entries].  The state is
    [(ops, y, link_targets)]. *)
Definition draw_entry (font_size page_number_x gap : Q) (toc_page_count : Z)
  (page_index : nat)
  (acc : option (list text_op * Q * list link_target))
  (item : toc_entry * list str)
  : option (list text_op * Q * list link_target) :=
  match acc with
  | None => None
  | Some (ops, y, link_targets) =>
      let '((level, title, target_page), wrapped_lines) := item in
      let left_margin := 50%Q in
      let indent := inject_Z (20 * (level - 1)) in
      let x := (left_margin + indent)%Q in
      let page_number_str := py_str_int (target_page + toc_page_count + 1) in
      let first_line_y := y in
      match fold_left (draw_line font_size page_number_x gap x page_number_str
                                 (List.length wrapped_lines))
                      (enumerate wrapped_lines) (Some (ops, y)) with
      | None => None
      | Some (ops, y) =>
          let r := (x, (first_line_y - font_size)%Q, page_number_x, y) in
          Some (ops, y, link_targets ++ [(page_index, r, target_page)])
      end
  end.

(** One TOC page: the outer loop body.  The state is
    [(pages of toc_doc, link_targets)]. *)
Definition draw_page (font_size page_width page_number_x gap : Q) (toc_page_count : Z)
  (acc : option (list (list text_op) * list link_target))
  (indexed : nat * list (toc_entry * list str))
  : option (list (list text_op) * list link_target) :=
  match acc with
  | None => None
  | Some (pages, link_targets) =>
      let '(page_index, entries) := indexed in
      let top_margin := 50%Q in
      let y := top_margin in
      let '(ops, y) :=
        if (page_index =? 0)%nat then
          let toc_title := py "Table of Contents" in
          let title_width := get_text_length toc_title (font_size + 2)%Q in
          ([{| drawn_as := Heading;
               at_x := (page_width / 2 - title_width / 2)%Q; at_y := y;
               text_of := toc_title; fontsize_of := (font_size + 2)%Q |}],
           (y + font_size * 2)%Q)
        else ([], y) in
      match fold_left (draw_entry font_size page_number_x gap toc_page_count page_index)
                      entries (Some (ops, y, link_targets)) with
      | None => None
      | Some (ops, _, link_targets) => Some (pages ++ [ops], link_targets)
      end
  end.

(** Draw TOC pages with wrapped titles, dot leaders, and page numbers. *)
Definition generate_toc_pages (paginated_entries : list (list (toc_entry * list str)))
  (font_size page_width page_number_x gap : Q) (toc_page_count : Z)
  : option (list (list text_op) * list link_target) :=
  fold_left (draw_page font_size page_width page_number_x gap toc_page_count)
            (enumerate paginated_entries) (Some ([], [])).

(** Offset original bookmarks to account for inserted TOC pages. *)
Definition shift_bookmark_pages (bookmarks : list toc_entry) (offset : Z) : list toc_entry :=
  map (fun '(lvl, title, page) => (lvl, title, (page + offset)%Z)) bookmarks.

(** Convert existing PDF TOC to (level, title, page_index) tuples. *)
Definition extract_toc_entries (toc : list toc_entry) : list toc_entry :=
  map (fun '(lvl, title, page_num) => (lvl, strip title, (page_num - 1)%Z)) toc.

(** The bookmarked PDF as far as the assembler looks at it: its pages (the
    text drawn on each) and its outline as [get_toc] returns it. *)
Record pdf := {
  pages : list (list text_op);
  toc : list toc_entry
}.

(** The document saved as [final_pdf]: the TOC pages followed by the pages of
    the bookmarked PDF, the link annotations inserted on the TOC pages
    [(page index, rectangle, target page)], and the outline given to
    [set_toc]. *)
Record final_pdf := {
  final_pages : list (list text_op);
  inserted_links : list (nat * rect * Z);
  final_toc : list toc_entry
}.

(** [fitz.paper_size("a4")] *)
Definition a4 : Q * Q := (595%Q, 842%Q).

(** The geometry fixed at the head of [add_toc_and_links]. *)
Definition page_number_x : Q := (fst a4 - 60)%Q.

Definition toc_text_max_width (font_size : Q) : Q :=
  let left_margin := 50%Q in
  let max_page_number := 99999%Z in
  let page_number_width := get_text_length (py_str_int max_page_number) font_size in
  let gap := 8%Q in
  (page_number_x - left_margin - page_number_width - gap)%Q.

(** Prepend a multi-page TOC with dot leaders and clickable links to a
    bookmarked PDF. *)
Definition add_toc_and_links (base : pdf) (font_size : Q) : option final_pdf :=
  let original_toc := extract_toc_entries (toc base) in
  let original_bookmarks := toc base in
  let '(width, height) := a4 in
  let gap := 8%Q in
  match paginate_wrapped_entries original_toc font_size
                                 (toc_text_max_width font_size) height with
  | None => None
  | Some paginated =>
      match generate_toc_pages paginated font_size width page_number_x gap
                               (Z.of_nat (List.length paginated)) with
      | None => None
      | Some (toc_doc, link_targets) =>
          let toc_page_count := Z.of_nat (List.length paginated) in
          Some {| final_pages := toc_doc ++ pages base;
                  inserted_links :=
                    map (fun '(toc_page_index, r, target_page) =>
                           (toc_page_index, r, (target_page + toc_page_count)%Z))
                        link_targets;
                  final_toc := shift_bookmark_pages original_bookmarks toc_page_count |}
      end
  end.

End Toc.

(* ================================================================== *)
(** ** The file table and its rescan *)
(* ================================================================== *)

(** A row of [table_data]:
    [[include, type, filename, title1, title2, title3, bookmark]]. *)
Record row := {
  include : bool;
  file_type : str;
  filename : str;
  title_1 : str;
  title_2 : str;
  title_3 : str;
  bookmark_of : str
}.

(** Python's order on strings: lexicographic on code points. *)
Fixpoint str_ltb (a b : str) : bool :=
  match a, b with
  | [], [] => false
  | [], _ :: _ => true
  | _ :: _, [] => false
  | x :: a', y :: b' => (x <? y) || ((x =? y) && str_ltb a' b')
  end.

(** A stable sort by insertion: an element goes in front of the first one
    that is not smaller than it. *)
Fixpoint insert_sorted (A : Type) (ltb : A -> A -> bool) (x : A) (l : list A) : list A :=
  match l with
  | [] => [x]
  | y :: l' => if ltb y x then y :: insert_sorted ltb x l' else x :: y :: l'
  end.

Fixpoint sort_by (A : Type) (ltb : A -> A -> bool) (l : list A) : list A :=
  match l with
  | [] => []
  | x :: l' => insert_sorted ltb x (sort_by ltb l')
  end.

(** [sorted(names)] *)
Definition sorted (names : list str) : list str := sort_by str_ltb names.

(** The keys of the rows, or [None] if computing one of them raises. *)
Fixpoint keyed (rows : list row) : option (list (sort_key * row)) :=
  match rows with
  | [] => Some []
  | r :: rows' =>
      match parse_sort_key (bookmark_of r), keyed rows' with
      | Some k, Some krs => Some ((k, r) :: krs)
      | _, _ => None
      end
  end.

(** [table_data.sort(key=lambda x: parse_sort_key(x[6]))] *)
Definition sort_rows (rows : list row) : option (list row) :=
  match keyed rows with
  | Some krs => Some (map snd (sort_by (fun a b => key_ltb (fst a) (fst b)) krs))
  | None => None
  end.

Definition key_eqb (a b : str * str) : bool :=
  str_eqb (fst a) (fst b) && str_eqb (snd a) (snd b).

(** [key in keys] for [(type, filename)] keys. *)
Definition key_in (k : str * str) (keys : list (str * str)) : bool :=
  existsb (key_eqb k) keys.

Definition row_key (r : row) : str * str := (file_type r, filename r).

(** The part of the application state that [refresh_folder] reads and
    writes. *)
Record TLFApp := {
  out_folder : str;
  table_data : list row;
  sorted_once : bool
}.

Section Rescan.

Variable os_path_basename : str -> str.
Variable os_path_join : str -> str -> str.

(** [os.listdir(folder)] for a folder that can be read; the three calls of
    one rescan are taken to see the same entries. *)
Variable os_listdir : str -> list str.

(** The three readers: the text of an RTF file, the text of page 1 of a PDF,
    the parsed DOCX; [None] when reading raises. *)
Variable read_rtf : str -> option str.
Variable read_pdf_page1 : str -> option str.
Variable read_docx : str -> option docx_document.

(** [sorted(f for f in os.listdir(folder)
            if f.lower().endswith(ext) and not f.startswith('~$'))] *)
Definition files_with (folder : str) (ext : str) : list str :=
  sorted (filter (fun f => endswith (lower f) ext && negb (startswith f (py "~$")))
                 (os_listdir folder)).

Definition file_list_of (folder : str) : list (str * str) :=
  map (fun f => (py "RTF", f)) (files_with folder (py ".rtf"))
  ++ map (fun f => (py "PDF", f)) (files_with folder (py ".pdf"))
  ++ map (fun f => (py "DOCX", f)) (files_with folder (py ".docx")).

(** The row appended for a new file. *)
Definition new_row (folder : str) (key : str * str) : row :=
  let '(ftype, fname) := key in
  let file_path := os_path_join folder fname in
  let '(t1, t2, t3, bm) :=
    if str_eqb ftype (py "RTF")
    then extract_titles_from_rtf os_path_basename file_path (read_rtf file_path)
    else if str_eqb ftype (py "PDF")
    then extract_title_from_pdf os_path_basename file_path (read_pdf_page1 file_path)
    else extract_title_from_docx os_path_basename file_path (read_docx file_path) in
  {| include := true; file_type := ftype; filename := fname;
     title_1 := t1; title_2 := t2; title_3 := t3; bookmark_of := bm |}.

(** Scan folder, add/remove files, extract titles, and (first run)
    auto-sort. *)
Definition refresh_folder (self : TLFApp) : option TLFApp :=
  if negb (truthy (out_folder self)) then Some self
  else
    let folder := out_folder self in
    let file_list := file_list_of folder in
    let existing_keys := map row_key (table_data self) in
    (* Remove missing files *)
    let kept := filter (fun r => key_in (row_key r) file_list) (table_data self) in
    (* Add new files *)
    let added :=
      map (new_row folder)
          (filter (fun key => negb (key_in key existing_keys)) file_list) in
    let table := kept ++ added in
    if negb (sorted_once self) then
      match sort_rows table with
      | Some table =>
          Some {| out_folder := folder; table_data := table; sorted_once := true |}
      | None => None
      end
    else Some {| out_folder := folder; table_data := table;
                 sorted_once := sorted_once self |}.

End Rescan.

(* ================================================================== *)
(** ** Packing: conversion, merge and output name *)
(* ================================================================== *)

Section Packing.

Variable os_path_basename : str -> str.
Variable os_path_join : str -> str -> str.
Variable os_path_splitext : str -> str * str.

(** The platform while the worker handles the file number [idx] (the folder
    changes as files are converted, so both depend on [idx]).
    [word_starts idx path]: whether
    [win32com.client.Dispatch('Word.Application')] succeeds when the file at
    [path] is converted (it is called outside the [try]).
    [open_pdf idx path]: the pages of the PDF that [fitz.open(path)] gives,
    [None] when opening raises (no such file, not a PDF). *)
Variable word_starts : nat -> str -> bool.
Variable open_pdf : nat -> str -> option (list (list text_op)).

Variable get_text_length : str -> Q -> Q.

(** Use MS Word (COM) to convert RTF/DOCX to PDF and return output path.
    What Word does is caught by the [try]; the path is returned whether or
    not the file was written.  [None] when starting Word raises. *)
Definition convert_to_pdf_with_word (idx : nat) (input_path output_folder : str)
  : option str :=
  let pdf_path := fst (os_path_splitext input_path) ++ py ".pdf" in
  let pdf_path := os_path_join output_folder (os_path_basename pdf_path) in
  if word_starts idx input_path then Some pdf_path else None.

(** [[row for row in self.table_data if row[0]]] *)
Definition files_to_pack (table : list row) : list row := filter include table.

(** The loop body of the worker of [generate_pdf], over
    [enumerate(files_to_pack)].  The state is
    [(pages of merged, toc, page_count)]; [None] when a statement raised. *)
Definition pack_file (out_folder : str)
  (acc : option (list (list text_op) * list toc_entry * Z)) (indexed : nat * row)
  : option (list (list text_op) * list toc_entry * Z) :=
  match acc with
  | None => None
  | Some (merged, toc, page_count) =>
      let idx := fst indexed in
      let r := snd indexed in
      let file_path := os_path_join out_folder (filename r) in
      let converted :=
        if str_eqb (file_type r) (py "RTF") || str_eqb (file_type r) (py "DOCX")
        then convert_to_pdf_with_word idx file_path out_folder
        else Some file_path in
      match converted with
      | None => None
      | Some pdf_path =>
          let toc := toc ++ [(1%Z, bookmark_of r, (page_count + 1)%Z)] in
          match open_pdf idx pdf_path with
          | None => None
          | Some doc =>
              Some (merged ++ doc, toc, (page_count + Z.of_nat (List.length doc))%Z)
          end
      end
  end.

(** The bookmarked PDF that the worker saves before the TOC is added
    ([set_toc] and [save] are taken to store pages and outline as given). *)
Definition merge_files (out_folder : str) (files : list row) : option pdf :=
  match fold_left (pack_file out_folder) (enumerate files) (Some ([], [], 0%Z)) with
  | Some (merged, toc, _) => Some {| pages := merged; toc := toc |}
  | None => None
  end.

(** The worker of [generate_pdf] (started only when a row is checked): the
    document that it builds, or [None] when an exception reached the
    worker's [except] (an error message is shown and no output is written).
    Without TOC the bookmarked PDF is renamed to the output path as it is.
    The document is saved under a temporary name first, the output path with
    ".pdf" replaced by "_bookmarked.pdf"; writing, renaming and removing the
    files is not modelled, so this is the document at the output path only
    when these steps succeed and the two names differ. *)
Definition generate_pdf_worker (out_folder : str) (table : list row)
  (toc_checkbox : bool) : option final_pdf :=
  match merge_files out_folder (files_to_pack table) with
  | None => None
  | Some bookmarked =>
      if toc_checkbox then add_toc_and_links get_text_length bookmarked 8
      else Some {| final_pages := pages bookmarked; inserted_links := [];
                   final_toc := toc bookmarked |}
  end.

(** The path that the worker opens for the row number [idx]. *)
Definition pdf_path_of (out_folder : str) (idx : nat) (r : row) : option str :=
  let file_path := os_path_join out_folder (filename r) in
  if str_eqb (file_type r) (py "RTF") || str_eqb (file_type r) (py "DOCX")
  then convert_to_pdf_with_word idx file_path out_folder
  else Some file_path.

End Packing.

(* ================================================================== *)
(** ** The window: filter, check marks and order of the table *)
(* ================================================================== *)

Definition CHECKED : str := [9745].     (* '☑' *)
Definition UNCHECKED : str := [9744].   (* '☐' *)

(** [QtCore.Qt.AscendingOrder], [QtCore.Qt.DescendingOrder] *)
Inductive SortOrder := AscendingOrder | DescendingOrder.

(** What [set_button_states] sets. *)
Record button_states := {
  browse_enabled : bool;
  others_enabled : bool;
  convert_enabled : bool;
  pack_enabled : bool
}.

(** The part of the window that the table operations read and write: the
    application state, the filter, the toggle of the Select All button, the
    sort column and order, the text of the search box, the cells of the
    table widget, the buttons and the three numbers of the label of selected
    files (RTF, DOCX, PDF).  Fonts, colours and the selection of the widget
    are left out. *)
Record TLFWindow := {
  app_state : TLFApp;
  filtered_indices : list nat;
  select_all_state : bool;
  current_sort_column : option nat;
  sort_order : SortOrder;
  search_box : str;
  table : list (list str);
  buttons : button_states;
  selected_counts : nat * nat * nat
}.

(** The window after [__init__]. *)
Definition new_window : TLFWindow :=
  {| app_state := {| out_folder := []; table_data := []; sorted_once := false |};
     filtered_indices := [];
     select_all_state := true;
     current_sort_column := None;
     sort_order := AscendingOrder;
     search_box := [];
     table := [];
     buttons := {| browse_enabled := true; others_enabled := false;
                   convert_enabled := false; pack_enabled := false |};
     selected_counts := (0, 0, 0)%nat |}.

Definition with_table_data (w : TLFWindow) (rows : list row) : TLFWindow :=
  {| app_state := {| out_folder := out_folder (app_state w); table_data := rows;
               sorted_once := sorted_once (app_state w) |};
     filtered_indices := filtered_indices w;
     select_all_state := select_all_state w;
     current_sort_column := current_sort_column w;
     sort_order := sort_order w;
     search_box := search_box w;
     table := table w;
     buttons := buttons w;
     selected_counts := selected_counts w |}.

Definition with_filtered_indices (w : TLFWindow) (l : list nat) : TLFWindow :=
  {| app_state := app_state w;
     filtered_indices := l;
     select_all_state := select_all_state w;
     current_sort_column := current_sort_column w;
     sort_order := sort_order w;
     search_box := search_box w;
     table := table w;
     buttons := buttons w;
     selected_counts := selected_counts w |}.

(** [str(True)], [str(False)] *)
Definition py_str_bool (b : bool) : str := if b then py "True" else py "False".

(** [str(val) for val in row] *)
Definition cells (r : row) : list str :=
  [py_str_bool (include r); file_type r; filename r;
   title_1 r; title_2 r; title_3 r; bookmark_of r].

(** [self.filtered_indices if self.filtered_indices
     else list(range(len(self.table_data)))] *)
Definition indices (w : TLFWindow) : list nat :=
  match filtered_indices w with
  | [] => seq 0 (List.length (table_data (app_state w)))
  | _ :: _ => filtered_indices w
  end.

(** [[table_data[i] for i in indices]]; [None] stands for an [IndexError]. *)
Fixpoint rows_at (table_data : list row) (indices : list nat) : option (list row) :=
  match indices with
  | [] => Some []
  | i :: indices' =>
      match nth_error table_data i, rows_at table_data indices' with
      | Some r, Some rs => Some (r :: rs)
      | _, _ => None
      end
  end.

(** The row as the widget shows it. *)
Definition disp_row (rowdata : row) : list str :=
  [if include rowdata then CHECKED else UNCHECKED; file_type rowdata; filename rowdata;
   title_1 rowdata; title_2 rowdata; title_3 rowdata; bookmark_of rowdata].

Definition is_type (t : string) (r : row) : bool := str_eqb (file_type r) (py t).
Arguments is_type t%_string r.

(** Update selected file counts. *)
Definition update_selected_counts (w : TLFWindow) : TLFWindow :=
  let count t :=
    List.length (filter (fun r => include r && is_type t r) (table_data (app_state w))) in
  {| app_state := app_state w;
     filtered_indices := filtered_indices w;
     select_all_state := select_all_state w;
     current_sort_column := current_sort_column w;
     sort_order := sort_order w;
     search_box := search_box w;
     table := table w;
     buttons := buttons w;
     selected_counts := (count "RTF"%string, count "DOCX"%string, count "PDF"%string) |}.

(** Compute and apply button states from table contents/selection. *)
Definition update_button_states (w : TLFWindow) : TLFWindow :=
  let table_data := table_data (app_state w) in
  let has_outputs := (0 <? List.length table_data)%nat in
  let any_checked := existsb include table_data in
  let any_rtf_docx_checked :=
    existsb (fun r => include r && (is_type "RTF" r || is_type "DOCX" r)) table_data in
  {| app_state := app_state w;
     filtered_indices := filtered_indices w;
     select_all_state := select_all_state w;
     current_sort_column := current_sort_column w;
     sort_order := sort_order w;
     search_box := search_box w;
     table := table w;
     buttons := {| browse_enabled := true;
                   others_enabled := has_outputs;
                   convert_enabled := any_rtf_docx_checked && has_outputs;
                   pack_enabled := any_checked && has_outputs |};
     selected_counts := selected_counts w |}.

(** Repaint the table from model data.  [None] stands for an [IndexError]
    at [self.table_data[i]]. *)
Definition refresh_table (w : TLFWindow) : option TLFWindow :=
  match rows_at (table_data (app_state w)) (indices w) with
  | None => None
  | Some rowdatas =>
      let w :=
        {| app_state := app_state w;
           filtered_indices := filtered_indices w;
           select_all_state := select_all_state w;
           current_sort_column := current_sort_column w;
           sort_order := sort_order w;
           search_box := search_box w;
           table := map disp_row rowdatas;
           buttons := buttons w;
           selected_counts := selected_counts w |} in
      Some (update_selected_counts (update_button_states w))
  end.

(** [any(search in str(val).lower() for val in row)] *)
Definition row_has (search : str) (r : row) : bool :=
  existsb (fun val => contains search (lower val)) (cells r).

(** Filter visible rows by search text across all columns. *)
Definition apply_filter (w : TLFWindow) : option TLFWindow :=
  let search := lower (strip (search_box w)) in
  let table_data := table_data (app_state w) in
  if negb (truthy search) then
    refresh_table (with_filtered_indices w (seq 0 (List.length table_data)))
  else
    refresh_table
      (with_filtered_indices w
         (map fst (filter (fun indexed => row_has search (snd indexed))
                          (enumerate table_data)))).

Definition set_include (v : bool) (r : row) : row :=
  {| include := v; file_type := file_type r; filename := filename r;
     title_1 := title_1 r; title_2 := title_2 r; title_3 := title_3 r;
     bookmark_of := bookmark_of r |}.

Definition set_bookmark (v : str) (r : row) : row :=
  {| include := include r; file_type := file_type r; filename := filename r;
     title_1 := title_1 r; title_2 := title_2 r; title_3 := title_3 r;
     bookmark_of := v |}.

(** [table_data[idx] = f(table_data[idx])]; [None] stands for an
    [IndexError]. *)
Fixpoint update_at (idx : nat) (f : row -> row) (table_data : list row)
  : option (list row) :=
  match table_data, idx with
  | [], _ => None
  | r :: rest, O => Some (f r :: rest)
  | r :: rest, S idx' =>
      match update_at idx' f rest with
      | Some rest' => Some (r :: rest')
      | None => None
      end
  end.

(** Toggle Include column for all visible rows (select/deselect all). *)
Definition toggle_select_all (w : TLFWindow) : option TLFWindow :=
  let step acc idx :=
    match acc with
    | Some table_data => update_at idx (set_include (select_all_state w)) table_data
    | None => None
    end in
  match fold_left step (indices w) (Some (table_data (app_state w))) with
  | None => None
  | Some table_data =>
      let w := with_table_data w table_data in
      match refresh_table
              {| app_state := app_state w;
                 filtered_indices := filtered_indices w;
                 select_all_state := negb (select_all_state w);
                 current_sort_column := current_sort_column w;
                 sort_order := sort_order w;
                 search_box := search_box w;
                 table := table w;
                 buttons := buttons w;
                 selected_counts := selected_counts w |} with
      | Some w => Some (update_selected_counts w)
      | None => None
      end
  end.

(** Python's order on [bool]: [False < True]. *)
Definition bool_ltb (a b : bool) : bool := negb a && b.

(** The comparison of [list.sort(key=..., reverse=reverse)] on the pairs
    [(key, item)]: with [reverse] every comparison is reversed, and items
    with equal keys keep their order either way. *)
Definition by_key (A K : Type) (ltb : K -> K -> bool) (reverse : bool)
  (a b : K * A) : bool :=
  if reverse then ltb (fst b) (fst a) else ltb (fst a) (fst b).

(** [x[col]] for a text column; [None] stands for an [IndexError]. *)
Definition text_column (col : nat) (r : row) : option str :=
  nth_error [file_type r; filename r; title_1 r; title_2 r; title_3 r; bookmark_of r]
            (col - 1)%nat.

(** [(x[col] or '').lower()] for every row, or [None] if one of them
    raises. *)
Fixpoint text_keyed (col : nat) (rows : list row) : option (list (str * row)) :=
  match rows with
  | [] => Some []
  | r :: rows' =>
      match text_column col r, text_keyed col rows' with
      | Some v, Some krs => Some ((lower (if truthy v then v else []), r) :: krs)
      | _, _ => None
      end
  end.

(** The three branches of [self.table_data.sort(...)] in
    [handle_header_sort]. *)
Definition sort_column (col : nat) (reverse : bool) (table_data : list row)
  : option (list row) :=
  if (col =? 0)%nat then
    Some (map snd (sort_by (by_key bool_ltb reverse)
                           (map (fun x => (include x, x)) table_data)))
  else if (col =? 6)%nat then
    match keyed table_data with
    | Some krs => Some (map snd (sort_by (by_key key_ltb reverse) krs))
    | None => None
    end
  else
    match text_keyed col table_data with
    | Some krs => Some (map snd (sort_by (by_key str_ltb reverse) krs))
    | None => None
    end.

Definition is_descending (o : SortOrder) : bool :=
  match o with DescendingOrder => true | AscendingOrder => false end.

Definition same_column (c : option nat) (logicalIndex : nat) : bool :=
  match c with Some c => (c =? logicalIndex)%nat | None => false end.

(** Sort rows by clicked column (with special handling for
    Include/Bookmark). *)
Definition handle_header_sort (w : TLFWindow) (logicalIndex : nat) : option TLFWindow :=
  let sort_order' :=
    if same_column (current_sort_column w) logicalIndex then
      match sort_order w with
      | AscendingOrder => DescendingOrder
      | DescendingOrder => AscendingOrder
      end
    else AscendingOrder in
  let col := logicalIndex in
  match sort_column col (is_descending sort_order') (table_data (app_state w)) with
  | None => None
  | Some table_data' =>
      apply_filter
        {| app_state := {| out_folder := out_folder (app_state w); table_data := table_data';
                     sorted_once := sorted_once (app_state w) |};
           filtered_indices := filtered_indices w;
           select_all_state := select_all_state w;
           current_sort_column := Some logicalIndex;
           sort_order := sort_order';
           search_box := search_box w;
           table := table w;
           buttons := buttons w;
           selected_counts := selected_counts w |}
  end.

(** [table_data[i], table_data[j] = table_data[j], table_data[i]]; [None]
    stands for an [IndexError]. *)
Definition swap_rows (i j : nat) (table_data : list row) : option (list row) :=
  match nth_error table_data j, nth_error table_data i with
  | Some rj, Some ri =>
      match update_at i (fun _ => rj) table_data with
      | Some table_data' => update_at j (fun _ => ri) table_data'
      | None => None
      end
  | _, _ => None
  end.

(** Move the selected row up in the underlying data order.  [selected] is
    [self.table.currentRow()]. *)
Definition move_up (w : TLFWindow) (selected : Z) : option TLFWindow :=
  if (selected <=? 0)%Z then Some w
  else
    match nth_error (indices w) (Z.to_nat selected) with
    | None => None
    | Some actual_idx =>
        if (actual_idx <=? 0)%nat then Some w
        else
          match swap_rows (actual_idx - 1) actual_idx (table_data (app_state w)) with
          | None => None
          | Some table_data' => apply_filter (with_table_data w table_data')
          end
    end.

(** Move the selected row down in the underlying data order. *)
Definition move_down (w : TLFWindow) (selected : Z) : option TLFWindow :=
  if ((selected <? 0) || (selected >=? Z.of_nat (List.length (indices w)) - 1))%Z
  then Some w
  else
    match nth_error (indices w) (Z.to_nat selected) with
    | None => None
    | Some actual_idx =>
        if (Z.of_nat actual_idx >=? Z.of_nat (List.length (table_data (app_state w))) - 1)%Z
        then Some w
        else
          match swap_rows (actual_idx + 1) actual_idx (table_data (app_state w)) with
          | None => None
          | Some table_data' => apply_filter (with_table_data w table_data')
          end
    end.

(** Toggle Include when the first column is clicked. *)
Definition on_cell_clicked (w : TLFWindow) (row col : nat) : option TLFWindow :=
  if (col =? 0)%nat then
    match nth_error (indices w) row with
    | None => None
    | Some actual_idx =>
        match update_at actual_idx (fun r => set_include (negb (include r)) r)
                        (table_data (app_state w)) with
        | None => None
        | Some table_data' =>
            match refresh_table (with_table_data w table_data') with
            | Some w => Some (update_selected_counts w)
            | None => None
            end
        end
    end
  else Some (update_selected_counts w).

(** Allow in-place editing of the Bookmark column via dialog; [newval] and
    [ok] are what the dialog returns.  This is the handler on the table as it
    is when the dialog opens: the timer goes on while the dialog waits, and a
    rescan that changes the table in the meantime is not part of this
    step. *)
Definition on_cell_double_clicked (w : TLFWindow) (row col : nat)
  (newval : str) (ok : bool) : option TLFWindow :=
  if (col =? 6)%nat then
    match nth_error (indices w) row with
    | None => None
    | Some actual_idx =>
        match nth_error (table_data (app_state w)) actual_idx with
        | None => None
        | Some _ =>
            if ok then
              match update_at actual_idx (set_bookmark newval) (table_data (app_state w)) with
              | None => None
              | Some table_data' => refresh_table (with_table_data w table_data')
              end
            else Some w
        end
    end
  else Some w.

Section Window.

Variable os_path_basename : str -> str.
Variable os_path_join : str -> str -> str.
Variable os_listdir : str -> list str.
Variable read_rtf : str -> option str.
Variable read_pdf_page1 : str -> option str.
Variable read_docx : str -> option docx_document.

(** [refresh_folder] with its last statement, [self.apply_filter()], which
    is not reached when no folder is selected. *)
Definition refresh_folder_and_filter (w : TLFWindow) : option TLFWindow :=
  if negb (truthy (out_folder (app_state w))) then Some w
  else
    match refresh_folder os_path_basename os_path_join os_listdir
                         read_rtf read_pdf_page1 read_docx (app_state w) with
    | None => None
    | Some app' =>
        apply_filter
          {| app_state := app';
             filtered_indices := filtered_indices w;
             select_all_state := select_all_state w;
             current_sort_column := current_sort_column w;
             sort_order := sort_order w;
             search_box := search_box w;
             table := table w;
             buttons := buttons w;
             selected_counts := selected_counts w |}
    end.

(** Let user pick a folder and trigger initial scan; [folder] is what the
    dialog returns. *)
Definition browse_folder (w : TLFWindow) (folder : str) : option TLFWindow :=
  if negb (truthy folder) then Some w
  else
    refresh_folder_and_filter
      {| app_state := {| out_folder := folder;
                         table_data := table_data (app_state w);
                         sorted_once := sorted_once (app_state w) |};
         filtered_indices := filtered_indices w;
         select_all_state := select_all_state w;
         current_sort_column := current_sort_column w;
         sort_order := sort_order w;
         search_box := search_box w;
         table := table w;
         buttons := buttons w;
         selected_counts := selected_counts w |}.

(** What the user, the timer or the search box can make the window do: the
    slots connected in [__init__], with the arguments of the signals. *)
Inductive event :=
| browse_btn_clicked (folder : str)
| select_toggle_btn_clicked
| up_btn_clicked (selected : Z)
| down_btn_clicked (selected : Z)
| search_box_textChanged (text : str)
| table_cellClicked (row col : nat)
| table_cellDoubleClicked (row col : nat) (newval : str) (ok : bool)
| header_sectionClicked (logicalIndex : nat)
| timer_timeout.

Definition handle (w : TLFWindow) (e : event) : option TLFWindow :=
  match e with
  | browse_btn_clicked folder => browse_folder w folder
  | select_toggle_btn_clicked => toggle_select_all w
  | up_btn_clicked selected => move_up w selected
  | down_btn_clicked selected => move_down w selected
  | search_box_textChanged text =>
      apply_filter
        {| app_state := app_state w;
           filtered_indices := filtered_indices w;
           select_all_state := select_all_state w;
           current_sort_column := current_sort_column w;
           sort_order := sort_order w;
           search_box := text;
           table := table w;
           buttons := buttons w;
           selected_counts := selected_counts w |}
  | table_cellClicked row col => on_cell_clicked w row col
  | table_cellDoubleClicked row col newval ok => on_cell_double_clicked w row col newval ok
  | header_sectionClicked logicalIndex => handle_header_sort w logicalIndex
  | timer_timeout => refresh_folder_and_filter w
  end.

End Window.

(* ================================================================== *)
(** ** Starting a conversion or a packing run *)
(* ================================================================== *)


(** The truth value of a list. *)
Definition has_items (A : Type) (l : list A) : bool :=
  match l with [] => false | _ :: _ => true end.

(** [[row for row in self.table_data if row[0] and row[1] in ['RTF', 'DOCX']]] *)
Definition files_to_convert (table_data : list row) : list row :=
  filter (fun r => include r && (is_type "RTF" r || is_type "DOCX" r)) table_data.



Section GeneratePdf.

Variable os_path_join : str -> str -> str.
Variable os_path_splitext : str -> str * str.
Variable os_path_exists : str -> bool.




End GeneratePdf.

(* ================================================================== *)
(** ** Vocabulary of the statements *)
(* ================================================================== *)

(** The pair that [paginate_wrapped_entries] files for an entry. *)
Definition with_wrapped_lines (get_text_length : str -> Q -> Q)
  (font_size toc_text_max_width : Q) (entry : toc_entry) : toc_entry * list str :=
  (entry, wrapped_lines_of get_text_length font_size toc_text_max_width entry).

Definition target_page_of (e : toc_entry) : Z := snd e.

Definition is_page_number (op : text_op) : bool :=
  match drawn_as op with PageNumber => true | _ => false end.

(** The page numbers drawn on a page, top to bottom. *)
Definition page_numbers_on (ops : list text_op) : list str :=
  map text_of (filter is_page_number ops).

(** An entry with at least one wrapped line: only such an entry has a line
    that carries its page number. *)
Definition has_lines (item : toc_entry * list str) : bool :=
  match snd item with [] => false | _ => true end.

Definition page_number_str_of (toc_page_count : Z) (item : toc_entry * list str) : str :=
  py_str_int (target_page_of (fst item) + toc_page_count + 1).

(** What a successful run of the matcher does: [matches f r st mid st'] reads
    [mid] from [st], by [r], and arrives at [st']. *)
Inductive matches (f : flags) : re -> state -> str -> state -> Prop :=
| M_eps st : matches f Eps st [] st
| M_lit p c t st :
    rest st = c :: t -> lit_matches f p c = true ->
    matches f (Lit p) st [c] (advance c t st)
| M_dot c t st :
    rest st = c :: t -> dotall f || negb (N.eqb c 10) = true ->
    matches f Dot st [c] (advance c t st)
| M_class neg items c t st :
    rest st = c :: t -> xorb neg (class_has f items c) = true ->
    matches f (Class neg items) st [c] (advance c t st)
| M_seq r1 r2 st mid1 st1 mid2 st2 :
    matches f r1 st mid1 st1 -> matches f r2 st1 mid2 st2 ->
    matches f (Seq r1 r2) st (mid1 ++ mid2) st2
| M_alt_l r1 r2 st mid st' :
    matches f r1 st mid st' -> matches f (Alt r1 r2) st mid st'
| M_alt_r r1 r2 st mid st' :
    matches f r2 st mid st' -> matches f (Alt r1 r2) st mid st'
| M_star_stop g r st : matches f (Star g r) st [] st
| M_star_more g r st mid1 st1 mid2 st2 :
    matches f r st mid1 st1 -> (pos st < pos st1)%nat ->
    matches f (Star g r) st1 mid2 st2 ->
    matches f (Star g r) st (mid1 ++ mid2) st2
| M_grp n r st mid st' :
    matches f r st mid st' ->
    matches f (Grp n r) st mid (set_cap n (pos st) st')
| M_bol st : prev st = None -> matches f Bol st [] st
| M_eol st : rest st = [] \/ rest st = [10%N] -> matches f Eol st [] st
| M_wordb st : at_word_boundary st = true -> matches f WordB st [] st.

(** The matcher is at offset [pos st] of [text]. *)
Definition at_text (text : str) (st : state) : Prop :=
  exists before, text = before ++ rest st /\ pos st = List.length before.

(** A non-empty run of decimal digits. *)
Definition digit_run (x : str) : Prop := x <> [] /\ forallb isdigit x = true.

(** A piece "." followed by a run of digits. *)
Definition dot_digits (x : str) : Prop := exists ds, x = ch "." :: ds /\ digit_run ds.


(** A DOCX whose only text is one header paragraph. *)
Definition docx_with_header (line : str) : docx_document :=
  {| section_headers := [[line]]; paragraphs := []; tables := [] |}.

(** The remainder that claim C10 describes for a match at offset [k]: the [k]
    characters before the match, then the text after the match without its
    last [k] characters. *)
Definition remainder_as_claimed (line : str) (m : mtch) : str :=
  let k := m_start m in
  let post := skipn (m_end m) line in
  firstn k line ++ firstn (List.length post - k) post.

(** The text that [parse_sort_key] searches: lower case, leading non-letters
    removed. *)
Definition key_text (bookmark : str) : str :=
  Re.sub no_flags leading_nonletters_pattern [] (lower bookmark).

Section RescanVocabulary.

Variable os_path_basename : str -> str.
Variable os_path_join : str -> str -> str.
Variable os_listdir : str -> list str.
Variable read_rtf : str -> option str.
Variable read_pdf_page1 : str -> option str.
Variable read_docx : str -> option docx_document.

(** The rows that a rescan keeps: those whose key is in the folder's file
    list. *)
Definition kept_rows (self : TLFApp) : list row :=
  filter (fun r => key_in (row_key r) (file_list_of os_listdir (out_folder self)))
         (table_data self).

(** The rows that a rescan adds: one per file whose key was not in the
    table. *)
Definition added_rows (self : TLFApp) : list row :=
  map (new_row os_path_basename os_path_join read_rtf read_pdf_page1 read_docx
               (out_folder self))
      (filter (fun key => negb (key_in key (map row_key (table_data self))))
              (file_list_of os_listdir (out_folder self))).

End RescanVocabulary.

(** Concrete inputs for the examples: a text measure that gives every
    character half the font size, a bookmarked PDF with three outline
    entries, and a folder with its table. *)
Definition half_em (text : str) (fontsize : Q) : Q :=
  (inject_Z (Z.of_nat (List.length text)) * fontsize / 2)%Q.

Definition sample_pdf : pdf :=
  {| pages := [[]; []; []];
     toc := [(1%Z, py "Table 14.1.1: Summary of Demographics", 1%Z);
             (1%Z, py "Listing 16.2.1: Adverse Events", 2%Z);
             (1%Z, py "   ", 3%Z)] |}.

Definition sample_listing (folder : str) : list str :=
  [py "t_ae.rtf"; py "~$t_ae.rtf"; py "f_km.pdf"; py "notes.txt"].


Definition no_file (A : Type) (path : str) : option A := None.

(* ================================================================== *)
(** ** Vocabulary of the further properties *)
(* ================================================================== *)

(* ------------------------------------------------------------------ *)
(** *** Wrapped titles *)

(** [" ".join(words)] *)
Fixpoint join_words (words : list str) : str :=
  match words with
  | [] => []
  | [w] => w
  | w :: more => w ++ py " " ++ join_words more
  end.

(** A wrapped line, seen as the words it holds, is in order when it fits the
    width or holds a single word. *)
Definition line_in_order (get_text_length : str -> Q -> Q) (font_size max_width : Q)
  (group : list str) : Prop :=
  group <> []
  /\ (Qle_bool (get_text_length (join_words group) font_size) max_width = true
      \/ exists word, group = [word]).

(* ------------------------------------------------------------------ *)
(** *** Pages of the table of contents *)

(** The number of wrapped lines on a TOC page. *)
Definition page_line_count (page : list (toc_entry * list str)) : Z :=
  fold_right (fun item n => (Z.of_nat (List.length (snd item)) + n)%Z) 0%Z page.

(** [lines_per_page] as [paginate_wrapped_entries] computes it. *)
Definition lines_per_page_of (font_size page_height : Q) : option Z :=
  match floordiv (page_height - 100) (font_size * (3 # 2)) with
  | Some q => Some (q - 2)%Z
  | None => None
  end.

Definition is_heading (op : text_op) : bool :=
  match drawn_as op with Heading => true | _ => false end.

(** The headings drawn on a page. *)
Definition headings_on (ops : list text_op) : list str :=
  map text_of (filter is_heading ops).

(** Where a link sits and where it leads. *)
Definition link_page_and_target (l : link_target) : nat * Z := (fst (fst l), snd l).

(** An outline entry whose title wraps to at least one line, so that the TOC
    shows a page number for it (a title that is blank after [strip] wraps to
    no line). *)
Definition entry_has_line (get_text_length : str -> Q -> Q) (font_size : Q)
  (e : toc_entry) : bool :=
  let '(lvl, title, page) := e in
  match wrapped_lines_of get_text_length font_size
                         (toc_text_max_width get_text_length font_size)
                         (lvl, strip title, page) with
  | [] => false
  | _ => true
  end.

(* ------------------------------------------------------------------ *)
(** *** Packing *)

(** Number of pages of the documents before the [i]-th one. *)
Definition pages_before (docs : list (list (list text_op))) (i : nat) : Z :=
  Z.of_nat (List.length (List.concat (firstn i docs))).

(** The outline that the merge loop builds for [files] whose PDFs are [docs],
    starting after [page_count] pages. *)
Fixpoint outline_from (page_count : Z) (files : list row)
  (docs : list (list (list text_op))) : list toc_entry :=
  match files, docs with
  | r :: files', doc :: docs' =>
      (1%Z, bookmark_of r, (page_count + 1)%Z)
        :: outline_from (page_count + Z.of_nat (List.length doc)) files' docs'
  | _, _ => []
  end.

(** A platform for the examples: paths with "/", the extension from the
    last ".", Word at hand, and an output folder that holds "t_ae.pdf" (three
    pages) and "f_km.pdf" (one page). *)
Fixpoint after_last (sep : char) (p : str) : str :=
  match p with
  | [] => []
  | c :: t =>
      if existsb (char_eqb sep) t then after_last sep t
      else if char_eqb sep c then t else c :: t
  end.

Definition sample_basename (p : str) : str := after_last (ch "/") p.

Definition sample_join (folder name : str) : str := folder ++ py "/" ++ name.

Definition sample_splitext (p : str) : str * str :=
  if existsb (char_eqb (ch ".")) p then
    let ext := ch "." :: after_last (ch ".") p in
    (firstn (List.length p - List.length ext) p, ext)
  else (p, []).

Definition sample_open_pdf (idx : nat) (path : str) : option (list (list text_op)) :=
  if str_eqb path (py "out/t_ae.pdf") then Some [[]; []; []]
  else if str_eqb path (py "out/f_km.pdf") then Some [[]]
  else None.

(* ------------------------------------------------------------------ *)
(** *** RTF header groups *)

(** Opening braces minus closing braces. *)
Definition brace_balance (s : str) : Z :=
  (Z.of_nat (count_char (ch "{") s) - Z.of_nat (count_char (ch "}") s))%Z.

(** One top-level group: it opens with a brace that only its last character
    closes. *)
Definition top_level_group (g : str) : Prop :=
  (exists body, g = ch "{" :: body ++ [ch "}"])
  /\ brace_balance g = 0%Z
  /\ forall n, (0 < n < List.length g)%nat -> (0 < brace_balance (firstn n g))%Z.

(** The groups in order, each after some text that is dropped. *)
Fixpoint interleave (dropped groups : list str) : str :=
  match dropped, groups with
  | j :: dropped', g :: groups' => j ++ g ++ interleave dropped' groups'
  | _, _ => []
  end.

(** What the scanner holds after reading [done]. *)
Definition scan_inv (done : str) (acc : list str * Z * str) : Prop :=
  let '(groups, depth, buf) := acc in
  Forall top_level_group groups
  /\ (exists dropped tail,
        List.length dropped = List.length groups
        /\ done = interleave dropped groups ++ tail
        /\ ((0 < depth)%Z -> exists j, tail = j ++ buf))
  /\ ((0 < depth)%Z ->
        (exists body, buf = ch "{" :: body)
        /\ brace_balance buf = depth
        /\ forall n, (0 < n <= List.length buf)%nat -> (0 < brace_balance (firstn n buf))%Z).

(* ------------------------------------------------------------------ *)
(** *** Plain text *)

(** The text is ASCII.  On such text [lower], [isalpha], [isdigit] and the
    patterns are those of Python; beyond ASCII, Python also folds the case of
    other letters (the Kelvin sign U+212A becomes "k") and reads the decimal
    digits of every script, so the statements about letter case and numbers
    are made for ASCII text. *)
Definition is_ascii (s : str) : bool := forallb (fun c => c <? 128) s.

(** The most digits that [int] converts (Python's default limit); on a longer
    run of digits it raises ValueError. *)
Definition int_max_str_digits : nat := 4300.

(** A bookmark that is ASCII text and too short to hold a number that [int]
    refuses. *)
Definition plain (bookmark : str) : bool :=
  is_ascii bookmark && (List.length bookmark <=? int_max_str_digits)%nat.

(** A row whose cells are ASCII text and whose bookmark is plain. *)
Definition plain_row (r : row) : bool :=
  forallb is_ascii (cells r) && plain (bookmark_of r).

(* ------------------------------------------------------------------ *)
(** *** Order of the table *)

(** No row has a key below the key of a row before it. *)
Definition in_key_order (rows : list row) : Prop :=
  forall i j ri rj ki kj,
    (i < j)%nat ->
    nth_error rows i = Some ri -> nth_error rows j = Some rj ->
    parse_sort_key (bookmark_of ri) = Some ki ->
    parse_sort_key (bookmark_of rj) = Some kj ->
    key_ltb kj ki = false.

Definition path_eqb (a b : list Z) : bool :=
  (List.length a =? List.length b)%nat && forallb (fun xy => (fst xy =? snd xy)%Z) (combine a b).

Definition sort_key_eqb (a b : sort_key) : bool :=
  (fst a =? fst b)%Z && path_eqb (snd a) (snd b).

(** The rows whose key is [k], in the order of the table. *)
Definition rows_with_key (k : sort_key) (rows : list row) : list row :=
  filter (fun r => match parse_sort_key (bookmark_of r) with
                   | Some k' => sort_key_eqb k k'
                   | None => false
                   end) rows.

(** The extension that goes with a file type. *)
Definition extension_of : list (str * str) :=
  [(py "RTF", py ".rtf"); (py "PDF", py ".pdf"); (py "DOCX", py ".docx")].

(** A table that has not been sorted yet, for the examples. *)
Definition sample_unsorted_app : TLFApp :=
  {| out_folder := py "out";
     table_data :=
       [ {| include := true; file_type := py "RTF"; filename := py "t_ae.rtf";
            title_1 := py "Listing 16.2.1"; title_2 := []; title_3 := [];
            bookmark_of := py "Listing 16.2.1" |};
         {| include := true; file_type := py "PDF"; filename := py "f_km.pdf";
            title_1 := py "Table 14.1"; title_2 := []; title_3 := [];
            bookmark_of := py "Table 14.1" |} ];
     sorted_once := false |}.

(* ------------------------------------------------------------------ *)
(** *** Sort keys *)

(** The number of characters at the start of [s] that satisfy [p]. *)
Fixpoint prefix_length (p : char -> bool) (s : str) : nat :=
  match s with
  | [] => 0
  | c :: t => if p c then S (prefix_length p t) else 0
  end.

(** Not an ASCII letter: what "[^a-zA-Z]" accepts. *)
Definition nonletter (c : char) : bool := negb (isalpha c).

(* ------------------------------------------------------------------ *)
(** *** The window *)

(** The three file types of the table. *)
Definition known_type (r : row) : Prop :=
  In (file_type r) [py "RTF"; py "PDF"; py "DOCX"].

(** Every row is of a known type, and there are rows only if a folder is
    selected. *)
Definition rows_ok (self : TLFApp) : Prop :=
  Forall known_type (table_data self)
  /\ (table_data self <> [] -> truthy (out_folder self) = true).

(** The window is consistent: the widget shows the rows that the filter
    selects (so the filter holds no index outside the table), the buttons and
    the label are those of the table, and the rows are as a rescan leaves
    them. *)
Definition window_ok (w : TLFWindow) : Prop :=
  (exists rowdatas,
     rows_at (table_data (app_state w)) (indices w) = Some rowdatas
     /\ table w = map disp_row rowdatas)
  /\ buttons w = buttons (update_button_states w)
  /\ selected_counts w = selected_counts (update_selected_counts w)
  /\ rows_ok (app_state w).

(** What the widgets allow: the current row is a row of the widget or none
    ([-1]), a clicked cell is a cell of the widget, and a clicked header
    section is one of the seven columns. *)
Definition can_happen (w : TLFWindow) (e : event) : Prop :=
  match e with
  | up_btn_clicked selected | down_btn_clicked selected =>
      (-1 <= selected < Z.of_nat (List.length (table w)))%Z
  | table_cellClicked row col | table_cellDoubleClicked row col _ _ =>
      (row < List.length (table w))%nat /\ (col < 7)%nat
  | header_sectionClicked logicalIndex => (logicalIndex < 7)%nat
  | browse_btn_clicked _ | select_toggle_btn_clicked | search_box_textChanged _
  | timer_timeout => True
  end.

(** The events whose handler works on the table in memory only and runs
    straight through: the Select All, Up and Down buttons, typing in the
    search box, a click on a cell, and a click on a header (for the Bookmark
    header the sort computes the keys, so the bookmarks are to be plain).
    The others can fail for reasons outside the window: a rescan (by the
    timer or after choosing a folder) reads the folder, and a double click
    waits for its dialog while the timer goes on rescanning. *)
Definition in_memory (w : TLFWindow) (e : event) : Prop :=
  match e with
  | browse_btn_clicked _ | timer_timeout | table_cellDoubleClicked _ _ _ _ => False
  | header_sectionClicked logicalIndex =>
      logicalIndex = 6%nat ->
      forallb (fun r => plain (bookmark_of r)) (table_data (app_state w)) = true
  | select_toggle_btn_clicked | up_btn_clicked _ | down_btn_clicked _
  | search_box_textChanged _ | table_cellClicked _ _ => True
  end.

(** The rows that the search text selects; none when it is blank. *)
Definition hits (w : TLFWindow) : list row :=
  let search := lower (strip (search_box w)) in
  if truthy search then filter (row_has search) (table_data (app_state w)) else [].

(** [a] sorts strictly before [b] by the column [col]. *)
Definition column_ltb (col : nat) (a b : row) : bool :=
  if (col =? 0)%nat then bool_ltb (include a) (include b)
  else if (col =? 6)%nat then
    match parse_sort_key (bookmark_of a), parse_sort_key (bookmark_of b) with
    | Some ka, Some kb => key_ltb ka kb
    | _, _ => false
    end
  else
    match text_column col a, text_column col b with
    | Some x, Some y => str_ltb (lower x) (lower y)
    | _, _ => false
    end.

(** The column [col] does not tell [a] and [b] apart. *)
Definition column_tie (col : nat) (a b : row) : bool :=
  negb (column_ltb col a b) && negb (column_ltb col b a).

(** The table is in the order of the column [col], ascending or
    descending. *)
Definition in_column_order (col : nat) (o : SortOrder) (rows : list row) : Prop :=
  forall i j ri rj,
    (i < j)%nat -> nth_error rows i = Some ri -> nth_error rows j = Some rj ->
    match o with
    | AscendingOrder => column_ltb col rj ri = false
    | DescendingOrder => column_ltb col ri rj = false
    end.

(** A window for the examples: two rows, nothing typed in the search box. *)
Definition sample_window : TLFWindow :=
  {| app_state := sample_unsorted_app;
     filtered_indices := [0; 1]%nat;
     select_all_state := true;
     current_sort_column := None;
     sort_order := AscendingOrder;
     search_box := [];
     table := map disp_row (table_data sample_unsorted_app);
     buttons := {| browse_enabled := true; others_enabled := true;
                   convert_enabled := true; pack_enabled := true |};
     selected_counts := (1, 0, 1)%nat |}.

(** The same window with "LISTING " typed in the search box. *)
Definition sample_search_window : TLFWindow :=
  {| app_state := sample_unsorted_app;
     filtered_indices := [0; 1]%nat;
     select_all_state := true;
     current_sort_column := None;
     sort_order := AscendingOrder;
     search_box := py "LISTING ";
     table := map disp_row (table_data sample_unsorted_app);
     buttons := {| browse_enabled := true; others_enabled := true;
                   convert_enabled := true; pack_enabled := true |};
     selected_counts := (1, 0, 1)%nat |}.

(** The fields that [refresh_table] leaves alone. *)
Definition same_model (w w' : TLFWindow) : Prop :=
  app_state w' = app_state w
  /\ filtered_indices w' = filtered_indices w
  /\ select_all_state w' = select_all_state w
  /\ current_sort_column w' = current_sort_column w
  /\ sort_order w' = sort_order w
  /\ search_box w' = search_box w.


(* ------------------------------------------------------------------ *)
(** *** Output names *)


(* ------------------------------------------------------------------ *)
(** *** Titles and bookmark of a row *)

(** The text holds a character that is not white space. *)
Definition visible (x : str) : bool := existsb (fun c => negb (isspace c)) x.

(** No white space at either end. *)
Definition trimmed (x : str) : Prop := strip x = x.

(** What an extractor returns: no title at all and the file name as
    bookmark, or a first title that can be seen and the titles joined as
    bookmark; no title begins or ends with white space. *)
Definition well_titled (file_name : str) (t : titles) : Prop :=
  let '(title1, title2, title3, bookmark) := t in
  ((title1 = [] /\ title2 = [] /\ title3 = [] /\ bookmark = file_name)
   \/ (visible title1 = true /\ bookmark = compose_bookmark title1 title2 title3))
  /\ trimmed title1 /\ trimmed title2 /\ trimmed title3.

(** The titles while an extractor looks for them: none of them yet, or a
    first title that can be seen; all of them without white space at either
    end. *)
Definition titles_so_far (t : str * str * str) : Prop :=
  let '(title1, title2, title3) := t in
  ((title1 = [] /\ title2 = [] /\ title3 = []) \/ visible title1 = true)
  /\ trimmed title1 /\ trimmed title2 /\ trimmed title3.

(* ================================================================== *)
(** ** Properties: the matcher *)
(* ================================================================== *)

Section RunSound.

Variable f : flags.

Lemma step_sound (p : char -> bool) st k res :
  step p st k = Some res ->
  exists c t, rest st = c :: t /\ p c = true /\ k (advance c t st) = Some res.
Proof.
  unfold step. destruct (rest st) as [|c t]; [discriminate|].
  destruct (p c) eqn:Hp; [|discriminate]. eauto.
Qed.

(** Soundness of the matcher: a result comes from the continuation, called on
    a state that the pattern leads to. *)
Lemma run_sound (r : re) :
  forall st k res,
    run f r st k = Some res ->
    exists mid st', matches f r st mid st' /\ k st' = Some res.
Proof.
  induction r as [| p | | neg items | r1 IH1 r2 IH2 | r1 IH1 r2 IH2
                 | g r1 IH1 | n r1 IH1 | | | ]; intros st k res H; cbn [run] in H.
  - exists [], st. split; [constructor | exact H].
  - apply step_sound in H. destruct H as (c & t & Hr & Hp & Hk).
    exists [c], (advance c t st). split; [now constructor | exact Hk].
  - apply step_sound in H. destruct H as (c & t & Hr & Hp & Hk).
    exists [c], (advance c t st). split; [now constructor | exact Hk].
  - apply step_sound in H. destruct H as (c & t & Hr & Hp & Hk).
    exists [c], (advance c t st). split; [now constructor | exact Hk].
  - apply IH1 in H. destruct H as (mid1 & st1 & Hm1 & H).
    apply IH2 in H. destruct H as (mid2 & st2 & Hm2 & H).
    exists (mid1 ++ mid2), st2. split; [econstructor; eassumption | exact H].
  - destruct (run f r1 st k) as [res1|] eqn:H1.
    + inversion H; subst. apply IH1 in H1. destruct H1 as (mid & st' & Hm & Hk).
      exists mid, st'. split; [now apply M_alt_l | exact Hk].
    + apply IH2 in H. destruct H as (mid & st' & Hm & Hk).
      exists mid, st'. split; [now apply M_alt_r | exact Hk].
  - revert H. generalize (List.length (rest st)) as fuel. intro fuel. revert st.
    induction fuel as [|fuel IHf]; intros st H; cbn [star_loop] in H.
    + exists [], st. split; [constructor | exact H].
    + assert (Hagain : forall res',
                run f r1 st (fun st1 => if (pos st <? pos st1)%nat
                                        then star_loop g (run f r1) k fuel st1
                                        else None) = Some res' ->
                res' = res ->
                exists mid st', matches f (Star g r1) st mid st' /\ k st' = Some res).
      { intros res' Hr ->. apply IH1 in Hr. destruct Hr as (mid1 & st1 & Hm1 & Hr).
        destruct (pos st <? pos st1)%nat eqn:Hlt; [|discriminate].
        apply Nat.ltb_lt in Hlt. apply IHf in Hr.
        destruct Hr as (mid2 & st2 & Hm2 & Hk).
        exists (mid1 ++ mid2), st2. split; [econstructor; eassumption | exact Hk]. }
      cbv zeta in H. destruct g.
      * match type of H with
        | match ?a with _ => _ end = _ => destruct a as [res1|] eqn:Ha
        end.
        -- inversion H; subst. now apply (Hagain res).
        -- exists [], st. split; [constructor | exact H].
      * destruct (k st) as [res1|] eqn:Hk.
        -- inversion H; subst. exists [], st. split; [constructor | exact Hk].
        -- now apply (Hagain res).
  - apply IH1 in H. destruct H as (mid & st' & Hm & Hk).
    exists mid, (set_cap n (pos st) st'). split; [now constructor | exact Hk].
  - destruct (prev st) eqn:Hp; [discriminate|].
    exists [], st. split; [now constructor | exact H].
  - destruct (rest st) as [|c [|c' t]] eqn:Hr.
    + exists [], st. split; [constructor; now left | exact H].
    + destruct (N.eqb c 10) eqn:Hc; [|discriminate]. apply N.eqb_eq in Hc. subst c.
      exists [], st. split; [constructor; now right | exact H].
    + discriminate.
  - destruct (at_word_boundary st) eqn:Hb; [|discriminate].
    exists [], st. split; [now constructor | exact H].
Qed.

(** A match reads a piece of the text ahead and counts its characters. *)
Lemma matches_reads r st mid st' :
  matches f r st mid st' ->
  rest st = mid ++ rest st' /\ pos st' = (pos st + List.length mid)%nat.
Proof.
  induction 1; cbn [rest pos advance set_cap List.length List.app];
    repeat match goal with IH : _ /\ _ |- _ => destruct IH end;
    (split; [ first [ reflexivity | assumption
                    | rewrite <- app_assoc; congruence ]
            | rewrite ?length_app; lia ]).
Qed.

End RunSound.

Section SearchSound.

Variable f : flags.

Lemma slice_middle (pre mid post : str) :
  slice (List.length pre) (List.length pre + List.length mid) (pre ++ mid ++ post) = mid.
Proof.
  unfold slice. rewrite skipn_app, skipn_all, Nat.sub_diag. simpl.
  replace (List.length pre + List.length mid - List.length pre)%nat
    with (List.length mid) by lia.
  rewrite firstn_app, Nat.sub_diag, firstn_all. simpl. now rewrite app_nil_r.
Qed.

Lemma matches_at_text text r st mid st' :
  at_text text st -> matches f r st mid st' ->
  at_text text st' /\ slice (pos st) (pos st') text = mid.
Proof.
  intros (before & Ht & Hp) Hm.
  destruct (matches_reads Hm) as [Hr Hp'].
  split.
  - exists (before ++ mid). rewrite Ht, Hr, length_app, <- app_assoc. split; [reflexivity | lia].
  - rewrite Hp', Hp, Ht, Hr. apply slice_middle.
Qed.

Lemma match_at_sound r p pv t m :
  match_at f r p pv t = Some m ->
  exists mid st',
    matches f r (start_state p pv t) mid st'
    /\ m_start m = p /\ m_end m = pos st' /\ m_caps m = caps st'.
Proof.
  unfold match_at. destruct (run f r (start_state p pv t) Some) as [st|] eqn:Hrun;
    [|discriminate].
  intro H. inversion H; subst; clear H.
  apply run_sound in Hrun. destruct Hrun as (mid & st' & Hm & Hk).
  inversion Hk; subst. exists mid, st. auto.
Qed.

Lemma search_from_sound r t :
  forall p pv m,
    search_from f r p pv t = Some m ->
    exists skipped pv' t' mid st',
      t = skipped ++ t'
      /\ matches f r (start_state (p + List.length skipped) pv' t') mid st'
      /\ m_start m = (p + List.length skipped)%nat
      /\ m_end m = pos st' /\ m_caps m = caps st'.
Proof.
  induction t as [|c t IH]; intros p pv m H; cbn [search_from] in H.
  - destruct (match_at f r p pv []) as [m'|] eqn:Hm; [|discriminate].
    inversion H; subst. apply match_at_sound in Hm.
    destruct Hm as (mid & st' & Hm & Hs & He & Hc).
    exists [], pv, [], mid, st'. cbn [List.length]. rewrite Nat.add_0_r. auto.
  - destruct (match_at f r p pv (c :: t)) as [m'|] eqn:Hm.
    + inversion H; subst. apply match_at_sound in Hm.
      destruct Hm as (mid & st' & Hm & Hs & He & Hc).
      exists [], pv, (c :: t), mid, st'. cbn [List.length]. rewrite Nat.add_0_r. auto.
    + apply IH in H. destruct H as (sk & pv' & t' & mid & st' & Ht & Hm' & Hs & He & Hc).
      exists (c :: sk), pv', t', mid, st'. cbn [List.length].
      replace (p + S (List.length sk))%nat with (S p + List.length sk)%nat by lia.
      subst t. auto.
Qed.

(** A match found by [re.search] is a run of the pattern from some offset of
    the text, and the match object records where it lies. *)
Lemma search_sound r text m :
  search f r text = Some m ->
  exists pre pv t mid st',
    text = pre ++ t
    /\ matches f r (start_state (List.length pre) pv t) mid st'
    /\ m_start m = List.length pre
    /\ m_end m = pos st'
    /\ m_caps m = caps st'.
Proof.
  unfold search. intro H. apply search_from_sound in H.
  destruct H as (sk & pv' & t' & mid & st' & Ht & Hm & Hs & He & Hc).
  cbn [Nat.add] in *.
  exists sk, pv', t', mid, st'. repeat split; auto.
Qed.

Lemma search_group0 r text m :
  search f r text = Some m ->
  exists pre tok post,
    text = pre ++ tok ++ post
    /\ m_start m = List.length pre
    /\ m_end m = (List.length pre + List.length tok)%nat
    /\ group0 text m = tok.
Proof.
  intro H. apply search_sound in H.
  destruct H as (pre & pv & t & mid & st' & Ht & Hm & Hs & He & _).
  destruct (matches_reads Hm) as [Hr Hp]. cbn [rest pos start_state] in Hr, Hp.
  exists pre, mid, (rest st'). rewrite Ht, Hr. repeat split; try congruence.
  unfold group0. rewrite Hs, He, Hp. apply slice_middle.
Qed.

End SearchSound.

Lemma matches_star_pieces (f : flags) (g : bool) (r : re) (P : str -> Prop) :
  (forall st mid st', matches f r st mid st' -> P mid) ->
  forall st mid st',
    matches f (Star g r) st mid st' ->
    exists pieces, mid = List.concat pieces /\ Forall P pieces.
Proof.
  intros HP st mid st' H. remember (Star g r) as sr eqn:E.
  induction H; try discriminate.
  - exists []. split; [reflexivity | constructor].
  - inversion E; subst. destruct (IHmatches2 eq_refl) as (pieces & Hc & Hf).
    exists (mid1 :: pieces). split; [simpl; congruence | constructor; eauto].
Qed.

Lemma matches_digit st mid st' :
  matches no_flags d st mid st' -> exists c, mid = [c] /\ isdigit c = true.
Proof.
  unfold d. intro H. inversion H; subst.
  exists c. split; [reflexivity|].
  match goal with Hx : xorb _ _ = true |- _ => revert Hx end.
  unfold class_has. cbn. now rewrite !orb_false_r.
Qed.

Lemma concat_single_digits (pieces : list str) :
  Forall (fun x => exists c, x = [c] /\ isdigit c = true) pieces ->
  forallb isdigit (List.concat pieces) = true.
Proof.
  induction 1 as [|x pieces (c & -> & Hc) _ IH]; [reflexivity|].
  simpl. now rewrite Hc.
Qed.

Lemma matches_digits st mid st' :
  matches no_flags (Plus d) st mid st' -> digit_run mid.
Proof.
  unfold Plus. intro H. inversion H; subst.
  match goal with H1 : matches _ d _ _ _ |- _ =>
    apply matches_digit in H1; destruct H1 as (c & -> & Hc) end.
  match goal with H2 : matches _ (Star _ _) _ _ _ |- _ =>
    apply (@matches_star_pieces no_flags true d
             (fun x => exists c, x = [c] /\ isdigit c = true)) in H2;
      [destruct H2 as (pieces & -> & Hf) | intros; eapply matches_digit; eauto] end.
  split; [discriminate|]. simpl. rewrite Hc. simpl.
  now apply concat_single_digits.
Qed.

Lemma digits_value_some (x : str) :
  forallb isdigit x = true ->
  forall acc, (0 <= acc)%Z -> exists n, digits_value acc x = Some n /\ (0 <= n)%Z.
Proof.
  induction x as [|c x IH]; intros Hd acc Ha; cbn [digits_value].
  - eauto.
  - simpl in Hd. apply andb_prop in Hd. destruct Hd as [Hc Hx]. rewrite Hc.
    apply IH; [exact Hx | pose proof (N2Z.is_nonneg (c - 48)); lia].
Qed.

Lemma py_int_digit_run (x : str) :
  digit_run x -> exists n, py_int x = Some n /\ (0 <= n)%Z.
Proof.
  intros [Hne Hd]. unfold py_int. destruct x; [congruence|].
  apply digits_value_some; [exact Hd | lia].
Qed.

Lemma digits_value_nonneg (x : str) :
  forall acc n, (0 <= acc)%Z -> digits_value acc x = Some n -> (0 <= n)%Z.
Proof.
  induction x as [|c x IH]; intros acc n Ha H; cbn [digits_value] in H.
  - inversion H; subst; exact Ha.
  - destruct (isdigit c); [|discriminate]. eapply IH; [|exact H].
    pose proof (N2Z.is_nonneg (c - 48)); lia.
Qed.

Lemma py_int_nonneg (x : str) n : py_int x = Some n -> (0 <= n)%Z.
Proof.
  unfold py_int. destruct x; [discriminate|]. apply digits_value_nonneg. lia.
Qed.

Lemma ints_digit_runs (parts : list str) :
  Forall digit_run parts -> exists ns, ints parts = Some ns.
Proof.
  induction 1 as [|x parts Hx _ (ns & IH)]; simpl; [eauto|].
  destruct (py_int_digit_run Hx) as (n & -> & _). rewrite IH. eauto.
Qed.

Lemma ints_nonneg (parts : list str) :
  forall ns, ints parts = Some ns ->
             Forall (fun n => (0 <= n)%Z) ns /\ List.length ns = List.length parts.
Proof.
  induction parts as [|x parts IH]; intros ns H; simpl in H.
  - inversion H; subst. split; [constructor | reflexivity].
  - destruct (py_int x) as [n|] eqn:Hn; [|discriminate].
    destruct (ints parts) as [ns'|]; [|discriminate].
    inversion H; subst. destruct (IH ns' eq_refl) as [Hf Hl].
    split; [constructor; [eapply py_int_nonneg; eauto | exact Hf] | simpl; congruence].
Qed.

Lemma isdigit_not_dot c : isdigit c = true -> char_eqb (ch ".") c = false.
Proof.
  unfold isdigit, in_range, char_eqb. intro H. apply andb_prop in H. destruct H as [H1 H2].
  apply N.leb_le in H1. apply N.eqb_neq. cbn. lia.
Qed.

Lemma split_digits_then (ds : str) (tail : str) :
  forallb isdigit ds = true ->
  forall cur,
    split_at (char_eqb (ch ".")) cur (ds ++ tail)
    = split_at (char_eqb (ch ".")) (rev ds ++ cur) tail.
Proof.
  induction ds as [|c ds IH]; intros Hd cur; [reflexivity|].
  simpl in Hd. apply andb_prop in Hd. destruct Hd as [Hc Hds].
  cbn [List.app split_at]. rewrite (isdigit_not_dot _ Hc), IH by exact Hds.
  cbn [rev]. now rewrite <- app_assoc.
Qed.

Lemma split_dotted (pieces : list str) :
  Forall dot_digits pieces ->
  forall cur, digit_run (rev cur) ->
    Forall digit_run (split_at (char_eqb (ch ".")) cur (List.concat pieces)).
Proof.
  induction 1 as [|x pieces (ds & -> & Hne & Hd) _ IH]; intros cur Hcur.
  - simpl. constructor; [exact Hcur | constructor].
  - cbn [List.concat List.app split_at].
    replace (char_eqb (ch ".") (ch ".")) with true by reflexivity.
    constructor; [exact Hcur|].
    rewrite split_digits_then by exact Hd. apply IH.
    rewrite app_nil_r, rev_involutive. split; assumption.
Qed.

Lemma split_dotted_number (ds : str) (pieces : list str) :
  digit_run ds -> Forall dot_digits pieces ->
  Forall digit_run (split_char (ch ".") (ds ++ List.concat pieces)).
Proof.
  intros [Hne Hd] Hp. unfold split_char. rewrite split_digits_then by exact Hd.
  apply split_dotted; [exact Hp|]. rewrite app_nil_r, rev_involutive. split; assumption.
Qed.

Ltac invert_match H := inversion H; subst; clear H.

Lemma start_state_at_text (pre : str) pv (t : str) :
  at_text (pre ++ t) (start_state (List.length pre) pv t).
Proof. exists pre. split; reflexivity. Qed.

(** Group 1 of a match of "appendix\s*(\d+)" is a run of digits. *)
Lemma appendix_number_group (text : str) (m : mtch) :
  Re.search no_flags appendix_number_pattern text = Some m ->
  exists g, Re.group text m 1 = Some g /\ digit_run g.
Proof.
  intro H. apply search_sound in H.
  destruct H as (pre & pv & t & mid & st' & Ht & Hm & _ & _ & Hc).
  pose proof (start_state_at_text pre pv t) as Hat.
  rewrite <- Ht in Hat. clear Ht.
  cbv [appendix_number_pattern cat] in Hm.
  invert_match Hm.
  match goal with H : matches _ (Seq _ _) _ _ _ |- _ => invert_match H end.
  match goal with H : matches _ (Grp _ _) _ _ _ |- _ => invert_match H end.
  repeat match goal with
         | H : matches _ (lit _) _ _ _ |- _ =>
             apply (matches_at_text Hat) in H; destruct H as [Hat1 _]
         | H : matches _ (Star _ _) _ _ _ |- _ =>
             apply (matches_at_text Hat1) in H; destruct H as [Hat2 _]
         end.
  match goal with H : matches _ (Plus d) ?a ?g ?b |- _ =>
    exists g; split; [| exact (matches_digits H)];
    destruct (matches_at_text Hat2 H) as [_ Hs] end.
  unfold Re.group. rewrite Hc. cbn [caps set_cap lookup_cap Nat.eqb]. now rewrite Hs.
Qed.

Lemma matches_dot_digits st mid st' :
  matches no_flags (Grp 2 (Seq (Lit (ch ".")) (Plus d))) st mid st' -> dot_digits mid.
Proof.
  intro H. invert_match H.
  match goal with H : matches _ (Seq _ _) _ _ _ |- _ => invert_match H end.
  match goal with H : matches _ (Lit _) _ _ _ |- _ => invert_match H end.
  match goal with H : lit_matches _ _ _ = true |- _ =>
    unfold lit_matches, char_eqb in H; cbn [ignorecase no_flags] in H;
    apply N.eqb_eq in H; subst end.
  match goal with H : matches _ (Plus d) _ ?ds _ |- _ =>
    exists ds; split; [reflexivity | exact (matches_digits H)] end.
Qed.

(** Group 1 of a match of the dotted number pattern splits at "." into runs
    of digits. *)
Lemma dotted_number_group (text : str) (m : mtch) :
  Re.search no_flags dotted_number_pattern text = Some m ->
  exists g, Re.group text m 1 = Some g
            /\ Forall digit_run (split_char (ch ".") g).
Proof.
  intro H. apply search_sound in H.
  destruct H as (pre & pv & t & mid & st' & Ht & Hm & _ & _ & Hc).
  pose proof (start_state_at_text pre pv t) as Hat.
  rewrite <- Ht in Hat. clear Ht.
  cbv [dotted_number_pattern] in Hm.
  invert_match Hm.
  match goal with H : matches _ (Seq _ _) _ _ _ |- _ =>
    destruct (matches_at_text Hat H) as [_ Hs]; invert_match H end.
  match goal with H : matches _ (Star _ _) _ _ _ |- _ =>
    apply (@matches_star_pieces no_flags true _ dot_digits) in H;
      [destruct H as (pieces & -> & Hp) | intros; eapply matches_dot_digits; eauto] end.
  match goal with H : matches _ (Plus d) _ ?ds _ |- _ =>
    exists (ds ++ List.concat pieces); split;
      [| exact (split_dotted_number (matches_digits H) Hp)] end.
  unfold Re.group. rewrite Hc. cbn [caps set_cap lookup_cap Nat.eqb pos].
  match goal with Hx : _ = slice _ _ _ |- _ => now rewrite <- Hx end.
Qed.

Lemma first_category_total (text : str) (keys : list (str * Z)) :
  exists k, first_category text keys = Some k.
Proof.
  induction keys as [|[key rank] keys IH]; cbn [first_category]; [eauto|].
  destruct (contains key text); [|exact IH].
  destruct (Re.search no_flags dotted_number_pattern text) as [m|] eqn:Hs; [|eauto].
  destruct (dotted_number_group _ Hs) as (g & -> & Hg).
  destruct (ints_digit_runs Hg) as (ns & ->). eauto.
Qed.

(** [parse_sort_key] never raises. *)
Lemma parse_sort_key_total (bookmark : str) :
  exists k, parse_sort_key bookmark = Some k.
Proof.
  unfold parse_sort_key. cbv zeta.
  destruct (contains _ _); [|apply first_category_total].
  destruct (Re.search no_flags appendix_number_pattern _) as [m|] eqn:Hs; [|eauto].
  destruct (appendix_number_group _ Hs) as (g & -> & Hg).
  destruct (py_int_digit_run Hg) as (n & -> & _). eauto.
Qed.

Lemma split_at_not_nil sep cur x : split_at sep cur x <> [].
Proof.
  revert cur. induction x as [|c x IH]; intro cur; cbn [split_at]; [discriminate|].
  destruct (sep c); [discriminate | apply IH].
Qed.

Lemma first_category_path (text : str) (keys : list (str * Z)) r p :
  first_category text keys = Some (r, p) ->
  p <> [] /\ Forall (fun n => (0 <= n)%Z) p.
Proof.
  induction keys as [|[key rank] keys IH]; cbn [first_category]; intro H.
  - inversion H; subst. split; [discriminate | repeat constructor; lia].
  - destruct (contains key text); [|exact (IH H)].
    destruct (Re.search no_flags dotted_number_pattern text) as [m|].
    + destruct (Re.group text m 1) as [g|]; [|discriminate].
      destruct (ints _) as [ns|] eqn:Hi; [|discriminate].
      inversion H; subst. apply ints_nonneg in Hi. destruct Hi as [Hf Hl].
      split; [|exact Hf]. intros ->.
      simpl in Hl. symmetry in Hl. apply length_zero_iff_nil in Hl.
      exact (split_at_not_nil _ _ _ Hl).
    + inversion H; subst. split; [discriminate | repeat constructor; lia].
Qed.

(** The numeric path of a key is a non-empty list of natural numbers. *)
Lemma parse_sort_key_path (bookmark : str) r p :
  parse_sort_key bookmark = Some (r, p) ->
  p <> [] /\ Forall (fun n => (0 <= n)%Z) p.
Proof.
  unfold parse_sort_key. cbv zeta.
  destruct (contains _ _); [|apply first_category_path].
  destruct (Re.search no_flags appendix_number_pattern _) as [m|].
  - destruct (Re.group _ m 1) as [g|]; [|discriminate].
    destruct (py_int g) as [n|] eqn:Hn; [|discriminate].
    intro H; inversion H; subst. apply py_int_nonneg in Hn.
    split; [discriminate | repeat constructor; exact Hn].
  - intro H; inversion H; subst. split; [discriminate | repeat constructor; lia].
Qed.

(* ================================================================== *)
(** ** Properties: pagination and the rendered TOC *)
(* ================================================================== *)

Section TocFacts.

Variable get_text_length : str -> Q -> Q.

Lemma paginate_fold_concat (fs w : Q) (lpp : Z) (entries : list toc_entry) :
  forall done cur n done' cur' n',
    fold_left (paginate_step get_text_length fs w lpp) entries (done, cur, n)
      = (done', cur', n') ->
    List.concat done' ++ cur'
      = List.concat done ++ cur ++ map (with_wrapped_lines get_text_length fs w) entries.
Proof.
  induction entries as [|e entries IH]; intros done cur n done' cur' n' H.
  - simpl in H. inversion H; subst. simpl. now rewrite app_nil_r.
  - cbn [fold_left] in H. unfold paginate_step at 2 in H.
    destruct (n + Z.of_nat (List.length (wrapped_lines_of get_text_length fs w e))
              >? lpp)%Z.
    + apply IH in H. rewrite H. rewrite concat_app. simpl.
      unfold with_wrapped_lines at 2. now rewrite !app_nil_r, <- !app_assoc.
    + apply IH in H. rewrite H. simpl.
      unfold with_wrapped_lines at 2. now rewrite <- !app_assoc.
Qed.

Lemma paginate_some (entries : list toc_entry) (fs w h : Q) :
  Qeq_bool (fs * (3 # 2)) 0 = false ->
  exists paginated, paginate_wrapped_entries get_text_length entries fs w h = Some paginated.
Proof.
  intro Hfs. unfold paginate_wrapped_entries, floordiv. rewrite Hfs.
  destruct (fold_left _ entries _) as [[done cur] n]. eauto.
Qed.

Lemma paginate_concat (entries : list toc_entry) (fs w h : Q) paginated :
  paginate_wrapped_entries get_text_length entries fs w h = Some paginated ->
  List.concat paginated = map (with_wrapped_lines get_text_length fs w) entries.
Proof.
  unfold paginate_wrapped_entries. destruct (floordiv _ _) as [q|]; [|discriminate].
  destruct (fold_left _ entries _) as [[done cur] n] eqn:Hfold.
  apply paginate_fold_concat in Hfold. simpl in Hfold.
  intro H. inversion H; subst; clear H.
  destruct cur.
  - now rewrite app_nil_r in Hfold.
  - now rewrite concat_app; simpl; rewrite app_nil_r.
Qed.

(** C2. Pagination never splits an entry: whatever the entries and the page
    geometry (with a line spacing that is not zero, without which the source
    raises), the pages, read one after the other, are exactly the entries in
    order, each paired once with all of its wrapped lines. *)
Theorem paginate_keeps_entries_whole (entries : list toc_entry) (fs w h : Q) :
  Qeq_bool (fs * (3 # 2)) 0 = false ->
  exists paginated,
    paginate_wrapped_entries get_text_length entries fs w h = Some paginated
    /\ List.concat paginated = map (with_wrapped_lines get_text_length fs w) entries.
Proof.
  intro Hfs. destruct (@paginate_some entries fs w h Hfs) as [p Hp].
  exists p. split; [exact Hp | exact (@paginate_concat _ _ _ _ _ Hp)].
Qed.

End TocFacts.

Lemma paginate_keeps_entries_whole_witness :
  let entries := extract_toc_entries (toc sample_pdf) in
  Qeq_bool (8 * (3 # 2)) 0 = false
  /\ exists paginated,
       paginate_wrapped_entries half_em entries 8 40 136 = Some paginated
       /\ List.concat paginated = map (with_wrapped_lines half_em 8 40) entries.
Proof.
  split; [reflexivity|].
  apply paginate_keeps_entries_whole. reflexivity.
Defined.


Ltac pn_simpl :=
  cbv [page_numbers_on]; cbn [filter is_page_number drawn_as map text_of app].

Section TocRender.

Variable get_text_length : str -> Q -> Q.
Variables font_size page_width pnx gap : Q.
Variable toc_page_count : Z.
Hypothesis dot_width : Qeq_bool (get_text_length (py ".") font_size) 0 = false.

Lemma page_numbers_on_app ops ops' :
  page_numbers_on (ops ++ ops') = page_numbers_on ops ++ page_numbers_on ops'.
Proof. unfold page_numbers_on. now rewrite filter_app, map_app. Qed.

Lemma draw_line_last (x : Q) (pns : str) (count i : nat) (line : str) ops y :
  i = (count - 1)%nat -> (0 < count)%nat ->
  exists ops',
    draw_line get_text_length font_size pnx gap x pns count (Some (ops, y)) (i, line)
      = Some (ops', (y + font_size * (3 # 2))%Q)
    /\ page_numbers_on ops' = page_numbers_on ops ++ [pns].
Proof.
  intros Hi Hc. unfold draw_line.
  destruct (Z.eqb_spec (Z.of_nat i) (Z.of_nat count - 1)) as [_|Hne]; [|lia].
  destruct (Qle_bool _ _).
  - eexists. split; [reflexivity|].
    rewrite !page_numbers_on_app. pn_simpl. now rewrite ?app_nil_r, <- ?app_assoc.
  - unfold floordiv. rewrite dot_width.
    eexists. split; [reflexivity|].
    rewrite !page_numbers_on_app. pn_simpl. now rewrite ?app_nil_r, <- ?app_assoc.
Qed.

Lemma draw_line_inner (x : Q) (pns : str) (count i : nat) (line : str) ops y :
  i <> (count - 1)%nat -> (0 < count)%nat ->
  draw_line get_text_length font_size pnx gap x pns count (Some (ops, y)) (i, line)
    = Some (ops ++ [{| drawn_as := TitleLine; at_x := x; at_y := y;
                       text_of := line; fontsize_of := font_size |}],
            (y + font_size * (3 # 2))%Q).
Proof.
  intros Hi Hc. unfold draw_line.
  destruct (Z.eqb_spec (Z.of_nat i) (Z.of_nat count - 1)) as [He|_]; [lia|].
  reflexivity.
Qed.

Lemma draw_lines_spec (x : Q) (pns : str) (lines : list str) :
  forall k ops y,
  exists ops' y',
    fold_left (draw_line get_text_length font_size pnx gap x pns (k + List.length lines))
              (combine (seq k (List.length lines)) lines) (Some (ops, y))
      = Some (ops', y')
    /\ page_numbers_on ops'
       = page_numbers_on ops ++ match lines with [] => [] | _ => [pns] end.
Proof.
  induction lines as [|line lines IH]; intros k ops y.
  - exists ops, y. simpl. now rewrite app_nil_r.
  - cbn [List.length seq combine fold_left].
    destruct lines as [|line' lines].
    + destruct (@draw_line_last x pns (k + 1) k line ops y) as (ops' & Hd & Hp); [lia|lia|].
      cbn [List.length]. rewrite Hd. exists ops', (y + font_size * (3 # 2))%Q.
      split; [reflexivity | exact Hp].
    + rewrite draw_line_inner by (cbn [List.length]; lia).
      replace (k + S (List.length (line' :: lines)))%nat
        with (S k + List.length (line' :: lines))%nat by lia.
      destruct (IH (S k) (ops ++ [{| drawn_as := TitleLine; at_x := x; at_y := y;
                                     text_of := line; fontsize_of := font_size |}])
                   (y + font_size * (3 # 2))%Q) as (ops' & y' & Hf & Hp).
      exists ops', y'. split; [exact Hf|].
      rewrite Hp, page_numbers_on_app. pn_simpl. now rewrite ?app_nil_r, <- ?app_assoc.
Qed.

Lemma draw_entries_spec (page_index : nat) (items : list (toc_entry * list str)) :
  forall ops y lts,
  exists ops' y' lts',
    fold_left (draw_entry get_text_length font_size pnx gap toc_page_count page_index)
              items (Some (ops, y, lts)) = Some (ops', y', lts')
    /\ page_numbers_on ops'
       = page_numbers_on ops ++ map (page_number_str_of toc_page_count) (filter has_lines items)
    /\ map snd lts' = map snd lts ++ map (fun it => target_page_of (fst it)) items
    /\ map (fun l => fst (fst l)) lts'
       = map (fun l => fst (fst l)) lts ++ map (fun _ => page_index) items.
Proof.
  induction items as [|[[[level title] target] lines] items IH]; intros ops y lts.
  - exists ops, y, lts. simpl. now rewrite !app_nil_r.
  - cbn [fold_left]. unfold draw_entry at 2. cbv beta iota zeta.
    destruct (draw_lines_spec (50 + inject_Z (20 * (level - 1)))%Q
                (py_str_int (target + toc_page_count + 1)) lines 0 ops y)
      as (ops1 & y1 & Hf & Hp).
    unfold enumerate. cbn [Nat.add] in Hf. rewrite Hf.
    match goal with |- context [fold_left _ items (Some (?o, ?yy, ?l))] =>
      destruct (IH o yy l) as (ops' & y' & lts' & Hf' & Hp' & Ht' & Hi') end.
    exists ops', y', lts'. split; [exact Hf'|].
    rewrite Hp', Hp, Ht', Hi', !map_app. simpl.
    unfold has_lines at 1. simpl.
    repeat split.
    + destruct lines; simpl; now rewrite <- ?app_assoc.
    + now rewrite <- app_assoc.
    + now rewrite <- app_assoc.
Qed.

Lemma draw_pages_spec (paginated : list (list (toc_entry * list str))) :
  forall k pages0 lts,
  exists pages' lts',
    fold_left (draw_page get_text_length font_size page_width pnx gap toc_page_count)
              (combine (seq k (List.length paginated)) paginated) (Some (pages0, lts))
      = Some (pages', lts')
    /\ List.length pages' = (List.length pages0 + List.length paginated)%nat
    /\ flat_map page_numbers_on pages'
       = flat_map page_numbers_on pages0
         ++ map (page_number_str_of toc_page_count) (filter has_lines (List.concat paginated))
    /\ map snd lts' = map snd lts
         ++ map (fun it => target_page_of (fst it)) (List.concat paginated).
Proof.
  induction paginated as [|entries paginated IH]; intros k pages0 lts.
  - exists pages0, lts. simpl. rewrite !app_nil_r. repeat split. lia.
  - cbn [List.length seq combine fold_left]. unfold draw_page at 2.
    destruct (k =? 0)%nat.
    + match goal with |- context [fold_left _ entries (Some (?o, ?yy, ?l))] =>
        destruct (draw_entries_spec k entries o yy l)
          as (ops' & y' & lts1 & Hf & Hp & Ht & _) end.
      rewrite Hf.
      destruct (IH (S k) (pages0 ++ [ops']) lts1) as (pages' & lts' & Hf' & Hl & Hp' & Ht').
      exists pages', lts'. split; [exact Hf'|].
      rewrite Hl, Hp', Ht', Ht, length_app, concat_cons, filter_app, !map_app.
      rewrite flat_map_app. simpl. rewrite Hp. simpl.
      rewrite !app_nil_r, <- !app_assoc. repeat split. lia.
    + match goal with |- context [fold_left _ entries (Some (?o, ?yy, ?l))] =>
        destruct (draw_entries_spec k entries o yy l)
          as (ops' & y' & lts1 & Hf & Hp & Ht & _) end.
      rewrite Hf.
      destruct (IH (S k) (pages0 ++ [ops']) lts1) as (pages' & lts' & Hf' & Hl & Hp' & Ht').
      exists pages', lts'. split; [exact Hf'|].
      rewrite Hl, Hp', Ht', Ht, length_app, concat_cons, filter_app, !map_app.
      rewrite flat_map_app. simpl. rewrite Hp. simpl.
      rewrite !app_nil_r, <- !app_assoc. repeat split. lia.
Qed.

End TocRender.

Section TocAssembly.

Variable get_text_length : str -> Q -> Q.

Lemma firstn_length_app (A : Type) (l l' : list A) :
  firstn (List.length l) (l ++ l') = l.
Proof.
  rewrite firstn_app, Nat.sub_diag, firstn_all. simpl. now rewrite app_nil_r.
Qed.

(** C1. For a bookmarked PDF (with a line spacing and a dot width that are
    not zero, without which the source raises), the assembler returns a
    document whose front matter has [F] pages, [F] being the number of pages
    the paginator made, and in it: the page numbers drawn on the TOC pages
    are, in order, [target_page + F + 1] for the entries that have a line to
    carry one; the links inserted are, in order, one per entry with target
    [target_page + F]; and the outline is the original outline with [F] added
    to every page reference. *)
Theorem toc_page_numbers_links_and_outline_shift (base : pdf) (font_size : Q) :
  Qeq_bool (font_size * (3 # 2)) 0 = false ->
  Qeq_bool (get_text_length (py ".") font_size) 0 = false ->
  exists paginated out,
    paginate_wrapped_entries get_text_length (extract_toc_entries (toc base)) font_size
        (toc_text_max_width get_text_length font_size) (snd a4) = Some paginated
    /\ add_toc_and_links get_text_length base font_size = Some out
    /\ let F := Z.of_nat (List.length paginated) in
       let entries :=
         map (with_wrapped_lines get_text_length font_size
                (toc_text_max_width get_text_length font_size))
             (extract_toc_entries (toc base)) in
       List.length (final_pages out) = (List.length paginated + List.length (pages base))%nat
       /\ flat_map page_numbers_on (firstn (List.length paginated) (final_pages out))
          = map (fun it => py_str_int (target_page_of (fst it) + F + 1))
                (filter has_lines entries)
       /\ map snd (inserted_links out)
          = map (fun it => (target_page_of (fst it) + F)%Z) entries
       /\ final_toc out
          = map (fun '(lvl, title, page) => (lvl, title, (page + F)%Z)) (toc base).
Proof.
  intros Hfs Hdot.
  destruct (@paginate_some get_text_length (extract_toc_entries (toc base)) font_size
              (toc_text_max_width get_text_length font_size) (snd a4) Hfs)
    as [paginated Hp].
  pose proof (paginate_concat _ _ _ _ _ Hp) as Hc.
  destruct (@draw_pages_spec get_text_length font_size (fst a4) page_number_x 8%Q
              (Z.of_nat (List.length paginated)) Hdot paginated 0%nat [] [])
    as (toc_doc & lts & Hg & Hl & Hn & Ht).
  exists paginated.
  unfold add_toc_and_links. cbv beta iota zeta. cbn [a4 fst snd] in *.
  cbv [a4]. cbv beta iota. 
  rewrite Hp. unfold generate_toc_pages, enumerate. rewrite Hg.
  eexists. split; [reflexivity|]. split; [reflexivity|].
  cbv zeta. cbn [final_pages inserted_links final_toc].
  simpl in Hl, Hn, Ht. rewrite <- Hl, firstn_length_app, Hl.
  split; [now rewrite length_app, Hl|].
  split; [now rewrite Hn, Hc|].
  split; [|reflexivity].
  transitivity (map (fun t => (t + Z.of_nat (List.length paginated))%Z) (map snd lts)).
  { rewrite !map_map. apply map_ext. now intros [[i r] t]. }
  rewrite Ht, Hc. now rewrite !map_map.
Qed.

End TocAssembly.

Lemma toc_page_numbers_links_and_outline_shift_witness :
  Qeq_bool (8 * (3 # 2)) 0 = false
  /\ Qeq_bool (half_em (py ".") 8) 0 = false
  /\ exists out,
       add_toc_and_links half_em sample_pdf 8 = Some out
       /\ flat_map page_numbers_on (firstn 1 (final_pages out)) = [py "2"; py "3"]
       /\ map snd (inserted_links out) = [1; 2; 3]%Z
       /\ map snd (final_toc out) = [2; 3; 4]%Z.
Proof.
  split; [reflexivity|]. split; [reflexivity|].
  destruct (@toc_page_numbers_links_and_outline_shift half_em sample_pdf 8
              eq_refl eq_refl) as (paginated & out & Hp & Ho & _).
  exists out. split; [exact Ho|].
  vm_compute in Ho. inversion Ho; subst out. vm_compute. repeat split.
Defined.


(* ================================================================== *)
(** ** Properties: title extraction *)
(* ================================================================== *)

Section ExtractionFacts.

Variable os_path_basename : str -> str.
Variable path : str.

(** C3. On the single line "Table 14.1.1 Summary of Demographics" the builder
    gives Title-1 "Table 14.1.1", Title-2 "Summary of Demographics", no
    Title-3 and the bookmark "Table 14.1.1: Summary of Demographics"; this
    holds in each of the three extractors. *)
Theorem demographics_line_titles :
  let line := py "Table 14.1.1 Summary of Demographics" in
  let expected := (py "Table 14.1.1", py "Summary of Demographics", py "",
                   py "Table 14.1.1: Summary of Demographics") in
  extract_titles_from_header_lines os_path_basename path [line] = expected
  /\ extract_title_from_pdf os_path_basename path (Some line) = expected
  /\ extract_title_from_docx os_path_basename path (Some (docx_with_header line))
     = expected.
Proof. repeat split; vm_compute; reflexivity. Qed.

Lemma scan_search_without_identifier (lines window : list str) (i : nat) :
  (forall line, In line window -> Re.search IGNORECASE title_pattern line = None) ->
  scan_search lines window i = ([], [], []).
Proof.
  revert i. induction window as [|line window IH]; intros i H; cbn [scan_search].
  - reflexivity.
  - rewrite (H line (or_introl eq_refl)). apply IH.
    intros l Hl. apply H. now right.
Qed.

(** Without an identifier in any header line, the RTF extractor returns no
    title, whatever the lines are. *)
Lemma rtf_without_identifier (header_lines : list str) :
  (forall line, In line header_lines ->
                Re.search IGNORECASE title_pattern line = None) ->
  extract_titles_from_header_lines os_path_basename path header_lines
    = ([], [], [], os_path_basename path).
Proof.
  intro H. unfold extract_titles_from_header_lines.
  rewrite scan_search_without_identifier; [reflexivity|].
  intros line Hl. apply filter_In in Hl. apply H. tauto.
Qed.

(** C6 fails in the RTF extractor, which has no fallback: a header whose only
    line is a plausible title without identifier yields no Title-1 and the
    file name as bookmark, where the PDF and DOCX extractors take the line as
    Title-1. *)
Theorem rtf_extractor_has_no_fallback :
  let line := py "Summary of Demographics" in
  Re.search IGNORECASE title_pattern line = None
  /\ valid_title_candidate line = true
  /\ extract_titles_from_header_lines os_path_basename path [line]
     = ([], [], [], os_path_basename path)
  /\ extract_title_from_pdf os_path_basename path (Some line) = (line, [], [], line)
  /\ extract_title_from_docx os_path_basename path (Some (docx_with_header line))
     = (line, [], [], line).
Proof. repeat split; vm_compute; reflexivity. Qed.

(** C7 fails in the PDF extractor, which never applies the noise classifier
    to the lines it scans: the line "Table 14.1.1final" is noise and becomes
    Title-1, where the RTF and DOCX extractors drop the line before the
    scan. *)
Theorem pdf_extractor_takes_noise_line_as_title :
  let line := py "Table 14.1.1final" in
  is_footer_content line = true
  /\ extract_title_from_pdf os_path_basename path (Some line) = (line, [], [], line)
  /\ extract_titles_from_header_lines os_path_basename path [line]
     = ([], [], [], os_path_basename path)
  /\ extract_title_from_docx os_path_basename path (Some (docx_with_header line))
     = ([], [], [], os_path_basename path).
Proof. repeat split; vm_compute; reflexivity. Qed.

(** C8. A failed extraction is not an exception (the extractors are total
    functions) and gives empty titles with the file name as bookmark: for an
    RTF that cannot be read, that has no header block, or whose header gives
    no line at all; for a PDF and a DOCX whose reading raises. *)
Theorem failed_extraction_gives_filename :
  extract_titles_from_rtf os_path_basename path None
    = ([], [], [], os_path_basename path)
  /\ (forall rtf_text,
        Re.search DOTALL header_pattern rtf_text = None ->
        extract_titles_from_rtf os_path_basename path (Some rtf_text)
          = ([], [], [], os_path_basename path))
  /\ (forall file,
        extract_header_lines_with_tablepattern file = [] ->
        extract_titles_from_rtf os_path_basename path file
          = ([], [], [], os_path_basename path))
  /\ extract_title_from_pdf os_path_basename path None
       = ([], [], [], os_path_basename path)
  /\ extract_title_from_docx os_path_basename path None
       = ([], [], [], os_path_basename path).
Proof.
  assert (Hno : forall file,
             extract_header_lines_with_tablepattern file = [] ->
             extract_titles_from_rtf os_path_basename path file
               = ([], [], [], os_path_basename path)).
  { intros file H. unfold extract_titles_from_rtf. rewrite H. reflexivity. }
  split; [|split; [|split; [|split]]].
  - apply Hno. reflexivity.
  - intros rtf_text H. apply Hno.
    unfold extract_header_lines_with_tablepattern, extract_groups_from_rtf_header.
    now rewrite H.
  - exact Hno.
  - reflexivity.
  - reflexivity.
Qed.

End ExtractionFacts.

Lemma failed_extraction_witness :
  Re.search DOTALL header_pattern (py "{\rtf1 Table 1 Summary}") = None
  /\ extract_titles_from_rtf (fun p => p) (py "t1.rtf") (Some (py "{\rtf1 Table 1 Summary}"))
     = ([], [], [], py "t1.rtf").
Proof.
  split; [vm_compute; reflexivity|].
  apply (proj1 (proj2 (failed_extraction_gives_filename (fun p => p) (py "t1.rtf")))).
  vm_compute; reflexivity.
Defined.

(** C10, amended. The identifier is found by an unanchored search and the
    remainder is the line without its first [len(token)] characters: when the
    match begins at offset [k], what is left is [kept ++ post], where [post]
    is the whole text after the match and [kept] are the [k] characters in
    front of it (the end of [pre ++ tok]).  Nothing is dropped at the end. *)
Theorem remainder_after_unanchored_match (line : str) (m : mtch) :
  Re.search IGNORECASE title_pattern line = Some m ->
  exists pre tok post kept,
    line = pre ++ tok ++ post
    /\ m_start m = List.length pre
    /\ Re.group0 line m = tok
    /\ after_token_length line m = kept ++ post
    /\ List.length kept = List.length pre
    /\ kept = skipn (List.length tok) (pre ++ tok).
Proof.
  intro H. apply search_group0 in H. destruct H as (pre & tok & post & Hl & Hs & He & Hg).
  exists pre, tok, post, (skipn (List.length tok) (pre ++ tok)).
  repeat split; auto.
  - unfold after_token_length. rewrite Hg, Hl, app_assoc, skipn_app.
    f_equal. rewrite length_app.
    replace (List.length tok - (List.length pre + List.length tok))%nat with 0%nat by lia.
    reflexivity.
  - rewrite length_skipn, length_app. lia.
Qed.

Lemma remainder_after_unanchored_match_witness :
  let line := py "See Table 1 Demographics" in
  let m := {| m_start := 4; m_end := 11; m_caps := [(3, (4, 9))%nat] |} in
  Re.search IGNORECASE title_pattern line = Some m
  /\ exists pre tok post kept,
       line = pre ++ tok ++ post
       /\ m_start m = List.length pre
       /\ Re.group0 line m = tok
       /\ after_token_length line m = kept ++ post
       /\ List.length kept = List.length pre
       /\ kept = skipn (List.length tok) (pre ++ tok).
Proof.
  split; [vm_compute; reflexivity|].
  apply remainder_after_unanchored_match. vm_compute; reflexivity.
Defined.

(** C10 as stated fails: in "See Table 1 Demographics" the match begins at
    offset 4 and the remainder is "le 1 Demographics"; it does not begin with
    "See " and it ends with the whole of " Demographics". *)
Lemma remainder_as_claimed_fails :
  let line := py "See Table 1 Demographics" in
  exists m,
    Re.search IGNORECASE title_pattern line = Some m
    /\ m_start m = 4%nat
    /\ Re.group0 line m = py "Table 1"
    /\ after_token_length line m = py "le 1 Demographics"
    /\ remainder_as_claimed line m = py "See  Demograp"
    /\ after_token_length line m <> remainder_as_claimed line m
    /\ startswith (after_token_length line m) (firstn (m_start m) line) = false
    /\ endswith (after_token_length line m) (skipn (m_end m) line) = true.
Proof.
  eexists. split; [vm_compute; reflexivity|].
  repeat split; try (vm_compute; reflexivity).
  vm_compute. discriminate.
Qed.


(* ================================================================== *)
(** ** Properties: sort keys *)
(* ================================================================== *)

(** C4. The key of "Appendix 3: Listing of Protocol Deviations" is rank 3
    with path [3], and it is strictly greater than every key of rank 0, 1 or
    2, whatever that key's path. *)
Theorem appendix_key_after_tables_listings_figures :
  parse_sort_key (py "Appendix 3: Listing of Protocol Deviations") = Some (3%Z, [3%Z])
  /\ forall bookmark r p,
       parse_sort_key bookmark = Some (r, p) ->
       r = 0%Z \/ r = 1%Z \/ r = 2%Z ->
       key_ltb (r, p) (3%Z, [3%Z]) = true
       /\ key_ltb (3%Z, [3%Z]) (r, p) = false.
Proof.
  split; [vm_compute; reflexivity|].
  intros bookmark r p _ Hr. unfold key_ltb. cbn [fst snd].
  destruct Hr as [->|[->| ->]]; split; reflexivity.
Qed.

Lemma appendix_key_after_tables_listings_figures_witness :
  parse_sort_key (py "Table 14.3.1.1: Adverse Events") = Some (0%Z, [14; 3; 1; 1]%Z)
  /\ key_ltb (0%Z, [14; 3; 1; 1]%Z) (3%Z, [3%Z]) = true
  /\ key_ltb (3%Z, [3%Z]) (0%Z, [14; 3; 1; 1]%Z) = false.
Proof.
  split; [vm_compute; reflexivity|].
  apply (proj2 appendix_key_after_tables_listings_figures
               (py "Table 14.3.1.1: Adverse Events")).
  - vm_compute; reflexivity.
  - left; reflexivity.
Defined.

Lemma path_ltb_nil_r (p : list Z) : path_ltb p [] = false.
Proof. now destruct p. Qed.

Lemma zero_path_first (p : list Z) :
  p <> [] -> Forall (fun n => (0 <= n)%Z) p -> path_leb [0%Z] p = true.
Proof.
  intros Hne Hp. destruct p as [|x p]; [congruence|].
  inversion Hp; subst. unfold path_leb. cbn [path_ltb].
  rewrite path_ltb_nil_r, andb_false_r, orb_false_r.
  apply negb_true_iff, Z.ltb_ge. assumption.
Qed.

(** C5 as stated fails: "Table: Summary" has no number and gets the path
    [0], which is below the path of "Table 14.1 Demographics", not above it;
    "Appendix" alone gets [9999], which is below the path of
    "Appendix 10000"; "Appendix 3.2" gets [3], not [3; 2]; and the number
    need not follow the keyword: in "Study 3 Table 5" the path is [3], the
    first number of the text, and "Study 3 Table: Summary", whose keyword is
    followed by no number, gets [3] as well, not [0]. *)
Lemma missing_number_does_not_sort_last :
  parse_sort_key (py "Table: Summary") = Some (0%Z, [0%Z])
  /\ parse_sort_key (py "Table 14.1 Demographics") = Some (0%Z, [14; 1]%Z)
  /\ path_leb [14; 1]%Z [0%Z] = false
  /\ parse_sort_key (py "Appendix") = Some (3%Z, [9999%Z])
  /\ parse_sort_key (py "Appendix 10000") = Some (3%Z, [10000%Z])
  /\ path_leb [10000%Z] [9999%Z] = false
  /\ parse_sort_key (py "Appendix 3.2") = Some (3%Z, [3%Z])
  /\ parse_sort_key (py "Study 3 Table 5") = Some (0%Z, [3%Z])
  /\ parse_sort_key (py "Study 3 Table: Summary") = Some (0%Z, [3%Z]).
Proof. repeat split; vm_compute; reflexivity. Qed.

Lemma first_category_no_number (text : str) (keys : list (str * Z)) :
  Re.search no_flags dotted_number_pattern text = None ->
  exists r, first_category text keys = Some (r, [0%Z]).
Proof.
  intro Hs. induction keys as [|[key rank] keys IH]; cbn [first_category]; [eauto|].
  rewrite Hs. destruct (contains key text); eauto.
Qed.

Lemma first_category_number (text : str) (keys : list (str * Z)) m :
  Re.search no_flags dotted_number_pattern text = Some m ->
  existsb (fun kr => contains (fst kr) text) keys = true ->
  exists g ns r,
    Re.group text m 1 = Some g
    /\ ints (split_char (ch ".") g) = Some ns
    /\ first_category text keys = Some (r, ns).
Proof.
  intros Hs. induction keys as [|[key rank] keys IH]; cbn [first_category existsb fst];
    [discriminate|].
  destruct (contains key text).
  - intros _. rewrite Hs.
    destruct (dotted_number_group _ Hs) as (g & Hg & Hd).
    destruct (ints_digit_runs Hd) as (ns & Hi).
    exists g, ns, rank. rewrite Hg, Hi. auto.
  - exact IH.
Qed.

(** C5, amended.  For a plain bookmark (ASCII text of at most 4300
    characters), let the text be the bookmark in lower case without its
    leading non-letters.  If the text contains "appendix": the path is [n]
    for the integer n of the first match of "appendix", optional white space,
    digits (group 1 of the appendix pattern), and [9999] if the pattern finds
    nothing.  Otherwise: the path is [0] if the text holds no number at all
    (the dotted number pattern finds nothing anywhere in it), and for a
    Table, Listing or Figure it is the first dot-separated integer sequence
    found anywhere in the text (group 1 of the dotted number pattern, split
    at "."), whether or not it follows the keyword.  [0] is less than or
    equal to every path that [parse_sort_key] returns, so a bookmark without
    a number sorts first within its category, not last; [9999] is greater
    than or equal to the path of every Appendix number up to 9999. *)
Theorem sort_key_numeric_path (bookmark : str) :
  plain bookmark = true ->
  let text := key_text bookmark in
  (contains (py "appendix") text = true ->
   Re.search no_flags appendix_number_pattern text = None ->
   parse_sort_key bookmark = Some (3%Z, [9999%Z]))
  /\ (contains (py "appendix") text = false ->
      Re.search no_flags dotted_number_pattern text = None ->
      exists r, parse_sort_key bookmark = Some (r, [0%Z]))
  /\ (forall other r p,
        parse_sort_key other = Some (r, p) -> path_leb [0%Z] p = true)
  /\ (forall n, (n <= 9999)%Z -> path_leb [n] [9999%Z] = true)
  /\ (forall m,
        contains (py "appendix") text = true ->
        Re.search no_flags appendix_number_pattern text = Some m ->
        exists g n,
          Re.group text m 1 = Some g /\ digit_run g /\ py_int g = Some n
          /\ parse_sort_key bookmark = Some (3%Z, [n]))
  /\ (forall m,
        contains (py "appendix") text = false ->
        existsb (fun kr => contains (fst kr) text) order = true ->
        Re.search no_flags dotted_number_pattern text = Some m ->
        exists g ns r,
          Re.group text m 1 = Some g
          /\ ints (split_char (ch ".") g) = Some ns
          /\ parse_sort_key bookmark = Some (r, ns)).
Proof.
  intros _. cbv zeta. unfold parse_sort_key, key_text.
  split; [|split; [|split; [|split; [|split]]]].
  - intros -> ->. reflexivity.
  - intros -> Hs. now apply first_category_no_number.
  - intros other r p H. apply parse_sort_key_path in H. destruct H. now apply zero_path_first.
  - intros n Hn. unfold path_leb. cbn [path_ltb]. rewrite andb_false_r, orb_false_r.
    apply negb_true_iff, Z.ltb_ge. exact Hn.
  - intros m -> Hs. rewrite Hs.
    destruct (appendix_number_group _ Hs) as (g & Hg & Hd).
    destruct (py_int_digit_run Hd) as (n & Hn & _).
    exists g, n. rewrite Hg, Hn. auto.
  - intros m -> He Hs. now apply first_category_number.
Qed.

Lemma sort_key_numeric_path_witness :
  let text := key_text (py "Listing: Protocol Deviations") in
  plain (py "Listing: Protocol Deviations") = true
  /\ contains (py "appendix") text = false
  /\ Re.search no_flags dotted_number_pattern text = None
  /\ exists r, parse_sort_key (py "Listing: Protocol Deviations") = Some (r, [0%Z]).
Proof.
  split; [vm_compute; reflexivity|].
  split; [vm_compute; reflexivity|]. split; [vm_compute; reflexivity|].
  apply (proj1 (proj2 (sort_key_numeric_path (py "Listing: Protocol Deviations")
                                             eq_refl)));
    vm_compute; reflexivity.
Defined.

(* ================================================================== *)
(** ** Properties: the rescan *)
(* ================================================================== *)

Lemma insert_sorted_perm (A : Type) (ltb : A -> A -> bool) (x : A) (l : list A) :
  Permutation (insert_sorted ltb x l) (x :: l).
Proof.
  induction l as [|y l IH]; cbn [insert_sorted]; [reflexivity|].
  destruct (ltb y x); [|reflexivity].
  rewrite IH. apply perm_swap.
Qed.

Lemma sort_by_perm (A : Type) (ltb : A -> A -> bool) (l : list A) :
  Permutation (sort_by ltb l) l.
Proof.
  induction l as [|x l IH]; cbn [sort_by]; [reflexivity|].
  rewrite insert_sorted_perm. now constructor.
Qed.

Lemma keyed_total (rows : list row) :
  exists krs, keyed rows = Some krs /\ map snd krs = rows.
Proof.
  induction rows as [|r rows (krs & IH & Hs)]; cbn [keyed]; [exists []; auto|].
  destruct (parse_sort_key_total (bookmark_of r)) as (k & ->). rewrite IH.
  exists ((k, r) :: krs). split; [reflexivity | simpl; congruence].
Qed.

(** Sorting the table never raises and only reorders the rows. *)
Lemma sort_rows_perm (rows : list row) :
  exists sorted_rows, sort_rows rows = Some sorted_rows /\ Permutation sorted_rows rows.
Proof.
  unfold sort_rows. destruct (keyed_total rows) as (krs & -> & Hs).
  eexists. split; [reflexivity|].
  rewrite <- Hs. apply Permutation_map, sort_by_perm.
Qed.



Section RescanFacts.

Variable os_path_basename : str -> str.
Variable os_path_join : str -> str -> str.
Variable os_listdir : str -> list str.
Variable read_rtf : str -> option str.
Variable read_pdf_page1 : str -> option str.
Variable read_docx : str -> option docx_document.

Let new_row_of := new_row os_path_basename os_path_join read_rtf read_pdf_page1 read_docx.
Let rescan := refresh_folder os_path_basename os_path_join os_listdir
                             read_rtf read_pdf_page1 read_docx.

Lemma new_row_key (folder : str) (key : str * str) :
  row_key (new_row_of folder key) = key.
Proof.
  unfold new_row_of, new_row. destruct key as [ftype fname].
  destruct (if str_eqb ftype (py "RTF") then _ else _) as [[[t1 t2] t3] bm].
  reflexivity.
Qed.

Let kept := kept_rows os_listdir.
Let added := added_rows os_path_basename os_path_join os_listdir
                        read_rtf read_pdf_page1 read_docx.

Lemma rescan_table (self : TLFApp) :
  truthy (out_folder self) = true ->
  exists self',
    rescan self = Some self'
    /\ Permutation (table_data self') (kept self ++ added self)
    /\ (sorted_once self = true -> table_data self' = kept self ++ added self).
Proof.
  intro Hf.
  unfold rescan, refresh_folder, kept, added, kept_rows, added_rows.
  rewrite Hf. cbn [negb]. cbv zeta.
  destruct (sorted_once self); cbn [negb].
  - eexists. split; [reflexivity|]. cbn [table_data]. split; [reflexivity|auto].
  - match goal with |- context [sort_rows ?t] =>
      destruct (sort_rows_perm t) as (t' & -> & Hp) end.
    eexists. split; [reflexivity|]. cbn [table_data]. split; [exact Hp | discriminate].
Qed.


End RescanFacts.



(* ================================================================== *)
(** ** More properties: wrapping and pagination *)
(* ================================================================== *)

Lemma dropwhile_keeps (p : char -> bool) (x : str) :
  existsb (fun c => negb (p c)) (dropwhile p x) = existsb (fun c => negb (p c)) x.
Proof.
  induction x as [|c x IH]; [reflexivity|]. cbn [dropwhile].
  destruct (p c) eqn:Hp; [|reflexivity]. cbn [existsb]. now rewrite Hp, IH.
Qed.

Lemma existsb_rev (A : Type) (q : A -> bool) (l : list A) :
  existsb q (rev l) = existsb q l.
Proof.
  induction l as [|a l IH]; [reflexivity|]. cbn [rev existsb].
  rewrite existsb_app, IH. cbn [existsb]. rewrite orb_false_r. apply orb_comm.
Qed.

Lemma forallb_rev' (A : Type) (q : A -> bool) (l : list A) :
  forallb q (rev l) = forallb q l.
Proof.
  induction l as [|a l IH]; [reflexivity|]. cbn [rev forallb].
  rewrite forallb_app, IH. cbn [forallb]. rewrite andb_true_r. apply andb_comm.
Qed.

(** Stripping keeps a character that it is not told to strip. *)
Lemma strip_by_keeps (p : char -> bool) (x : str) :
  existsb (fun c => negb (p c)) (strip_by p x) = existsb (fun c => negb (p c)) x.
Proof.
  unfold strip_by, rstrip_by, lstrip_by.
  now rewrite existsb_rev, dropwhile_keeps, existsb_rev, dropwhile_keeps.
Qed.

Lemma split_at_pieces (sep : char -> bool) (x : str) :
  forall cur,
    forallb (fun c => negb (sep c)) cur = true ->
    Forall (fun w => forallb (fun c => negb (sep c)) w = true) (split_at sep cur x).
Proof.
  induction x as [|c x IH]; intros cur Hcur; cbn [split_at].
  - constructor; [|constructor]. now rewrite forallb_rev'.
  - destruct (sep c) eqn:Hc.
    + constructor; [now rewrite forallb_rev' | now apply IH].
    + apply IH. cbn [forallb]. now rewrite Hc, Hcur.
Qed.

(** A word of [title.split()] is not empty and holds no whitespace. *)
Lemma split_ws_words (title : str) :
  Forall (fun w => w <> [] /\ forallb (fun c => negb (isspace c)) w = true)
         (split_ws title).
Proof.
  unfold split_ws. apply Forall_forall. intros w Hw. apply filter_In in Hw.
  destruct Hw as [Hw Hne]. split; [now destruct w|].
  pose proof (@split_at_pieces isspace title [] eq_refl) as H.
  rewrite Forall_forall in H. now apply H.
Qed.

Lemma join_words_snoc (group : list str) (w : str) :
  group <> [] -> join_words (group ++ [w]) = join_words group ++ py " " ++ w.
Proof.
  induction group as [|a group IH]; [congruence|]. intros _.
  destruct group as [|b group]; [reflexivity|].
  change (join_words ((a :: b :: group) ++ [w]))
    with (a ++ py " " ++ join_words ((b :: group) ++ [w])).
  rewrite IH by discriminate.
  change (join_words (a :: b :: group)) with (a ++ py " " ++ join_words (b :: group)).
  now rewrite <- !app_assoc.
Qed.

Lemma join_words_nonempty (group : list str) :
  group <> [] -> Forall (fun w => w <> []) group -> join_words group <> [].
Proof.
  destruct group as [|a group]; [congruence|]. intros _ H. inversion H; subst.
  destruct group; cbn [join_words]; destruct a; try congruence; discriminate.
Qed.

Section WrapFacts.

Variable get_text_length : str -> Q -> Q.
Variables font_size max_width : Q.

Let in_order := line_in_order get_text_length font_size max_width.

(** The loop of [wrap_toc_title], seen on the words: the lines closed so far
    and the open line are groups of consecutive words. *)
Lemma wrap_fold_groups (words : list str) :
  Forall (fun w => w <> []) words ->
  forall groups open,
    Forall in_order groups ->
    open = [] \/ in_order open ->
    Forall (fun w => w <> []) open ->
    exists groups' open',
      fold_left (wrap_word get_text_length font_size max_width) words
                (map join_words groups, join_words open)
        = (map join_words groups', join_words open')
      /\ Forall in_order groups'
      /\ (open' = [] \/ in_order open')
      /\ Forall (fun w => w <> []) open'
      /\ List.concat groups' ++ open' = (List.concat groups ++ open) ++ words.
Proof.
  induction 1 as [|w words Hw _ IH]; intros groups open Hg Ho Hne.
  - exists groups, open. cbn [fold_left]. rewrite app_nil_r. auto.
  - cbn [fold_left]. unfold wrap_word at 2.
    destruct open as [|a open].
    + (* no open line: the word opens one *)
      cbn [join_words truthy nonempty List.app].
      assert (Hsingle : in_order [w]).
      { split; [discriminate | right; eauto]. }
      assert (Hw1 : Forall (fun w : str => w <> []) [w]) by (constructor; auto).
      destruct (IH groups [w] Hg (or_intror Hsingle) Hw1)
        as (g' & o' & Hf & H1 & H2 & H3 & H4).
      cbn [join_words] in Hf.
      destruct (Qle_bool _ _).
      * exists g', o'. split; [exact Hf|]. rewrite H4, <- !app_assoc. auto.
      * exists g', o'. split; [exact Hf|]. rewrite H4, <- !app_assoc. auto.
    + assert (Hopen : join_words (a :: open) <> []).
      { apply join_words_nonempty; [discriminate | exact Hne]. }
      assert (Ht : truthy (join_words (a :: open)) = true).
      { destruct (join_words (a :: open)); [congruence | reflexivity]. }
      rewrite Ht. rewrite <- join_words_snoc by discriminate.
      destruct Ho as [Ho|Ho]; [discriminate|].
      destruct (Qle_bool _ _) eqn:Hfit.
      * assert (Hin : in_order ((a :: open) ++ [w])).
        { split; [destruct open; discriminate | left; exact Hfit]. }
        destruct (IH groups ((a :: open) ++ [w]) Hg (or_intror Hin))
          as (g' & o' & Hf & H1 & H2 & H3 & H4).
        { apply Forall_app. split; [exact Hne | constructor; [exact Hw | constructor]]. }
        exists g', o'. split; [exact Hf|]. rewrite H4, <- !app_assoc. auto.
      * assert (Hsingle : in_order [w]).
        { split; [discriminate | right; eauto]. }
        destruct (IH (groups ++ [a :: open]) [w]) as (g' & o' & Hf & H1 & H2 & H3 & H4).
        { apply Forall_app. split; [exact Hg | constructor; [exact Ho | constructor]]. }
        { right; exact Hsingle. }
        { constructor; [exact Hw | constructor]. }
        exists g', o'. rewrite map_app in Hf. cbn [map join_words] in Hf |- *.
        split; [exact Hf|].
        rewrite H4, concat_app. cbn [List.concat]. rewrite app_nil_r, <- !app_assoc.
        auto.
Qed.

Lemma join_words_not_blank (group : list str) :
  group <> [] ->
  Forall (fun w => w <> [] /\ forallb (fun c => negb (isspace c)) w = true) group ->
  truthy (strip (join_words group)) = true.
Proof.
  intros Hne Hw. destruct group as [|a group]; [congruence|].
  inversion Hw as [|? ? [Ha Hsp] _]; subst.
  destruct a as [|c a]; [congruence|]. cbn [forallb] in Hsp.
  apply andb_prop in Hsp. destruct Hsp as [Hc _].
  assert (He : existsb (fun c => negb (isspace c)) (join_words ((c :: a) :: group)) = true).
  { destruct group; cbn [join_words List.app existsb]; now rewrite Hc. }
  unfold strip. rewrite <- (strip_by_keeps isspace) in He.
  destruct (strip_by isspace _); [discriminate | reflexivity].
Qed.

(** The lines of a wrapped title are its words, in order, cut into groups:
    each line is a group joined by single spaces, and each group fits the
    width or is one word. *)
Lemma wrap_toc_title_groups (title : str) :
  exists groups,
    wrap_toc_title get_text_length title font_size max_width = map join_words groups
    /\ List.concat groups = split_ws title
    /\ Forall in_order groups.
Proof.
  pose proof (split_ws_words title) as Hw.
  assert (Hne : Forall (fun w : str => w <> []) (split_ws title)).
  { eapply Forall_impl; [|exact Hw]. now intros w [? _]. }
  destruct (@wrap_fold_groups (split_ws title) Hne [] [] (Forall_nil _)
              (or_introl eq_refl) (Forall_nil _))
    as (groups & open & Hf & Hg & Ho & Hon & Hc).
  cbn [map join_words List.concat List.app] in Hf, Hc.
  unfold wrap_toc_title. unfold str, char in *. rewrite Hf.
  assert (Hwords : forall g, In g (groups ++ [open]) ->
             Forall (fun w => w <> [] /\ forallb (fun c => negb (isspace c)) w = true) g).
  { intros g Hin. apply Forall_forall. intros w Hin'.
    rewrite Forall_forall in Hw. apply Hw. rewrite <- Hc.
    apply in_app_or in Hin. destruct Hin as [Hin|[<-|[]]].
    - apply in_or_app. left. apply in_concat. eauto.
    - apply in_or_app. now right. }
  assert (Hkeep : forall gs, (forall g, In g gs -> In g (groups ++ [open])) ->
             Forall in_order gs ->
             filter (fun line => truthy (strip line)) (map join_words gs)
               = map join_words gs).
  { induction gs as [|g gs IHg]; intros Hsub Hord; [reflexivity|].
    inversion Hord as [|? ? [Hgne _] Hord']; subst.
    cbn [map filter]. rewrite join_words_not_blank; [|exact Hgne|].
    - f_equal. apply IHg; [|exact Hord']. intros g' Hg'. apply Hsub. now right.
    - apply Hwords. apply Hsub. now left. }
  destruct open as [|a open].
  - cbn [join_words truthy nonempty]. exists groups.
    rewrite app_nil_r in Hc. split; [|auto].
    apply Hkeep; [|exact Hg]. intros g Hin. apply in_or_app. now left.
  - destruct Ho as [Ho|Ho]; [discriminate|].
    assert (Ht : truthy (join_words (a :: open)) = true).
    { pose proof (@join_words_nonempty (a :: open)) as Hj.
      destruct (join_words (a :: open)); [|reflexivity].
      exfalso. apply Hj; [discriminate | exact Hon | reflexivity]. }
    rewrite Ht. exists (groups ++ [a :: open]).
    rewrite concat_app. cbn [List.concat]. rewrite app_nil_r.
    split; [|split; [exact Hc|]].
    + change [join_words (a :: open)] with (map join_words [a :: open]).
      rewrite <- map_app. apply Hkeep; [auto|].
      apply Forall_app. split; [exact Hg | constructor; [exact Ho | constructor]].
    + apply Forall_app. split; [exact Hg | constructor; [exact Ho | constructor]].
Qed.

End WrapFacts.

Section WrapTheorems.

Variable get_text_length : str -> Q -> Q.

(** X1. Wrapping a title loses no word and adds none: the lines are the words
    of [title.split()], in order, cut into non-empty groups, each group
    joined by single spaces.  In particular a word wider than the width is
    still there, and no line is blank. *)
Theorem wrap_toc_title_keeps_every_word (title : str) (font_size max_width : Q) :
  exists groups,
    wrap_toc_title get_text_length title font_size max_width = map join_words groups
    /\ List.concat groups = split_ws title
    /\ Forall (fun group => group <> []) groups.
Proof.
  destruct (wrap_toc_title_groups get_text_length font_size max_width title)
    as (groups & Hw & Hc & Ho).
  exists groups. split; [exact Hw|]. split; [exact Hc|].
  eapply Forall_impl; [|exact Ho]. now intros g [Hne _].
Qed.

(** X2. Every line of a wrapped title fits the width, as measured, or is a
    single word of the title (a word too wide to fit stands alone on its
    line). *)
Theorem wrapped_line_fits_or_is_one_word (title : str) (font_size max_width : Q)
  (line : str) :
  In line (wrap_toc_title get_text_length title font_size max_width) ->
  Qle_bool (get_text_length line font_size) max_width = true
  \/ In line (split_ws title).
Proof.
  destruct (wrap_toc_title_groups get_text_length font_size max_width title)
    as (groups & Hw & Hc & Ho).
  rewrite Hw. intro Hin. apply in_map_iff in Hin. destruct Hin as (g & <- & Hg).
  rewrite Forall_forall in Ho. destruct (Ho g Hg) as [_ [Hfit|(word & ->)]].
  - now left.
  - right. rewrite <- Hc. apply in_concat. exists [word]. split; [exact Hg | now left].
Qed.

End WrapTheorems.

Lemma wrapped_line_fits_or_is_one_word_witness :
  let title := py "Summary of Electrocardiogram Abnormalities" in
  In (py "Electrocardiogram") (wrap_toc_title half_em title 8 48)
  /\ (Qle_bool (half_em (py "Electrocardiogram") 8) 48 = true
      \/ In (py "Electrocardiogram") (split_ws title)).
Proof.
  assert (H : In (py "Electrocardiogram")
                 (wrap_toc_title half_em (py "Summary of Electrocardiogram Abnormalities")
                                 8 48)).
  { vm_compute. right. left. reflexivity. }
  split; [exact H|].
  exact (wrapped_line_fits_or_is_one_word half_em _ _ _ _ H).
Defined.

Section PaginateMore.

Variable get_text_length : str -> Q -> Q.
Variables font_size toc_text_max_width : Q.
Variable lines_per_page : Z.

Let step := paginate_step get_text_length font_size toc_text_max_width lines_per_page.
Let lines_of (e : toc_entry) : Z :=
  Z.of_nat (List.length (wrapped_lines_of get_text_length font_size toc_text_max_width e)).

(** A page respects the capacity when its lines fit or it holds at most one
    entry. *)
Let page_ok (page : list (toc_entry * list str)) : Prop :=
  (page_line_count page <= lines_per_page)%Z \/ (List.length page <= 1)%nat.

Lemma page_line_count_cons (x : toc_entry * list str) (p : list (toc_entry * list str)) :
  page_line_count (x :: p) = (Z.of_nat (List.length (snd x)) + page_line_count p)%Z.
Proof. reflexivity. Qed.

Lemma page_line_count_app (p q : list (toc_entry * list str)) :
  page_line_count (p ++ q) = (page_line_count p + page_line_count q)%Z.
Proof.
  induction p as [|x p IH]; [reflexivity|].
  cbn [List.app]. rewrite !page_line_count_cons, IH. lia.
Qed.

Lemma paginate_fold_capacity (entries : list toc_entry) :
  forall done cur n done' cur' n',
    fold_left step entries (done, cur, n) = (done', cur', n') ->
    n = page_line_count cur ->
    Forall page_ok done -> page_ok cur ->
    (done = [] \/ cur <> []) -> Forall (fun p => p <> []) (tl done) ->
    n' = page_line_count cur'
    /\ Forall page_ok done' /\ page_ok cur'
    /\ (done' = [] \/ cur' <> []) /\ Forall (fun p => p <> []) (tl done').
Proof.
  induction entries as [|e entries IH]; intros done cur n done' cur' n' H Hn Hd Hc He Ht.
  - cbn [fold_left] in H. inversion H; subst. auto.
  - cbn [fold_left] in H. unfold step at 2 in H. unfold paginate_step in H.
    fold step in H.
    destruct (n + Z.of_nat (List.length
                (wrapped_lines_of get_text_length font_size toc_text_max_width e))
              >? lines_per_page)%Z eqn:Hover.
    + apply IH in H; auto.
      * cbn [List.app]. rewrite page_line_count_cons. cbn [snd page_line_count fold_right]. lia.
      * apply Forall_app. split; [exact Hd | constructor; [exact Hc | constructor]].
      * right. cbn [List.length List.app]. lia.
      * right. discriminate.
      * destruct done as [|d done]; cbn [List.app tl]; [constructor|].
        apply Forall_app. split; [exact Ht|].
        destruct He as [He|He]; [discriminate | constructor; [exact He | constructor]].
    + apply IH in H; auto.
      * rewrite page_line_count_app, page_line_count_cons.
        cbn [page_line_count fold_right snd]. lia.
      * left. rewrite page_line_count_app, page_line_count_cons.
        cbn [page_line_count fold_right snd].
        rewrite Z.gtb_ltb, Z.ltb_ge in Hover. lia.
      * right. destruct cur; discriminate.
Qed.

Lemma paginate_fold_grows (entries : list toc_entry) :
  forall done cur n done' cur' n',
    fold_left step entries (done, cur, n) = (done', cur', n') ->
    cur <> [] ->
    cur' <> [] /\ exists extra, done' = done ++ extra /\ Forall (fun p => p <> []) extra.
Proof.
  induction entries as [|e entries IH]; intros done cur n done' cur' n' H Hc.
  - cbn [fold_left] in H. inversion H; subst. split; [exact Hc|].
    exists []. now rewrite app_nil_r.
  - cbn [fold_left] in H. unfold step at 2 in H. unfold paginate_step in H.
    fold step in H.
    destruct (n + _ >? lines_per_page)%Z.
    + apply IH in H; [|discriminate]. destruct H as [Hc' (extra & -> & Hx)].
      split; [exact Hc'|]. exists (cur :: extra). rewrite <- app_assoc.
      split; [reflexivity | now constructor].
    + apply IH in H; [exact H | now destruct cur].
Qed.

End PaginateMore.

Section PaginateTheorems.

Variable get_text_length : str -> Q -> Q.

(** X3. No TOC page is over capacity unless a single entry makes it so: the
    wrapped lines of a page number at most [lines_per_page], or the page
    holds one entry (an entry with more lines than a page takes is put on a
    page of its own, whole). *)
Theorem toc_page_within_capacity_or_single_entry
  (entries : list toc_entry) (font_size toc_text_max_width page_height : Q)
  (paginated : list (list (toc_entry * list str))) :
  paginate_wrapped_entries get_text_length entries font_size toc_text_max_width
                           page_height = Some paginated ->
  exists lines_per_page,
    lines_per_page_of font_size page_height = Some lines_per_page
    /\ Forall (fun page => (page_line_count page <= lines_per_page)%Z
                           \/ (List.length page <= 1)%nat) paginated.
Proof.
  unfold paginate_wrapped_entries, lines_per_page_of.
  destruct (floordiv _ _) as [q|]; [|discriminate].
  destruct (fold_left _ entries _) as [[done cur] n] eqn:Hfold.
  intro H. inversion H; subst; clear H. exists (q - 2)%Z. split; [reflexivity|].
  apply paginate_fold_capacity in Hfold; auto; try (right; cbn; lia).
  destruct Hfold as (_ & Hd & Hc & _). destruct cur; [exact Hd|].
  apply Forall_app. split; [exact Hd | constructor; [exact Hc | constructor]].
Qed.

(** X4. Only the first TOC page can be empty, and it is empty exactly when
    the first entry alone has more lines than a page takes: the paginator
    then closes the page it has not yet written on. *)
Theorem only_first_toc_page_can_be_empty
  (e : toc_entry) (entries : list toc_entry)
  (font_size toc_text_max_width page_height : Q)
  (paginated : list (list (toc_entry * list str))) :
  paginate_wrapped_entries get_text_length (e :: entries) font_size toc_text_max_width
                           page_height = Some paginated ->
  exists lines_per_page first more,
    lines_per_page_of font_size page_height = Some lines_per_page
    /\ paginated = first :: more
    /\ Forall (fun page => page <> []) more
    /\ (first = [] <->
        (lines_per_page
         < Z.of_nat (List.length (wrapped_lines_of get_text_length font_size
                                                   toc_text_max_width e)))%Z).
Proof.
  unfold paginate_wrapped_entries, lines_per_page_of.
  destruct (floordiv _ _) as [q|]; [|discriminate].
  cbn [fold_left]. unfold paginate_step at 2.
  destruct (0 + _ >? q - 2)%Z eqn:Hover;
    destruct (fold_left _ entries _) as [[done cur] n] eqn:Hfold;
    intro H; inversion H; subst; clear H;
    apply paginate_fold_grows in Hfold; try discriminate;
    destruct Hfold as [Hc (extra & -> & Hx)];
    exists (q - 2)%Z.
  - exists [], (extra ++ [cur]). split; [reflexivity|].
    split; [now destruct cur|]. split.
    + apply Forall_app. split; [exact Hx | constructor; [exact Hc | constructor]].
    + rewrite Z.gtb_ltb, Z.ltb_lt in Hover. split; [intros _; lia | reflexivity].
  - rewrite Z.gtb_ltb, Z.ltb_ge in Hover.
    destruct cur as [|c cur]; [congruence|].
    destruct extra as [|x extra].
    + exists (c :: cur), []. repeat split; auto; try discriminate. lia.
    + inversion Hx; subst.
      exists x, (extra ++ [c :: cur]). split; [reflexivity|]. split; [reflexivity|].
      split; [apply Forall_app; split; [assumption | constructor; [discriminate | constructor]]|].
      split; [congruence | lia].
Qed.

End PaginateTheorems.

Lemma only_first_toc_page_can_be_empty_witness :
  let e := (1%Z, py "Summary of Demographics and Baseline Characteristics", 0%Z) in
  paginate_wrapped_entries half_em [e] 8 60 136 = Some [[]; [(e, wrapped_lines_of half_em 8 60 e)]]
  /\ exists lines_per_page first more,
       lines_per_page_of 8 136 = Some lines_per_page
       /\ [[]; [(e, wrapped_lines_of half_em 8 60 e)]] = first :: more
       /\ Forall (fun page => page <> []) more
       /\ (first = [] <->
           (lines_per_page < Z.of_nat (List.length (wrapped_lines_of half_em 8 60 e)))%Z).
Proof.
  split; [vm_compute; reflexivity|].
  apply (@only_first_toc_page_can_be_empty half_em _ [] 8 60 136).
  vm_compute; reflexivity.
Defined.

Lemma toc_page_within_capacity_or_single_entry_witness :
  let entries := extract_toc_entries (toc sample_pdf) in
  exists paginated lines_per_page,
    paginate_wrapped_entries half_em entries 8 40 136 = Some paginated
    /\ lines_per_page_of 8 136 = Some lines_per_page
    /\ Forall (fun page => (page_line_count page <= lines_per_page)%Z
                           \/ (List.length page <= 1)%nat) paginated.
Proof.
  eexists. 
  assert (H : paginate_wrapped_entries half_em (extract_toc_entries (toc sample_pdf))
                8 40 136 = Some _) by (vm_compute; reflexivity).
  destruct (toc_page_within_capacity_or_single_entry half_em _ _ _ _ H) as (lpp & Hl & Hf).
  exists lpp. split; [exact H|]. split; [exact Hl | exact Hf].
Defined.


Ltac hd_simpl :=
  cbv [headings_on]; cbn [filter is_heading drawn_as map text_of List.app].

Section RenderMore.

Variable get_text_length : str -> Q -> Q.
Variables font_size page_width pnx gap : Q.
Variable toc_page_count : Z.

Lemma headings_on_app ops ops' :
  headings_on (ops ++ ops') = headings_on ops ++ headings_on ops'.
Proof. unfold headings_on. now rewrite filter_app, map_app. Qed.

Lemma draw_line_headings (x : Q) (pns : str) (count : nat) acc indexed ops y ops' y' :
  draw_line get_text_length font_size pnx gap x pns count acc indexed = Some (ops', y') ->
  acc = Some (ops, y) ->
  headings_on ops' = headings_on ops.
Proof.
  intros H ->. unfold draw_line in H. destruct indexed as [i line].
  destruct (Z.of_nat i =? Z.of_nat count - 1)%Z.
  - destruct (Qle_bool _ _).
    + inversion H; subst. rewrite !headings_on_app. hd_simpl. now rewrite !app_nil_r.
    + destruct (floordiv _ _); [|discriminate].
      inversion H; subst. rewrite !headings_on_app. hd_simpl. now rewrite !app_nil_r.
  - inversion H; subst. rewrite !headings_on_app. hd_simpl. now rewrite !app_nil_r.
Qed.

Lemma fold_none (A B : Type) (f : option A -> B -> option A) (l : list B) :
  (forall b, f None b = None) -> fold_left f l None = None.
Proof. intro Hf. induction l as [|b l IH]; cbn [fold_left]; [reflexivity|]. now rewrite Hf. Qed.

Lemma draw_lines_headings (x : Q) (pns : str) (count : nat) (lines : list (nat * str)) :
  forall ops y ops' y',
    fold_left (draw_line get_text_length font_size pnx gap x pns count) lines
              (Some (ops, y)) = Some (ops', y') ->
    headings_on ops' = headings_on ops.
Proof.
  induction lines as [|l lines IH]; intros ops y ops' y' H; cbn [fold_left] in H.
  - now inversion H.
  - destruct (draw_line get_text_length font_size pnx gap x pns count (Some (ops, y)) l)
      as [[ops1 y1]|] eqn:Hd.
    + apply IH in H. rewrite H. eapply draw_line_headings; eauto.
    + rewrite fold_none in H; [discriminate | reflexivity].
Qed.

Lemma draw_entries_headings (page_index : nat) (items : list (toc_entry * list str)) :
  forall ops y lts ops' y' lts',
    fold_left (draw_entry get_text_length font_size pnx gap toc_page_count page_index)
              items (Some (ops, y, lts)) = Some (ops', y', lts') ->
    headings_on ops' = headings_on ops
    /\ map link_page_and_target lts'
       = map link_page_and_target lts
         ++ map (fun it => (page_index, target_page_of (fst it))) items.
Proof.
  induction items as [|[[[level title] target] lines] items IH];
    intros ops y lts ops' y' lts' H; cbn [fold_left] in H.
  - inversion H; subst. cbn [map]. now rewrite app_nil_r.
  - unfold draw_entry at 2 in H. cbv beta iota zeta in H.
    destruct (fold_left _ (enumerate lines) _) as [[ops1 y1]|] eqn:Hl.
    + apply draw_lines_headings in Hl. apply IH in H. destruct H as [Hh Hm].
      rewrite Hh, Hl, Hm, map_app. cbn [map]. rewrite <- app_assoc. split; reflexivity.
    + rewrite fold_none in H; [discriminate | reflexivity].
Qed.

Lemma draw_pages_headings (paginated : list (list (toc_entry * list str))) :
  forall k pages0 lts pages' lts',
    fold_left (draw_page get_text_length font_size page_width pnx gap toc_page_count)
              (combine (seq k (List.length paginated)) paginated) (Some (pages0, lts))
      = Some (pages', lts') ->
    map headings_on pages'
      = map headings_on pages0
        ++ map (fun i => if (i =? 0)%nat then [py "Table of Contents"] else [])
               (seq k (List.length paginated))
    /\ map link_page_and_target lts'
       = map link_page_and_target lts
         ++ flat_map (fun indexed =>
                        map (fun it => (fst indexed, target_page_of (fst it)))
                            (snd indexed))
                     (combine (seq k (List.length paginated)) paginated).
Proof.
  induction paginated as [|entries paginated IH]; intros k pages0 lts pages' lts' H.
  - cbn in H. inversion H; subst. cbn [List.length seq map combine flat_map].
    now rewrite !app_nil_r.
  - cbn [List.length seq combine fold_left] in H. unfold draw_page at 2 in H.
    cbv beta iota zeta in H.
    destruct (k =? 0)%nat eqn:Hk.
    + match type of H with
      | context [fold_left ?f entries ?a] =>
          destruct (fold_left f entries a) as [[[ops1 y1] lts1]|] eqn:He
      end.
      * apply draw_entries_headings in He. destruct He as [Hh Hm].
        apply IH in H. destruct H as [Hp Hl].
        cbn [List.length seq map combine flat_map fst snd]. rewrite Hk.
        rewrite Hp, Hl, Hm, map_app. cbn [map]. rewrite Hh. hd_simpl.
        rewrite <- !app_assoc. split; reflexivity.
      * rewrite fold_none in H; [discriminate | reflexivity].
    + match type of H with
      | context [fold_left ?f entries ?a] =>
          destruct (fold_left f entries a) as [[[ops1 y1] lts1]|] eqn:He
      end.
      * apply draw_entries_headings in He. destruct He as [Hh Hm].
        apply IH in H. destruct H as [Hp Hl].
        cbn [List.length seq map combine flat_map fst snd]. rewrite Hk.
        rewrite Hp, Hl, Hm, map_app. cbn [map]. rewrite Hh. hd_simpl.
        rewrite <- !app_assoc. split; reflexivity.
      * rewrite fold_none in H; [discriminate | reflexivity].
Qed.

(** X5. The heading "Table of Contents" is drawn once, on the first TOC page,
    and on no other page; and every entry gets one link, on the TOC page that
    shows the entry, leading to the entry's target page. *)
Theorem toc_heading_on_first_page_and_one_link_per_entry
  (paginated : list (list (toc_entry * list str)))
  (pages : list (list text_op)) (link_targets : list link_target) :
  generate_toc_pages get_text_length paginated font_size page_width pnx gap
                     toc_page_count = Some (pages, link_targets) ->
  map headings_on pages
    = map (fun i => if (i =? 0)%nat then [py "Table of Contents"] else [])
          (seq 0 (List.length paginated))
  /\ map link_page_and_target link_targets
     = flat_map (fun indexed =>
                   map (fun it => (fst indexed, target_page_of (fst it))) (snd indexed))
                (enumerate paginated).
Proof.
  unfold generate_toc_pages, enumerate. intro H.
  apply draw_pages_headings in H. exact H.
Qed.

End RenderMore.

Lemma toc_heading_on_first_page_and_one_link_per_entry_witness :
  let e1 := (1%Z, py "Table 14.1.1", 0%Z) in
  let e2 := (1%Z, py "Listing 16.2.1", 4%Z) in
  let paginated := [[(e1, [py "Table 14.1.1"])]; [(e2, [py "Listing 16.2.1"])]] in
  exists pages link_targets,
    generate_toc_pages half_em paginated 8 595 535 8 2 = Some (pages, link_targets)
    /\ map headings_on pages = [[py "Table of Contents"]; []]
    /\ map link_page_and_target link_targets = [(0%nat, 0%Z); (1%nat, 4%Z)].
Proof.
  assert (H : exists out,
             generate_toc_pages half_em
               [[((1%Z, py "Table 14.1.1", 0%Z), [py "Table 14.1.1"])];
                [((1%Z, py "Listing 16.2.1", 4%Z), [py "Listing 16.2.1"])]]
               8 595 535 8 2 = Some out).
  { vm_compute. eexists. reflexivity. }
  destruct H as ([pages lts] & H). exists pages, lts. split; [exact H|].
  exact (toc_heading_on_first_page_and_one_link_per_entry _ _ _ _ _ _ _ H).
Defined.

Section RenderNumbers.

Variable get_text_length : str -> Q -> Q.
Variables font_size page_width pnx gap : Q.
Variable toc_page_count : Z.

Lemma draw_line_numbers (x : Q) (pns : str) (count i : nat) (line : str) ops y ops' y' :
  draw_line get_text_length font_size pnx gap x pns count (Some (ops, y)) (i, line)
    = Some (ops', y') ->
  page_numbers_on ops'
    = page_numbers_on ops ++ (if (Z.of_nat i =? Z.of_nat count - 1)%Z then [pns] else []).
Proof.
  unfold draw_line. destruct (Z.of_nat i =? Z.of_nat count - 1)%Z.
  - destruct (Qle_bool _ _).
    + intro H; inversion H; subst. rewrite !page_numbers_on_app. pn_simpl.
      now rewrite ?app_nil_r.
    + destruct (floordiv _ _); [|discriminate].
      intro H; inversion H; subst. rewrite !page_numbers_on_app. pn_simpl.
      now rewrite ?app_nil_r.
  - intro H; inversion H; subst. rewrite !page_numbers_on_app. pn_simpl.
    now rewrite ?app_nil_r.
Qed.

Lemma draw_lines_numbers (x : Q) (pns : str) (lines : list str) :
  forall k ops y ops' y',
    fold_left (draw_line get_text_length font_size pnx gap x pns (k + List.length lines))
              (combine (seq k (List.length lines)) lines) (Some (ops, y))
      = Some (ops', y') ->
    page_numbers_on ops'
      = page_numbers_on ops ++ match lines with [] => [] | _ => [pns] end.
Proof.
  induction lines as [|line lines IH]; intros k ops y ops' y' H.
  - cbn in H. inversion H; subst. now rewrite app_nil_r.
  - cbn [List.length seq combine fold_left] in H.
    destruct (draw_line get_text_length font_size pnx gap x pns
                        (k + S (List.length lines)) (Some (ops, y)) (k, line))
      as [[ops1 y1]|] eqn:Hd.
    + apply draw_line_numbers in Hd.
      replace (k + S (List.length lines))%nat with (S k + List.length lines)%nat in H by lia.
      apply IH in H. rewrite H, Hd.
      destruct lines as [|l lines].
      * cbn [List.length].
        replace (Z.of_nat k =? Z.of_nat (k + 1) - 1)%Z with true
          by (symmetry; apply Z.eqb_eq; lia).
        now rewrite app_nil_r.
      * replace (Z.of_nat k =? Z.of_nat (k + S (List.length (l :: lines))) - 1)%Z
          with false by (symmetry; apply Z.eqb_neq; cbn [List.length]; lia).
        now rewrite app_nil_r.
    + rewrite fold_none in H; [discriminate | reflexivity].
Qed.

Lemma draw_entries_numbers (page_index : nat) (items : list (toc_entry * list str)) :
  forall ops y lts ops' y' lts',
    fold_left (draw_entry get_text_length font_size pnx gap toc_page_count page_index)
              items (Some (ops, y, lts)) = Some (ops', y', lts') ->
    page_numbers_on ops'
      = page_numbers_on ops
        ++ map (page_number_str_of toc_page_count) (filter has_lines items).
Proof.
  induction items as [|[[[level title] target] lines] items IH];
    intros ops y lts ops' y' lts' H; cbn [fold_left] in H.
  - inversion H; subst. cbn [map filter]. now rewrite app_nil_r.
  - unfold draw_entry at 2 in H. cbv beta iota zeta in H.
    destruct (fold_left _ (enumerate lines) _) as [[ops1 y1]|] eqn:Hl.
    + unfold enumerate in Hl.
      apply (draw_lines_numbers _ _ lines 0) in Hl.
      apply IH in H. rewrite H, Hl. cbn [filter]. unfold has_lines at 2. cbn [snd].
      destruct lines; cbn [map List.app]; now rewrite <- ?app_assoc, ?app_nil_r.
    + rewrite fold_none in H; [discriminate | reflexivity].
Qed.

Lemma draw_pages_numbers (paginated : list (list (toc_entry * list str))) :
  forall k pages0 lts pages' lts',
    fold_left (draw_page get_text_length font_size page_width pnx gap toc_page_count)
              (combine (seq k (List.length paginated)) paginated) (Some (pages0, lts))
      = Some (pages', lts') ->
    List.length pages' = (List.length pages0 + List.length paginated)%nat
    /\ flat_map page_numbers_on pages'
       = flat_map page_numbers_on pages0
         ++ map (page_number_str_of toc_page_count)
                (filter has_lines (List.concat paginated)).
Proof.
  induction paginated as [|entries paginated IH]; intros k pages0 lts pages' lts' H.
  - cbn in H. inversion H; subst. cbn [List.length List.concat filter map].
    rewrite app_nil_r. split; [lia | reflexivity].
  - cbn [List.length seq combine fold_left] in H. unfold draw_page at 2 in H.
    cbv beta iota zeta in H.
    destruct (k =? 0)%nat.
    + match type of H with
      | context [fold_left ?f entries ?a] =>
          destruct (fold_left f entries a) as [[[ops1 y1] lts1]|] eqn:He
      end.
      * apply draw_entries_numbers in He. apply IH in H. destruct H as [Hn Hp].
        rewrite Hn, Hp, length_app, flat_map_app. cbn [flat_map List.length List.concat].
        rewrite He, filter_app, map_app. pn_simpl.
        rewrite ?app_nil_r, <- ?app_assoc. split; [lia | reflexivity].
      * rewrite fold_none in H; [discriminate | reflexivity].
    + match type of H with
      | context [fold_left ?f entries ?a] =>
          destruct (fold_left f entries a) as [[[ops1 y1] lts1]|] eqn:He
      end.
      * apply draw_entries_numbers in He. apply IH in H. destruct H as [Hn Hp].
        rewrite Hn, Hp, length_app, flat_map_app. cbn [flat_map List.length List.concat].
        rewrite He, filter_app, map_app. pn_simpl.
        rewrite ?app_nil_r, <- ?app_assoc. split; [lia | reflexivity].
      * rewrite fold_none in H; [discriminate | reflexivity].
Qed.

End RenderNumbers.

Section OutlineAndNumbers.

Variable get_text_length : str -> Q -> Q.

Lemma wrapped_lines_any_page (font_size w : Q) (lvl : Z) (title : str) (p q : Z) :
  wrapped_lines_of get_text_length font_size w (lvl, title, p)
  = wrapped_lines_of get_text_length font_size w (lvl, title, q).
Proof. reflexivity. Qed.

(** X6. The TOC shows, for each outline entry that has a line, the page the
    entry has in the outline of the final document: the page numbers drawn on
    the TOC pages are, in order, the page references of the final outline
    (entries whose title is blank have no line and no number). *)
Theorem toc_numbers_are_the_final_outline_pages (base : pdf) (font_size : Q)
  (out : final_pdf) :
  add_toc_and_links get_text_length base font_size = Some out ->
  let toc_pages := (List.length (final_pages out) - List.length (pages base))%nat in
  flat_map page_numbers_on (firstn toc_pages (final_pages out))
  = map (fun e => py_str_int (snd e))
        (filter (entry_has_line get_text_length font_size) (final_toc out)).
Proof.
  unfold add_toc_and_links. cbv beta iota zeta. cbv [a4]. cbv beta iota.
  destruct (paginate_wrapped_entries _ _ _ _ _) as [paginated|] eqn:Hp; [|discriminate].
  destruct (generate_toc_pages _ _ _ _ _ _ _) as [[toc_doc lts]|] eqn:Hg; [|discriminate].
  intro H. inversion H; subst; clear H. cbn [final_pages final_toc].
  rewrite length_app, Nat.add_sub.
  unfold generate_toc_pages, enumerate in Hg. apply draw_pages_numbers in Hg.
  destruct Hg as [Hl Hn]. cbn [List.length flat_map List.app] in Hl, Hn.
  rewrite firstn_length_app, Hn. apply paginate_concat in Hp. rewrite Hp.
  unfold shift_bookmark_pages, extract_toc_entries.
  clear Hn Hl Hp. generalize (Z.of_nat (List.length paginated)) as F. intro F.
  induction (toc base) as [|[[lvl title] page] entries IH]; [reflexivity|].
  cbn [map filter]. unfold has_lines at 1, with_wrapped_lines at 1, entry_has_line at 1.
  cbn [snd fst].
  rewrite (wrapped_lines_any_page _ _ lvl (strip title) (page - 1) (page + F)).
  destruct (wrapped_lines_of _ _ _ (lvl, strip title, (page + F)%Z)).
  - exact IH.
  - cbn [map]. rewrite IH. f_equal. unfold page_number_str_of, target_page_of.
    unfold with_wrapped_lines. cbn [fst snd]. f_equal. lia.
Qed.

End OutlineAndNumbers.

Lemma toc_numbers_are_the_final_outline_pages_witness :
  exists out,
    add_toc_and_links half_em sample_pdf 8 = Some out
    /\ flat_map page_numbers_on
         (firstn (List.length (final_pages out) - List.length (pages sample_pdf))%nat
                 (final_pages out))
       = map (fun e => py_str_int (snd e))
             (filter (entry_has_line half_em 8) (final_toc out)).
Proof.
  assert (H : exists out, add_toc_and_links half_em sample_pdf 8 = Some out).
  { vm_compute. eexists. reflexivity. }
  destruct H as (out & H). exists out. split; [exact H|].
  exact (toc_numbers_are_the_final_outline_pages half_em sample_pdf 8 H).
Defined.

(* ================================================================== *)
(** ** More properties: packing *)
(* ================================================================== *)

Section PackingFacts.

Variable os_path_basename : str -> str.
Variable os_path_join : str -> str -> str.
Variable os_path_splitext : str -> str * str.
Variable word_starts : nat -> str -> bool.
Variable open_pdf : nat -> str -> option (list (list text_op)).
Variable get_text_length : str -> Q -> Q.

Let path_of := pdf_path_of os_path_basename os_path_join os_path_splitext word_starts.
Let pack := pack_file os_path_basename os_path_join os_path_splitext word_starts open_pdf.
Let merge := merge_files os_path_basename os_path_join os_path_splitext word_starts
                         open_pdf.
Let worker := generate_pdf_worker os_path_basename os_path_join os_path_splitext
                                  word_starts open_pdf get_text_length.

(** The PDF of the row number [idx] was opened as [doc]. *)
Let opened (out_folder : str) (indexed : nat * row) (doc : list (list text_op)) : Prop :=
  exists pdf_path,
    path_of out_folder (fst indexed) (snd indexed) = Some pdf_path
    /\ open_pdf (fst indexed) pdf_path = Some doc.

Lemma pack_fold (out_folder : str) (files : list (nat * row)) :
  forall merged toc page_count merged' toc' page_count',
    fold_left (pack out_folder) files (Some (merged, toc, page_count))
      = Some (merged', toc', page_count') ->
    exists docs,
      Forall2 (opened out_folder) files docs
      /\ merged' = merged ++ List.concat docs
      /\ toc' = toc ++ outline_from page_count (map snd files) docs.
Proof.
  induction files as [|[idx r] files IH]; intros merged toc pc merged' toc' pc' H.
  - cbn [fold_left] in H. inversion H; subst. exists [].
    cbn [List.concat outline_from map]. rewrite !app_nil_r. repeat split. constructor.
  - cbn [fold_left] in H. unfold pack at 2 in H. unfold pack_file in H. fold pack in H.
    cbv zeta in H. cbn [fst snd] in H.
    destruct (if str_eqb (file_type r) (py "RTF") || str_eqb (file_type r) (py "DOCX")
              then _ else _) as [pdf_path|] eqn:Hpath;
      [|rewrite fold_none in H; [discriminate | reflexivity]].
    destruct (open_pdf idx pdf_path) as [doc|] eqn:Hopen;
      [|rewrite fold_none in H; [discriminate | reflexivity]].
    apply IH in H. destruct H as (docs & Hf & -> & ->).
    exists (doc :: docs). split; [|split].
    + constructor; [|exact Hf]. exists pdf_path. split; [exact Hpath | exact Hopen].
    + cbn [List.concat]. now rewrite <- app_assoc.
    + cbn [outline_from map snd]. now rewrite <- app_assoc.
Qed.

Lemma map_snd_enumerate (A : Type) (l : list A) : map snd (enumerate l) = l.
Proof.
  unfold enumerate. generalize 0%nat as k.
  induction l as [|x l IH]; intro k; [reflexivity|].
  cbn [List.length seq combine map snd]. now rewrite IH.
Qed.

Lemma length_enumerate (A : Type) (l : list A) :
  List.length (enumerate l) = List.length l.
Proof. unfold enumerate. rewrite length_combine, length_seq. apply Nat.min_id. Qed.

Lemma merge_files_spec (out_folder : str) (files : list row) (bookmarked : pdf) :
  merge out_folder files = Some bookmarked ->
  exists docs,
    Forall2 (opened out_folder) (enumerate files) docs
    /\ List.length docs = List.length files
    /\ pages bookmarked = List.concat docs
    /\ toc bookmarked = outline_from 0 files docs.
Proof.
  unfold merge, merge_files. fold pack.
  destruct (fold_left _ (enumerate files) _) as [[[merged toc] pc]|] eqn:Hf;
    [|discriminate].
  intro H; inversion H; subst; clear H. apply pack_fold in Hf.
  destruct Hf as (docs & Hf & -> & ->). exists docs. rewrite map_snd_enumerate.
  split; [exact Hf|]. split; [|auto].
  apply Forall2_length in Hf. now rewrite length_enumerate in Hf.
Qed.

Lemma outline_from_nth (files : list row) :
  forall docs page_count i r doc,
    List.length files = List.length docs ->
    nth_error files i = Some r -> nth_error docs i = Some doc ->
    nth_error (outline_from page_count files docs) i
    = Some (1%Z, bookmark_of r, (page_count + pages_before docs i + 1)%Z).
Proof.
  induction files as [|r0 files IH]; intros docs pc i r doc Hl Hr Hd.
  - destruct i; discriminate.
  - destruct docs as [|d0 docs]; [discriminate|]. destruct i as [|i].
    + cbn in Hr, Hd. inversion Hr; subst. cbn [outline_from nth_error].
      unfold pages_before. cbn. do 2 f_equal. lia.
    + cbn [nth_error] in Hr, Hd. cbn [outline_from nth_error].
      rewrite (IH docs _ i r doc); auto.
      unfold pages_before. cbn [firstn List.concat]. rewrite length_app.
      do 2 f_equal. lia.
Qed.

Lemma outline_from_length (files : list row) :
  forall docs page_count,
    List.length files = List.length docs ->
    List.length (outline_from page_count files docs) = List.length files.
Proof.
  induction files as [|r files IH]; intros [|d docs] pc Hl; try discriminate;
    [reflexivity|]. cbn [outline_from List.length]. f_equal. apply IH. now inversion Hl.
Qed.

(** X7. The merge gives the bookmarked PDF one outline entry per packed file,
    in order: level 1, the row's bookmark as title, and as page the first
    page of that file in the merged document (one more than the number of
    pages of the files before it); the pages are those of the files, in
    order. *)
Theorem merge_outline_points_at_first_pages
  (out_folder : str) (files : list row) (bookmarked : pdf) :
  merge out_folder files = Some bookmarked ->
  exists docs,
    Forall2 (opened out_folder) (enumerate files) docs
    /\ pages bookmarked = List.concat docs
    /\ List.length (toc bookmarked) = List.length files
    /\ forall i r doc,
         nth_error files i = Some r -> nth_error docs i = Some doc ->
         nth_error (toc bookmarked) i
         = Some (1%Z, bookmark_of r, (pages_before docs i + 1)%Z).
Proof.
  intro H. apply merge_files_spec in H. destruct H as (docs & Hf & Hl & Hp & Ht).
  exists docs. symmetry in Hl.
  split; [exact Hf|]. split; [exact Hp|]. rewrite Ht. split.
  - now apply outline_from_length.
  - intros i r doc Hr Hd. rewrite (outline_from_nth _ _ 0 _ Hl Hr Hd). reflexivity.
Qed.

(** X8. Packing skips no checked row: when the worker builds a document,
    then for every checked row, in table order, a PDF was opened at the path
    the worker uses for it, and the document consists of the TOC pages (none
    when the TOC is off) followed by all pages of these PDFs in that order.
    The path is the file itself for a PDF row; for an RTF or DOCX row it is
    the PDF of the same base name in the output folder, after Word was
    started.  Whether Word wrote that PDF is not checked (errors of the
    conversion are ignored), so what is opened can be an older file of that
    name.  Hence, when Word cannot be started or no PDF can be opened at the
    path of a checked row, the run fails as a whole instead of leaving the
    row out. *)
Theorem packed_pdf_holds_every_checked_file
  (out_folder : str) (table : list row) (toc_checkbox : bool) (out : final_pdf) :
  worker out_folder table toc_checkbox = Some out ->
  exists docs toc_pages,
    Forall2 (opened out_folder) (enumerate (files_to_pack table)) docs
    /\ final_pages out = toc_pages ++ List.concat docs
    /\ (toc_checkbox = false -> toc_pages = []).
Proof.
  unfold worker, generate_pdf_worker. fold merge.
  destruct (merge out_folder (files_to_pack table)) as [bookmarked|] eqn:Hm;
    [|discriminate].
  apply merge_files_spec in Hm. destruct Hm as (docs & Hf & Hl & Hp & Ht).
  destruct toc_checkbox.
  - unfold add_toc_and_links. cbv beta iota zeta. cbv [a4]. cbv beta iota.
    destruct (paginate_wrapped_entries _ _ _ _ _) as [paginated|]; [|discriminate].
    destruct (generate_toc_pages _ _ _ _ _ _ _) as [[toc_doc lts]|]; [|discriminate].
    intro H; inversion H; subst; clear H. cbn [final_pages].
    exists docs, toc_doc. rewrite Hp. split; [exact Hf|]. split; [reflexivity|discriminate].
  - intro H; inversion H; subst; clear H. cbn [final_pages].
    exists docs, []. rewrite Hp. auto.
Qed.

Lemma outline_from_pages (files : list row) :
  forall docs page_count e,
    Forall (fun doc => doc <> []) docs ->
    In e (outline_from page_count files docs) ->
    (page_count + 1 <= snd e
     <= page_count + Z.of_nat (List.length (List.concat docs)))%Z.
Proof.
  induction files as [|r files IH]; intros docs pc e Hne Hin; [contradiction|].
  destruct docs as [|d docs]; [contradiction|]. inversion Hne; subst.
  cbn [outline_from] in Hin. cbn [List.concat]. rewrite length_app.
  destruct Hin as [<-|Hin].
  - cbn [snd]. destruct d; [congruence|]. cbn [List.length]. lia.
  - apply IH in Hin; [|assumption]. lia.
Qed.

(** X9. With the TOC on and no empty PDF among the files, every link that
    the TOC carries sits on one of the TOC pages and leads to an existing
    page after the TOC; there is one link per checked file. *)
Theorem toc_links_lead_into_the_packed_pdf
  (out_folder : str) (table : list row) (out : final_pdf) :
  (forall idx pdf_path doc, open_pdf idx pdf_path = Some doc -> doc <> []) ->
  worker out_folder table true = Some out ->
  exists toc_pages body,
    final_pages out = toc_pages ++ body
    /\ List.length (inserted_links out) = List.length (files_to_pack table)
    /\ Forall (fun l =>
                 (fst (fst l) < List.length toc_pages)%nat
                 /\ (Z.of_nat (List.length toc_pages) <= snd l
                     < Z.of_nat (List.length (final_pages out)))%Z)
              (inserted_links out).
Proof.
  intros Hpages. unfold worker, generate_pdf_worker. fold merge.
  destruct (merge out_folder (files_to_pack table)) as [bookmarked|] eqn:Hm;
    [|discriminate].
  apply merge_files_spec in Hm. destruct Hm as (docs & Hf & Hd & Hp & Ht).
  assert (Hne : Forall (fun doc => doc <> []) docs).
  { clear Hd Hp Ht. induction Hf as [|r d fs ds (p & _ & Ho) _ IH]; constructor; eauto. }
  unfold add_toc_and_links. cbv beta iota zeta. cbv [a4]. cbv beta iota.
  destruct (paginate_wrapped_entries _ _ _ _ _) as [paginated|] eqn:Hpag; [|discriminate].
  destruct (generate_toc_pages _ _ _ _ _ _ _) as [[toc_doc lts]|] eqn:Hg; [|discriminate].
  intro H; inversion H; subst; clear H. cbn [final_pages inserted_links].
  unfold generate_toc_pages, enumerate in Hg.
  pose proof Hg as Hg'. apply draw_pages_numbers in Hg. destruct Hg as [Hl _].
  apply draw_pages_headings in Hg'. destruct Hg' as [_ Hlinks].
  cbn [List.length map List.app] in Hl, Hlinks.
  apply paginate_concat in Hpag.
  exists toc_doc, (pages bookmarked). split; [reflexivity|].
  assert (Hall : forall i t, In (i, t) (map link_page_and_target lts) ->
             (i < List.length toc_doc)%nat
             /\ (0 <= t < Z.of_nat (List.length (pages bookmarked)))%Z).
  { intros i t Hin. rewrite Hlinks in Hin. apply in_flat_map in Hin.
    destruct Hin as ([k entries] & Hk & Hin). cbn [fst snd] in Hin.
    apply in_map_iff in Hin. destruct Hin as (it & Heq & Hit).
    inversion Heq; subst; clear Heq. split.
    - apply in_combine_l in Hk. apply in_seq in Hk. lia.
    - assert (Hc : In it (List.concat paginated)).
      { apply in_concat. exists entries. split; [|exact Hit].
        now apply in_combine_r in Hk. }
      rewrite Hpag in Hc. apply in_map_iff in Hc. destruct Hc as (e & <- & He).
      unfold extract_toc_entries in He. apply in_map_iff in He.
      destruct He as ([[lvl title] page] & <- & He).
      rewrite Ht in He. apply outline_from_pages in He; [|exact Hne].
      unfold with_wrapped_lines, target_page_of. cbn [fst snd] in He |- *.
      rewrite Hp. lia. }
  split.
  - assert (Hlen : List.length (map link_page_and_target lts)
                   = List.length (List.concat paginated)).
    { rewrite Hlinks. clear. generalize 0%nat as k.
      induction paginated as [|p ps IH]; intro k; [reflexivity|].
      cbn [List.length seq combine flat_map List.concat fst snd].
      now rewrite !length_app, (IH (S k)), length_map. }
    rewrite length_map in Hlen. rewrite length_map.
    etransitivity; [exact Hlen|].
    rewrite Hpag, length_map. unfold extract_toc_entries.
    rewrite length_map, Ht. apply outline_from_length. now symmetry.
  - apply Forall_forall. intros [[i r] t'] Hin. apply in_map_iff in Hin.
    destruct Hin as ([[i0 r0] t] & Heq & Hin). inversion Heq; subst; clear Heq.
    destruct (Hall i t) as [Hi Ht'].
    { apply in_map_iff. exists (i, r, t). split; [reflexivity | exact Hin]. }
    cbn [fst snd]. rewrite length_app. cbn [Nat.add] in Hl. split; [exact Hi | lia].
Qed.

End PackingFacts.

Lemma merge_outline_points_at_first_pages_witness :
  exists bookmarked,
    merge_files sample_basename sample_join sample_splitext
                (fun _ _ => true) sample_open_pdf (py "out")
                (files_to_pack (table_data sample_unsorted_app)) = Some bookmarked
    /\ toc bookmarked
       = [(1%Z, py "Listing 16.2.1", 1%Z); (1%Z, py "Table 14.1", 4%Z)].
Proof.
  assert (H : merge_files sample_basename sample_join sample_splitext
                (fun _ _ => true) sample_open_pdf (py "out")
                (files_to_pack (table_data sample_unsorted_app))
              = Some {| pages := [[]; []; []; []];
                        toc := [(1%Z, py "Listing 16.2.1", 1%Z);
                                (1%Z, py "Table 14.1", 4%Z)] |})
    by (vm_compute; reflexivity).
  destruct (merge_outline_points_at_first_pages _ _ _ _ _ _ _ H) as (docs & _).
  eexists. split; [exact H | reflexivity].
Defined.

Lemma packed_pdf_holds_every_checked_file_witness :
  exists out docs toc_pages,
    generate_pdf_worker sample_basename sample_join sample_splitext
                        (fun _ _ => true) sample_open_pdf
                        half_em (py "out") (table_data sample_unsorted_app) true = Some out
    /\ final_pages out = toc_pages ++ List.concat docs
    /\ List.length docs = 2%nat
    /\ List.length (final_pages out) = 5%nat.
Proof.
  assert (H : exists out,
             generate_pdf_worker sample_basename sample_join sample_splitext
               (fun _ _ => true) sample_open_pdf
               half_em (py "out") (table_data sample_unsorted_app) true = Some out
             /\ List.length (final_pages out) = 5%nat).
  { vm_compute. eexists. split; reflexivity. }
  destruct H as (out & H & Hlen).
  destruct (packed_pdf_holds_every_checked_file _ _ _ _ _ _ _ _ _ H)
    as (docs & toc_pages & Hd & Hp & _).
  exists out, docs, toc_pages. split; [exact H|]. split; [exact Hp|].
  split; [|exact Hlen].
  apply Forall2_length in Hd. rewrite <- Hd. reflexivity.
Defined.

Lemma toc_links_lead_into_the_packed_pdf_witness :
  exists out toc_pages body,
    generate_pdf_worker sample_basename sample_join sample_splitext
                        (fun _ _ => true) sample_open_pdf
                        half_em (py "out") (table_data sample_unsorted_app) true = Some out
    /\ final_pages out = toc_pages ++ body
    /\ List.length (inserted_links out) = 2%nat
    /\ Forall (fun l =>
                 (fst (fst l) < List.length toc_pages)%nat
                 /\ (Z.of_nat (List.length toc_pages) <= snd l
                     < Z.of_nat (List.length (final_pages out)))%Z)
              (inserted_links out).
Proof.
  assert (H : exists out,
             generate_pdf_worker sample_basename sample_join sample_splitext
               (fun _ _ => true) sample_open_pdf
               half_em (py "out") (table_data sample_unsorted_app) true = Some out).
  { vm_compute. eexists. reflexivity. }
  destruct H as (out & H).
  destruct (@toc_links_lead_into_the_packed_pdf
              sample_basename sample_join sample_splitext
              (fun _ _ => true) sample_open_pdf half_em (py "out")
              (table_data sample_unsorted_app) out)
    as (toc_pages & body & Hp & Hn & Hl).
  - intros idx p doc Hd. unfold sample_open_pdf in Hd.
    destruct (str_eqb p _); [inversion Hd; discriminate|].
    destruct (str_eqb p _); [inversion Hd; discriminate | discriminate].
  - exact H.
  - exists out, toc_pages, body. split; [exact H|]. split; [exact Hp|].
    split; [exact Hn | exact Hl].
Defined.

(* ================================================================== *)
(** ** More properties: RTF header groups *)
(* ================================================================== *)

Lemma brace_balance_snoc (s : str) (c : char) :
  brace_balance (s ++ [c])
  = (brace_balance s
     + (if char_eqb (ch "{") c then 1 else 0)
     - (if char_eqb (ch "}") c then 1 else 0))%Z.
Proof.
  unfold brace_balance, count_char. rewrite !filter_app, !length_app.
  cbn [filter]. destruct (char_eqb (ch "{") c), (char_eqb (ch "}") c);
    cbn [List.length]; lia.
Qed.

Lemma brace_balance_open (s : str) :
  brace_balance (s ++ [ch "{"]) = (brace_balance s + 1)%Z.
Proof.
  rewrite brace_balance_snoc.
  change (char_eqb (ch "{") (ch "{")) with true.
  change (char_eqb (ch "}") (ch "{")) with false. cbv iota. lia.
Qed.

Lemma brace_balance_close (s : str) :
  brace_balance (s ++ [ch "}"]) = (brace_balance s - 1)%Z.
Proof.
  rewrite brace_balance_snoc.
  change (char_eqb (ch "{") (ch "}")) with false.
  change (char_eqb (ch "}") (ch "}")) with true. cbv iota. lia.
Qed.

Lemma interleave_snoc (dropped groups : list str) (j g : str) :
  List.length dropped = List.length groups ->
  interleave (dropped ++ [j]) (groups ++ [g]) = interleave dropped groups ++ j ++ g.
Proof.
  revert groups. induction dropped as [|j0 dropped IH]; intros [|g0 groups] Hl;
    try discriminate.
  - cbn. now rewrite app_nil_r.
  - cbn [interleave List.app]. rewrite IH by now inversion Hl.
    now rewrite <- !app_assoc.
Qed.

Lemma char_eqb_eq (a b : char) : char_eqb a b = true -> a = b.
Proof. apply N.eqb_eq. Qed.

Lemma char_eqb_sym (a b : char) : char_eqb a b = char_eqb b a.
Proof. apply N.eqb_sym. Qed.

Lemma firstn_snoc_le (A : Type) (l : list A) (x : A) (n : nat) :
  (n <= List.length l)%nat -> firstn n (l ++ [x]) = firstn n l.
Proof.
  intro H. rewrite firstn_app. replace (n - List.length l)%nat with 0%nat by lia.
  cbn. apply app_nil_r.
Qed.

Lemma scan_char_inv (done : str) (acc : list str * Z * str) (c : char) :
  scan_inv done acc -> scan_inv (done ++ [c]) (scan_char acc c).
Proof.
  destruct acc as [[groups depth] buf]. unfold scan_inv, scan_char.
  intros (Hg & (dropped & tail & Hl & Hd & Ht) & Hopen).
  destruct (char_eqb c (ch "{")) eqn:Eo; [|destruct (char_eqb c (ch "}")) eqn:Ec].
  - (* an opening brace *)
    apply char_eqb_eq in Eo. subst c.
    split; [exact Hg|]. split.
    + exists dropped, (tail ++ [ch "{"]). split; [exact Hl|].
      split; [subst done; now rewrite app_assoc|]. intros Hpos.
      destruct (depth =? 0)%Z eqn:E0.
      * exists tail. reflexivity.
      * destruct Ht as (j & ->); [apply Z.eqb_neq in E0; lia|].
        exists j. now rewrite app_assoc.
    + intros Hpos. destruct (depth =? 0)%Z eqn:E0.
      * apply Z.eqb_eq in E0. subst depth. split; [exists []; reflexivity|].
        split; [reflexivity|]. intros n Hn. cbn [List.app List.length] in Hn.
        assert (n = 1%nat) by lia. subst n. reflexivity.
      * apply Z.eqb_neq in E0. destruct Hopen as ((body & ->) & Hb & Hp); [lia|].
        split; [exists (body ++ [ch "{"]); reflexivity|].
        split; [rewrite brace_balance_open, Hb; reflexivity|].
        intros n Hn. rewrite length_app in Hn. cbn [List.length] in Hn.
        destruct (Nat.eq_dec n (List.length (ch "{" :: body) + 1)) as [->|Hne].
        -- rewrite <- (length_app _ [ch "{"]), firstn_all, brace_balance_open, Hb.
           lia.
        -- rewrite firstn_snoc_le by (cbn [List.length] in *; lia).
           apply Hp. cbn [List.length] in *. lia.
  - (* a closing brace *)
    apply char_eqb_eq in Ec. subst c.
    assert (Ht' : truthy (buf ++ [ch "}"]) = true) by (destruct buf; reflexivity).
    rewrite Ht', andb_true_r.
    destruct (depth - 1 =? 0)%Z eqn:E0.
    + apply Z.eqb_eq in E0. assert (depth = 1%Z) by lia. subst depth.
      destruct Hopen as ((body & ->) & Hb & Hp); [lia|].
      destruct Ht as (j & ->); [lia|].
      split; [|split].
      * apply Forall_app. split; [exact Hg|]. constructor; [|constructor].
        split; [exists body; reflexivity|]. split.
        -- rewrite brace_balance_close, Hb. reflexivity.
        -- intros n Hn. rewrite length_app in Hn. cbn [List.length] in Hn.
           rewrite firstn_snoc_le by (cbn [List.length] in *; lia).
           apply Hp. cbn [List.length] in *. lia.
      * exists (dropped ++ [j]), []. split; [rewrite !length_app; cbn; lia|].
        split; [|lia]. rewrite interleave_snoc by exact Hl. subst done.
        now rewrite app_nil_r, <- !app_assoc.
      * lia.
    + apply Z.eqb_neq in E0. split; [exact Hg|]. split.
      * exists dropped, (tail ++ [ch "}"]). split; [exact Hl|].
        split; [subst done; now rewrite app_assoc|]. intros Hpos.
        destruct Ht as (j & ->); [lia|]. exists j. now rewrite app_assoc.
      * intros Hpos. destruct Hopen as ((body & ->) & Hb & Hp); [lia|].
        split; [exists (body ++ [ch "}"]); reflexivity|].
        split; [rewrite brace_balance_close, Hb; lia|].
        intros n Hn. rewrite length_app in Hn. cbn [List.length] in Hn.
        destruct (Nat.eq_dec n (List.length (ch "{" :: body) + 1)) as [->|Hne].
        -- rewrite <- (length_app _ [ch "}"]), firstn_all, brace_balance_close, Hb.
           lia.
        -- rewrite firstn_snoc_le by (cbn [List.length] in *; lia).
           apply Hp. cbn [List.length] in *. lia.
  - (* any other character *)
    assert (Hbal : forall s, brace_balance (s ++ [c]) = brace_balance s).
    { intro s0. rewrite brace_balance_snoc.
      rewrite (char_eqb_sym (ch "{") c), (char_eqb_sym (ch "}") c), Eo, Ec. lia. }
    destruct (depth >? 0)%Z eqn:Ep.
    + apply Z.gtb_lt in Ep. destruct Hopen as ((body & ->) & Hb & Hp); [lia|].
      destruct Ht as (j & ->); [lia|].
      split; [exact Hg|]. split.
      * exists dropped, (j ++ (ch "{" :: body) ++ [c]). split; [exact Hl|].
        split; [subst done; now rewrite <- !app_assoc|]. intros _. exists j. reflexivity.
      * intros _. split; [exists (body ++ [c]); reflexivity|].
        split; [now rewrite Hbal|].
        intros n Hn. rewrite length_app in Hn. cbn [List.length] in Hn.
        destruct (Nat.eq_dec n (List.length (ch "{" :: body) + 1)) as [->|Hne].
        -- rewrite <- (length_app _ [c]), firstn_all, Hbal, Hb. lia.
        -- rewrite firstn_snoc_le by (cbn [List.length] in *; lia).
           apply Hp. cbn [List.length] in *. lia.
    + assert (~ (0 < depth)%Z) by (intro Hpos; apply Z.gtb_lt in Hpos; congruence).
      split; [exact Hg|]. split; [|intro; contradiction].
      exists dropped, (tail ++ [c]). split; [exact Hl|].
      split; [subst done; now rewrite app_assoc|]. intro; contradiction.
Qed.

Lemma scan_fold_inv (text : str) :
  forall done acc,
    scan_inv done acc -> scan_inv (done ++ text) (fold_left scan_char text acc).
Proof.
  induction text as [|c text IH]; intros done acc H.
  - now rewrite app_nil_r.
  - cbn [fold_left]. replace (done ++ c :: text) with ((done ++ [c]) ++ text)
      by now rewrite <- app_assoc.
    apply IH. now apply scan_char_inv.
Qed.

Lemma slice_inside (i j : nat) (s : str) :
  exists pre post, s = pre ++ slice i j s ++ post.
Proof.
  exists (firstn i s), (skipn (j - i) (skipn i s)). unfold slice.
  now rewrite firstn_skipn, firstn_skipn.
Qed.

(** X10. The groups pulled from the header of an RTF text are whole top-level
    groups: each opens with a brace that only its last character closes (so
    braces are balanced inside it), and they are pieces of the text, in the
    order of the text and without overlap. *)
Theorem header_groups_are_whole_groups_of_the_text (rtf_text : str) :
  Forall top_level_group (extract_groups_from_rtf_header rtf_text)
  /\ exists dropped before rest,
       List.length dropped = List.length (extract_groups_from_rtf_header rtf_text)
       /\ rtf_text
          = before ++ interleave dropped (extract_groups_from_rtf_header rtf_text) ++ rest.
Proof.
  unfold extract_groups_from_rtf_header.
  destruct (Re.search DOTALL header_pattern rtf_text) as [m|];
    [|split; [constructor | exists [], [], rtf_text; split; reflexivity]].
  unfold Re.group. destruct (lookup_cap 2 (m_caps m)) as [[i j]|];
    [|split; [constructor | exists [], [], rtf_text; split; reflexivity]].
  pose proof (@scan_fold_inv (slice i j rtf_text) [] ([], 0%Z, [])) as H.
  destruct (fold_left scan_char (slice i j rtf_text) ([], 0%Z, [])) as [[groups depth] buf].
  destruct H as (Hg & (dropped & tail & Hl & Hd & _) & _).
  { split; [constructor|]. split; [|lia]. exists [], []. repeat split. lia. }
  split; [exact Hg|].
  destruct (slice_inside i j rtf_text) as (pre & post & Hs).
  exists dropped, pre, (tail ++ post). split; [exact Hl|].
  cbn [List.app] in Hd. rewrite Hd in Hs. now rewrite <- app_assoc in Hs.
Qed.

(* ================================================================== *)
(** ** More properties: the order of the table *)
(* ================================================================== *)

Section SortFacts.

Variable A : Type.
Variable ltb : A -> A -> bool.
Hypothesis ltb_asym : forall a b, ltb a b = true -> ltb b a = false.
Hypothesis ltb_ntrans :
  forall a b c, ltb b a = false -> ltb c b = false -> ltb c a = false.

Let leb (a b : A) : Prop := ltb b a = false.

Lemma insert_sorted_sorted (x : A) (l : list A) :
  StronglySorted leb l -> StronglySorted leb (insert_sorted ltb x l).
Proof.
  induction l as [|y l IH]; intro Hs; cbn [insert_sorted].
  - constructor; constructor.
  - inversion Hs as [|? ? Hs' Hall]; subst. destruct (ltb y x) eqn:Hyx.
    + constructor; [now apply IH|].
      apply Forall_forall. intros z Hz.
      apply (Permutation_in _ (insert_sorted_perm ltb x l)) in Hz.
      destruct Hz as [<-|Hz]; [now apply ltb_asym|].
      rewrite Forall_forall in Hall. now apply Hall.
    + constructor; [exact Hs|]. constructor; [exact Hyx|].
      apply Forall_forall. intros z Hz. rewrite Forall_forall in Hall.
      apply (ltb_ntrans Hyx). now apply Hall.
Qed.

Lemma sort_by_sorted (l : list A) : StronglySorted leb (sort_by ltb l).
Proof.
  induction l as [|x l IH]; cbn [sort_by]; [constructor|].
  now apply insert_sorted_sorted.
Qed.

(** Stability: elements that the order does not tell apart keep their
    places relative to each other. *)
Lemma insert_sorted_filter (P : A -> bool) (x : A) (l : list A) :
  (forall a b, P a = true -> P b = true -> ltb a b = false) ->
  filter P (insert_sorted ltb x l) = filter P (x :: l).
Proof.
  intro HP. induction l as [|y l IH]; cbn [insert_sorted]; [reflexivity|].
  destruct (ltb y x) eqn:Hyx; [|reflexivity].
  cbn [filter] in IH |- *. rewrite IH.
  destruct (P y) eqn:Py; [|reflexivity].
  destruct (P x) eqn:Px; [|reflexivity].
  rewrite (HP y x Py Px) in Hyx. discriminate.
Qed.

Lemma sort_by_filter (P : A -> bool) (l : list A) :
  (forall a b, P a = true -> P b = true -> ltb a b = false) ->
  filter P (sort_by ltb l) = filter P l.
Proof.
  intro HP. induction l as [|x l IH]; cbn [sort_by]; [reflexivity|].
  rewrite insert_sorted_filter by exact HP. cbn [filter]. now rewrite IH.
Qed.

End SortFacts.

Lemma strongly_sorted_nth (A : Type) (R : A -> A -> Prop) (l : list A) :
  StronglySorted R l ->
  forall i j a b, (i < j)%nat -> nth_error l i = Some a -> nth_error l j = Some b -> R a b.
Proof.
  induction 1 as [|x l Hs IH Hall]; intros i j a b Hij Ha Hb.
  - destruct i; discriminate.
  - destruct j as [|j]; [lia|]. cbn [nth_error] in Hb. destruct i as [|i].
    + cbn in Ha. inversion Ha; subst. rewrite Forall_forall in Hall.
      apply Hall. eapply nth_error_In; eauto.
    + cbn [nth_error] in Ha. apply (IH i j); auto. lia.
Qed.

(** Python's order on keys is a strict total order. *)
Lemma path_ltb_asym (a : list Z) : forall b, path_ltb a b = true -> path_ltb b a = false.
Proof.
  induction a as [|x a IH]; intros [|y b]; cbn [path_ltb]; try easy.
  intro H. apply orb_true_iff in H. apply orb_false_iff.
  destruct H as [H|H].
  - apply Z.ltb_lt in H. split; [apply Z.ltb_ge; lia|].
    apply andb_false_iff. left. apply Z.eqb_neq. lia.
  - apply andb_true_iff in H. destruct H as [He Hl]. apply Z.eqb_eq in He. subst y.
    split; [apply Z.ltb_irrefl|]. rewrite Z.eqb_refl. cbn. now apply IH.
Qed.

Lemma path_ltb_ntrans (a : list Z) :
  forall b c, path_ltb b a = false -> path_ltb c b = false -> path_ltb c a = false.
Proof.
  induction a as [|x a IH]; intros [|y b] [|z c]; cbn [path_ltb]; try easy.
  intros H1 H2. apply orb_false_iff in H1, H2. apply orb_false_iff.
  destruct H1 as [H1 H1'], H2 as [H2 H2'].
  apply Z.ltb_ge in H1, H2. split; [apply Z.ltb_ge; lia|].
  destruct (z =? x)%Z eqn:Ezx; [|reflexivity]. apply Z.eqb_eq in Ezx. subst z.
  assert (y = x) by lia. subst y. rewrite Z.eqb_refl in H1', H2'. cbn in H1', H2' |- *.
  now apply (IH b c).
Qed.

Lemma key_ltb_asym (a b : sort_key) : key_ltb a b = true -> key_ltb b a = false.
Proof.
  unfold key_ltb. intro H. apply orb_true_iff in H. apply orb_false_iff.
  destruct H as [H|H].
  - apply Z.ltb_lt in H. split; [apply Z.ltb_ge; lia|].
    apply andb_false_iff. left. apply Z.eqb_neq. lia.
  - apply andb_true_iff in H. destruct H as [He Hl]. apply Z.eqb_eq in He. rewrite He.
    split; [apply Z.ltb_irrefl|]. rewrite Z.eqb_refl. cbn. now apply path_ltb_asym.
Qed.

Lemma key_ltb_ntrans (a b c : sort_key) :
  key_ltb b a = false -> key_ltb c b = false -> key_ltb c a = false.
Proof.
  destruct a as [ra pa], b as [rb pb], c as [rc pc]. unfold key_ltb. cbn [fst snd].
  intros H1 H2. apply orb_false_iff in H1, H2. apply orb_false_iff.
  destruct H1 as [H1 H1'], H2 as [H2 H2'].
  apply Z.ltb_ge in H1, H2. split; [apply Z.ltb_ge; lia|].
  destruct (rc =? ra)%Z eqn:Eca; [|reflexivity]. apply Z.eqb_eq in Eca. subst rc.
  assert (rb = ra) by lia. subst rb. rewrite Z.eqb_refl in H1', H2'.
  cbn in H1', H2' |- *. exact (path_ltb_ntrans _ _ _ H1' H2').
Qed.

Lemma path_eqb_eq (a : list Z) : forall b, path_eqb a b = true -> a = b.
Proof.
  unfold path_eqb. induction a as [|x a IH]; intros [|y b]; cbn; try easy.
  intro H. apply andb_true_iff in H. destruct H as [Hl H].
  apply andb_true_iff in H. destruct H as [Hx H]. apply Z.eqb_eq in Hx. subst y.
  f_equal. apply IH. now rewrite Hl, H.
Qed.

Lemma sort_key_eqb_eq (a b : sort_key) : sort_key_eqb a b = true -> a = b.
Proof.
  unfold sort_key_eqb. destruct a as [ra pa], b as [rb pb]. cbn [fst snd].
  intro H. apply andb_true_iff in H. destruct H as [Hr Hp].
  apply Z.eqb_eq in Hr. apply path_eqb_eq in Hp. congruence.
Qed.

Lemma path_ltb_irrefl (a : list Z) : path_ltb a a = false.
Proof.
  induction a as [|x a IH]; [reflexivity|]. cbn [path_ltb].
  now rewrite Z.ltb_irrefl, Z.eqb_refl, IH.
Qed.

Lemma key_ltb_irrefl (a : sort_key) : key_ltb a a = false.
Proof. unfold key_ltb. now rewrite Z.ltb_irrefl, Z.eqb_refl, path_ltb_irrefl. Qed.

Lemma keyed_keys (rows : list row) :
  forall krs, keyed rows = Some krs ->
  Forall (fun kr => parse_sort_key (bookmark_of (snd kr)) = Some (fst kr)) krs.
Proof.
  induction rows as [|r rows IH]; cbn [keyed]; intros krs H.
  - inversion H. constructor.
  - destruct (parse_sort_key (bookmark_of r)) as [k|] eqn:Hk; [|discriminate].
    destruct (keyed rows) as [krs'|]; [|discriminate].
    inversion H; subst. constructor; [exact Hk | now apply IH].
Qed.

Lemma sorted_pairs_in_key_order (krs : list (sort_key * row)) :
  Forall (fun kr => parse_sort_key (bookmark_of (snd kr)) = Some (fst kr)) krs ->
  StronglySorted (fun a b => key_ltb (fst b) (fst a) = false) krs ->
  in_key_order (map snd krs).
Proof.
  intros Hk Hs i j ri rj ki kj Hij Hi Hj Hki Hkj.
  rewrite nth_error_map in Hi, Hj.
  destruct (nth_error krs i) as [[ki' ri']|] eqn:Ei; [|discriminate].
  destruct (nth_error krs j) as [[kj' rj']|] eqn:Ej; [|discriminate].
  cbn in Hi, Hj. inversion Hi; inversion Hj; subst.
  rewrite Forall_forall in Hk.
  pose proof (Hk _ (nth_error_In _ _ Ei)) as H1.
  pose proof (Hk _ (nth_error_In _ _ Ej)) as H2. cbn [fst snd] in H1, H2.
  assert (ki' = ki) by congruence. assert (kj' = kj) by congruence. subst.
  exact (strongly_sorted_nth Hs Hij Ei Ej).
Qed.

Lemma sort_rows_in_key_order (rows sorted_rows : list row) :
  sort_rows rows = Some sorted_rows ->
  in_key_order sorted_rows
  /\ forall k, rows_with_key k sorted_rows = rows_with_key k rows.
Proof.
  unfold sort_rows. destruct (keyed rows) as [krs|] eqn:Hk; [|discriminate].
  intro H; inversion H; subst; clear H.
  pose proof (keyed_keys _ Hk) as Hkeys.
  destruct (keyed_total rows) as (krs' & Hk' & Hrows).
  assert (krs' = krs) by congruence. subst krs'.
  set (cmp := fun a b : sort_key * row => key_ltb (fst a) (fst b)).
  assert (Hperm : Permutation (sort_by cmp krs) krs) by apply sort_by_perm.
  split.
  - apply sorted_pairs_in_key_order.
    + apply Forall_forall. intros kr Hin. rewrite Forall_forall in Hkeys.
      apply Hkeys. now apply (Permutation_in _ Hperm).
    + apply (@sort_by_sorted _ cmp).
      * intros a b. apply key_ltb_asym.
      * intros a b c. apply key_ltb_ntrans.
  - intro k. unfold rows_with_key.
    assert (Hf : forall l : list (sort_key * row),
               Forall (fun kr => parse_sort_key (bookmark_of (snd kr)) = Some (fst kr)) l ->
               filter (fun r => match parse_sort_key (bookmark_of r) with
                                | Some k' => sort_key_eqb k k'
                                | None => false
                                end) (map snd l)
               = map snd (filter (fun kr => sort_key_eqb k (fst kr)) l)).
    { induction l as [|[k0 r0] l IH]; intro Hl; [reflexivity|].
      inversion Hl as [|? ? H0 Hl']; subst. cbn [map filter fst snd] in *.
      rewrite H0, (IH Hl'). now destruct (sort_key_eqb k k0). }
    rewrite <- Hrows, !Hf; [|exact Hkeys|].
    + f_equal. apply sort_by_filter. intros a b Ha Hb. unfold cmp.
      apply sort_key_eqb_eq in Ha, Hb. rewrite <- Ha, <- Hb. apply key_ltb_irrefl.
    + apply Forall_forall. intros kr Hin. rewrite Forall_forall in Hkeys.
      apply Hkeys. now apply (Permutation_in _ Hperm).
Qed.

(* ================================================================== *)
(** ** More properties: the rescan *)
(* ================================================================== *)



Lemma filter_all (A : Type) (p : A -> bool) (l : list A) :
  (forall x, In x l -> p x = true) -> filter p l = l.
Proof.
  induction l as [|x l IH]; intro H; [reflexivity|]. cbn [filter].
  rewrite (H x) by now left. f_equal. apply IH. intros y Hy. apply H. now right.
Qed.

Lemma filter_none (A : Type) (p : A -> bool) (l : list A) :
  (forall x, In x l -> p x = false) -> filter p l = [].
Proof.
  induction l as [|x l IH]; intro H; [reflexivity|]. cbn [filter].
  rewrite (H x) by now left. apply IH. intros y Hy. apply H. now right.
Qed.

Section RescanMore.

Variable os_path_basename : str -> str.
Variable os_path_join : str -> str -> str.
Variable os_listdir : str -> list str.
Variable read_rtf : str -> option str.
Variable read_pdf_page1 : str -> option str.
Variable read_docx : str -> option docx_document.

Let new_row_of := new_row os_path_basename os_path_join read_rtf read_pdf_page1 read_docx.
Let rescan := refresh_folder os_path_basename os_path_join os_listdir
                             read_rtf read_pdf_page1 read_docx.
Let kept := kept_rows os_listdir.
Let added := added_rows os_path_basename os_path_join os_listdir
                        read_rtf read_pdf_page1 read_docx.

(** X11. A rescan of a folder that can be read, with a table that is not
    yet marked as sorted, puts the table in the order of the sort keys,
    provided the bookmarks of the rows it collects are plain (ASCII text of
    at most 4300 characters): every row has a key, no row has a key below
    that of a row before it, and rows with the same key stay in the order in
    which the rescan collected them (rows already in the table first, then
    the new files in the order RTF, PDF, DOCX and by name); the table is
    then marked as sorted.  The mark is never cleared: a rescan of a marked
    table leaves the rows as it collected them, without sorting, also after
    another folder is chosen.  So only the first rescan that finds a folder
    selected sorts the table. *)
Theorem first_rescan_puts_the_table_in_key_order (self : TLFApp) :
  truthy (out_folder self) = true ->
  forallb (fun r => plain (bookmark_of r)) (kept self ++ added self) = true ->
  (sorted_once self = false ->
   exists self',
     rescan self = Some self'
     /\ sorted_once self' = true
     /\ (forall r, In r (table_data self') ->
           exists k, parse_sort_key (bookmark_of r) = Some k)
     /\ in_key_order (table_data self')
     /\ forall k,
          rows_with_key k (table_data self')
          = rows_with_key k (kept self ++ added self))
  /\ (sorted_once self = true ->
      rescan self = Some {| out_folder := out_folder self;
                            table_data := kept self ++ added self;
                            sorted_once := true |}).
Proof.
  intros Hf _. split; intro Hs.
  - unfold rescan, refresh_folder. rewrite Hf, Hs. cbn [negb]. cbv zeta.
    fold (kept_rows os_listdir self). fold (kept self).
    change (map _ (filter _ (file_list_of os_listdir (out_folder self))))
      with (added self).
    destruct (sort_rows_perm (kept self ++ added self)) as (t' & Ht & _).
    rewrite Ht. eexists. split; [reflexivity|]. cbn [sorted_once table_data].
    split; [reflexivity|]. split; [intros r _; apply parse_sort_key_total|].
    now apply sort_rows_in_key_order.
  - unfold rescan, refresh_folder. rewrite Hf, Hs. reflexivity.
Qed.





End RescanMore.

Lemma first_rescan_puts_the_table_in_key_order_witness :
  exists self',
    refresh_folder (fun p => p) (fun folder name => folder ++ py "/" ++ name)
                   sample_listing (@no_file str) (@no_file str)
                   (@no_file docx_document) sample_unsorted_app = Some self'
    /\ in_key_order (table_data self')
    /\ map bookmark_of (table_data self') = [py "Table 14.1"; py "Listing 16.2.1"].
Proof.
  destruct (@first_rescan_puts_the_table_in_key_order
              (fun p => p) (fun folder name => folder ++ py "/" ++ name)
              sample_listing (@no_file str) (@no_file str) (@no_file docx_document)
              sample_unsorted_app eq_refl) as [Hfirst _]; [vm_compute; reflexivity|].
  destruct (Hfirst eq_refl) as (self' & Hr & _ & _ & Ho & _).
  exists self'. split; [exact Hr|]. split; [exact Ho|].
  vm_compute in Hr. inversion Hr. reflexivity.
Defined.


Lemma NoDup_map_pair (A B : Type) (t : A) (l : list B) :
  NoDup l -> NoDup (map (fun f => (t, f)) l).
Proof.
  induction 1 as [|x l Hn Hd IH]; cbn [map]; constructor; [|exact IH].
  intro Hin. apply in_map_iff in Hin. destruct Hin as (y & Hy & Hin).
  inversion Hy; subst. contradiction.
Qed.

Lemma endswith_one_extension (name : str) :
  (endswith name (py ".rtf") = true -> endswith name (py ".pdf") = false)
  /\ (endswith name (py ".rtf") = true -> endswith name (py ".docx") = false)
  /\ (endswith name (py ".pdf") = true -> endswith name (py ".docx") = false).
Proof.
  unfold endswith.
  change (rev (py ".rtf")) with ([102; 116; 114; 46] : str).
  change (rev (py ".pdf")) with ([102; 100; 112; 46] : str).
  change (rev (py ".docx")) with ([120; 99; 111; 100; 46] : str).
  destruct (rev name) as [|c1 [|c2 t]]; cbn [startswith]; unfold char_eqb.
  - repeat split; discriminate.
  - rewrite !andb_false_r. repeat split; discriminate.
  - destruct (N.eqb_spec 102 c1) as [<-|H1]; cbn [andb];
      [|repeat split; discriminate].
    change (120 =? 102) with false. cbn [andb].
    destruct (N.eqb_spec 116 c2) as [<-|H2]; cbn [andb].
    + change (100 =? 116) with false. cbn [andb]. repeat split; discriminate || reflexivity.
    + repeat split; discriminate || reflexivity.
Qed.

Section ListingFacts.

Variable os_listdir : str -> list str.

Lemma files_with_In (folder ext fname : str) :
  In fname (files_with os_listdir folder ext)
  <-> In fname (os_listdir folder)
      /\ endswith (lower fname) ext = true
      /\ startswith fname (py "~$") = false.
Proof.
  unfold files_with, sorted. split.
  - intro H. apply (Permutation_in _ (sort_by_perm str_ltb _)) in H.
    apply filter_In in H. destruct H as [Hin Hp].
    apply andb_true_iff in Hp. destruct Hp as [He Hs].
    apply negb_true_iff in Hs. auto.
  - intros (Hin & He & Hs).
    apply (Permutation_in _ (Permutation_sym (sort_by_perm str_ltb _))).
    apply filter_In. split; [exact Hin|]. now rewrite He, Hs.
Qed.

Lemma files_with_NoDup (folder ext : str) :
  NoDup (os_listdir folder) -> NoDup (files_with os_listdir folder ext).
Proof.
  intro H. unfold files_with, sorted.
  apply (Permutation_NoDup (Permutation_sym (sort_by_perm str_ltb _))).
  now apply NoDup_filter.
Qed.

Lemma file_list_In (folder ftype fname : str) :
  In (ftype, fname) (file_list_of os_listdir folder)
  <-> In fname (os_listdir folder)
      /\ startswith fname (py "~$") = false
      /\ exists ext, In (ftype, ext) extension_of /\ endswith (lower fname) ext = true.
Proof.
  unfold file_list_of. rewrite !in_app_iff, !in_map_iff. split.
  - intros [(f & He & Hin)|[(f & He & Hin)|(f & He & Hin)]];
      inversion He; subst; apply files_with_In in Hin;
      destruct Hin as (Hin & Hext & Hs); (split; [exact Hin|]); (split; [exact Hs|]).
    + exists (py ".rtf"). split; [left; reflexivity | exact Hext].
    + exists (py ".pdf"). split; [right; left; reflexivity | exact Hext].
    + exists (py ".docx"). split; [right; right; left; reflexivity | exact Hext].
  - intros (Hin & Hs & ext & Hext & He).
    destruct Hext as [Hx|[Hx|[Hx|[]]]]; inversion Hx; subst.
    + left. exists fname. split; [reflexivity|]. now apply files_with_In.
    + right; left. exists fname. split; [reflexivity|]. now apply files_with_In.
    + right; right. exists fname. split; [reflexivity|]. now apply files_with_In.
Qed.

Lemma file_list_NoDup (folder : str) :
  NoDup (os_listdir folder) -> NoDup (file_list_of os_listdir folder).
Proof.
  intro Hn. unfold file_list_of.
  apply NoDup_app; [apply NoDup_map_pair, files_with_NoDup, Hn| |].
  - apply NoDup_app;
      [apply NoDup_map_pair, files_with_NoDup, Hn
      |apply NoDup_map_pair, files_with_NoDup, Hn|].
    intros [t f] H1 H2. apply in_map_iff in H1, H2.
    destruct H1 as (f1 & E1 & _), H2 as (f2 & E2 & _).
    rewrite <- E1 in E2. inversion E2.
  - intros [t f] H1 H2. apply in_map_iff in H1. destruct H1 as (f1 & E1 & _).
    apply in_app_or in H2. destruct H2 as [H2|H2];
      apply in_map_iff in H2; destruct H2 as (f2 & E2 & _);
      rewrite <- E1 in E2; inversion E2.
Qed.

(** X13. The files that a rescan looks at are the entries of the folder
    whose name ends, whatever the letter case, with .rtf, .pdf or .docx and
    does not begin with the mark of a Word lock file; each is listed under
    the type of its extension and under no other type, and a folder that
    lists no name twice gives a file list without repetition. *)
Theorem file_list_has_each_document_once (folder : str) :
  (forall ftype fname,
     In (ftype, fname) (file_list_of os_listdir folder)
     <-> In fname (os_listdir folder)
         /\ startswith fname (py "~$") = false
         /\ exists ext, In (ftype, ext) extension_of /\ endswith (lower fname) ext = true)
  /\ (forall ftype ftype' fname,
        In (ftype, fname) (file_list_of os_listdir folder) ->
        In (ftype', fname) (file_list_of os_listdir folder) ->
        ftype = ftype')
  /\ (NoDup (os_listdir folder) -> NoDup (file_list_of os_listdir folder)).
Proof.
  split; [intros; apply file_list_In|]. split; [|apply file_list_NoDup].
  intros ftype ftype' fname H1 H2.
  apply file_list_In in H1, H2.
  destruct H1 as (_ & _ & e1 & Hx1 & He1), H2 as (_ & _ & e2 & Hx2 & He2).
  destruct (endswith_one_extension (lower fname)) as (Hrp & Hrd & Hpd).
  destruct Hx1 as [Hx1|[Hx1|[Hx1|[]]]]; inversion Hx1; subst;
    destruct Hx2 as [Hx2|[Hx2|[Hx2|[]]]]; inversion Hx2; subst;
    try reflexivity; exfalso;
    repeat match goal with
           | H : ?a = true -> _, H' : ?a = true |- _ => specialize (H H')
           end; congruence.
Qed.

End ListingFacts.

Section OneRowPerFile.

Variable os_path_basename : str -> str.
Variable os_path_join : str -> str -> str.
Variable os_listdir : str -> list str.
Variable read_rtf : str -> option str.
Variable read_pdf_page1 : str -> option str.
Variable read_docx : str -> option docx_document.

Let new_row_of := new_row os_path_basename os_path_join read_rtf read_pdf_page1 read_docx.
Let rescan := refresh_folder os_path_basename os_path_join os_listdir
                             read_rtf read_pdf_page1 read_docx.


End OneRowPerFile.

Lemma file_list_has_each_document_once_witness :
  NoDup (sample_listing (py "out"))
  /\ NoDup (file_list_of sample_listing (py "out"))
  /\ file_list_of sample_listing (py "out")
     = [(py "RTF", py "t_ae.rtf"); (py "PDF", py "f_km.pdf")].
Proof.
  assert (H : NoDup (sample_listing (py "out"))).
  { unfold sample_listing. repeat constructor; cbn; intuition discriminate. }
  split; [exact H|]. split; [|vm_compute; reflexivity].
  exact (proj2 (proj2 (file_list_has_each_document_once sample_listing (py "out"))) H).
Defined.


(* ================================================================== *)
(** ** More properties: sort keys *)
(* ================================================================== *)

Lemma skipn_prefix_length (p : char -> bool) (s : str) :
  skipn (prefix_length p s) s = dropwhile p s.
Proof.
  induction s as [|c t IH]; [reflexivity|]. cbn [prefix_length dropwhile].
  destruct (p c); [exact IH | reflexivity].
Qed.

(** A greedy repetition of one character class reads the longest run. *)
Lemma star_step_reads_run (accepts : char -> bool)
  (body : state -> (state -> option state) -> option state) (fuel : nat) :
  (forall st k, body st k = step accepts st k) ->
  forall st,
    (List.length (rest st) <= fuel)%nat ->
    exists st',
      star_loop true body Some fuel st = Some st'
      /\ pos st' = (pos st + prefix_length accepts (rest st))%nat
      /\ caps st' = caps st.
Proof.
  intro Hbody. induction fuel as [|fuel IH]; intros st Hl.
  - destruct (rest st) eqn:Hr; [|cbn in Hl; lia].
    exists st. cbn [star_loop prefix_length]. split; [reflexivity|]. split; [lia|reflexivity].
  - cbn [star_loop]. rewrite Hbody. unfold step.
    destruct (rest st) as [|c t] eqn:Hr.
    + exists st. cbn [prefix_length]. split; [reflexivity|]. split; [lia|reflexivity].
    + cbn [prefix_length]. destruct (accepts c) eqn:Hp.
      * cbn [advance pos].
        assert (Hlt : (pos st <? S (pos st))%nat = true) by (apply Nat.ltb_lt; lia).
        rewrite Hlt.
        destruct (IH (advance c t st)) as (st' & Hs & Hpos & Hcaps).
        { cbn [advance rest]. cbn [List.length] in Hl. lia. }
        rewrite Hs. exists st'. split; [reflexivity|].
        cbn [advance pos rest caps] in Hpos, Hcaps. split; [lia | exact Hcaps].
      * exists st. split; [reflexivity|]. split; [lia|reflexivity].
Qed.

Lemma prefix_length_ext (p q : char -> bool) (s : str) :
  (forall c, p c = q c) -> prefix_length p s = prefix_length q s.
Proof.
  intro H. induction s as [|c t IH]; [reflexivity|]. cbn [prefix_length].
  now rewrite H, IH.
Qed.

(** A pattern that begins with "^" matches nowhere but at the start. *)
Lemma sub_from_anchored (r : re) (repl : str) (skip : nat) :
  forall p pv t,
    (0 < skip)%nat \/ pv <> None ->
    sub_from no_flags (Seq Bol r) repl skip p pv t = skipn skip t.
Proof.
  assert (H0 : forall t p c,
             sub_from no_flags (Seq Bol r) repl 0 p (Some c) t = t).
  { induction t as [|c' t IH]; intros p c; cbn [sub_from];
      unfold match_at; cbn [run start_state prev]; [reflexivity|].
    now rewrite IH. }
  induction skip as [|k IH]; intros p pv t Hs.
  - destruct Hs as [Hs|Hs]; [lia|]. destruct pv as [c|]; [|congruence]. apply H0.
  - cbn [sub_from skipn]. destruct t as [|c t]; [reflexivity|].
    apply IH. right. discriminate.
Qed.

Lemma nonletter_class (c : char) :
  xorb true (class_has no_flags [range "a" "z"; range "A" "Z"] c) = nonletter c.
Proof.
  unfold class_has, nonletter, isalpha, isupper, islower.
  cbn [existsb item_has ignorecase no_flags andb orb range].
  change (ch "a") with 97. change (ch "z") with 122.
  change (ch "A") with 65. change (ch "Z") with 90.
  destruct (in_range 97 122 c), (in_range 65 90 c); reflexivity.
Qed.

(** What "re.sub(r'^[^a-zA-Z]*', '', text)" gives. *)
Lemma key_text_drops_leading_nonletters (bookmark : str) :
  key_text bookmark = dropwhile nonletter (lower bookmark).
Proof.
  unfold key_text, Re.sub. generalize (lower bookmark) as text. intro text.
  assert (Hm : match_at no_flags leading_nonletters_pattern 0 None text
               = Some {| m_start := 0; m_end := prefix_length nonletter text;
                         m_caps := [] |}).
  { unfold match_at, leading_nonletters_pattern. cbn [run start_state prev rest].
    match goal with
    | |- context [star_loop true ?body Some ?fuel ?st0] =>
        destruct (@star_step_reads_run
                    (fun c => xorb true
                                (class_has no_flags [range "a" "z"; range "A" "Z"] c))
                    body fuel (fun s1 k1 => eq_refl) st0) as (st' & Hs & Hpos & Hcaps);
          [apply Nat.le_refl|]; rewrite Hs
    end.
    cbn [pos rest caps Nat.add] in Hpos, Hcaps.
    rewrite (prefix_length_ext _ nonletter _ nonletter_class) in Hpos.
    now rewrite Hpos, Hcaps. }
  destruct text as [|c t]; cbn [sub_from]; rewrite Hm; [reflexivity|].
  unfold leading_nonletters_pattern.
  cbn [m_end List.app prefix_length dropwhile]. destruct (nonletter c) eqn:Hc.
  - cbn [Nat.eqb]. rewrite sub_from_anchored by (right; discriminate).
    replace (S (prefix_length nonletter t) - 0 - 1)%nat with (prefix_length nonletter t)
      by lia.
    apply skipn_prefix_length.
  - cbn [Nat.eqb]. f_equal.
    rewrite sub_from_anchored by (right; discriminate). reflexivity.
Qed.

Lemma dropwhile_app_all (p : char -> bool) (junk s : str) :
  forallb p junk = true -> dropwhile p (junk ++ s) = dropwhile p s.
Proof.
  induction junk as [|c junk IH]; cbn [forallb List.app dropwhile]; [reflexivity|].
  intro H. apply andb_true_iff in H. destruct H as [Hc Hj]. rewrite Hc. now apply IH.
Qed.

Lemma lower_nonletters (junk : str) :
  forallb nonletter junk = true -> lower junk = junk.
Proof.
  unfold lower. induction junk as [|c junk IH]; cbn [forallb map]; [reflexivity|].
  intro H. apply andb_true_iff in H. destruct H as [Hc Hj]. rewrite (IH Hj). f_equal.
  unfold nonletter, isalpha in Hc. unfold lower_char.
  destruct (isupper c); [discriminate | reflexivity].
Qed.

Lemma parse_sort_key_of_key_text (b1 b2 : str) :
  key_text b1 = key_text b2 -> parse_sort_key b1 = parse_sort_key b2.
Proof. unfold parse_sort_key, key_text. cbv zeta. now intros ->. Qed.

(** X15. For ASCII text, the sort key does not depend on the characters
    before the first letter of the bookmark (numbering, bullets, blanks) nor
    on the case of its letters: a bookmark made of characters that are not
    letters followed by [b1] has the key of [b2] whenever [b1] and [b2]
    differ in letter case only. *)
Theorem sort_key_ignores_case_and_leading_nonletters (junk b1 b2 : str) :
  is_ascii junk = true -> is_ascii b1 = true -> is_ascii b2 = true ->
  forallb nonletter junk = true ->
  lower b1 = lower b2 ->
  parse_sort_key (junk ++ b1) = parse_sort_key b2.
Proof.
  intros _ _ _ Hj Hl. apply parse_sort_key_of_key_text.
  rewrite !key_text_drops_leading_nonletters.
  unfold lower at 1. rewrite map_app. fold (lower junk). fold (lower b1).
  rewrite (lower_nonletters _ Hj), dropwhile_app_all by exact Hj. now rewrite Hl.
Qed.

Lemma sort_key_ignores_case_and_leading_nonletters_witness :
  parse_sort_key (py "1.2 - " ++ py "TABLE 14.1 Demographics")
  = parse_sort_key (py "Table 14.1 DEMOGRAPHICS")
  /\ parse_sort_key (py "Table 14.1 DEMOGRAPHICS") = Some (0%Z, [14; 1]%Z).
Proof.
  split; [|vm_compute; reflexivity].
  apply sort_key_ignores_case_and_leading_nonletters; vm_compute; reflexivity.
Defined.

Lemma first_category_rank (text : str) (keys : list (str * Z)) r p :
  first_category text keys = Some (r, p) ->
  In r (map snd keys) \/ (r = 99%Z /\ p = [0%Z]).
Proof.
  induction keys as [|[key rank] keys IH]; cbn [first_category map snd]; intro H.
  - right. inversion H. auto.
  - destruct (contains key text).
    + left. left.
      destruct (Re.search no_flags dotted_number_pattern text) as [m|].
      * destruct (Re.group text m 1) as [g|]; [|discriminate].
        destruct (ints _) as [ns|]; [|discriminate]. now inversion H.
      * now inversion H.
    + destruct (IH H) as [Hin|Hd]; [left; now right | now right].
Qed.

Lemma group_length (text : str) (m : mtch) (n : nat) (g : str) :
  Re.group text m n = Some g -> (List.length g <= List.length text)%nat.
Proof.
  unfold Re.group. destruct (lookup_cap n (m_caps m)) as [[i j]|]; [|discriminate].
  intro H; inversion H; subst. unfold slice.
  rewrite length_firstn, length_skipn. lia.
Qed.

Lemma split_at_length (sep : char -> bool) (s : str) :
  forall cur x,
    In x (split_at sep cur s) ->
    (List.length x <= List.length cur + List.length s)%nat.
Proof.
  induction s as [|c t IH]; intros cur x; cbn [split_at In List.length].
  - intros [<-|[]]. rewrite length_rev. lia.
  - destruct (sep c); cbn [In].
    + intros [<-|Hin]; [rewrite length_rev; lia|].
      apply IH in Hin. cbn [List.length] in Hin. lia.
    + intro Hin. apply IH in Hin. cbn [List.length] in Hin. lia.
Qed.

Lemma dropwhile_length (p : char -> bool) (s : str) :
  (List.length (dropwhile p s) <= List.length s)%nat.
Proof.
  induction s as [|c t IH]; cbn [dropwhile List.length]; [lia|].
  destruct (p c); cbn [List.length]; lia.
Qed.

Lemma key_text_length (bookmark : str) :
  (List.length (key_text bookmark) <= List.length bookmark)%nat.
Proof.
  rewrite key_text_drops_leading_nonletters.
  etransitivity; [apply dropwhile_length|]. unfold lower. now rewrite length_map.
Qed.

(** X16. Computing the sort key of a plain bookmark (ASCII text of at most
    4300 characters) never raises: the key has rank 0, 1 or 2 (Table,
    Listing, Figure), rank 3 (Appendix) with a path of one number, or rank 99
    with the path [0], and its path is a non-empty list of natural numbers.
    No number that is read from such a bookmark is too long for [int]: the
    digits after "appendix" and the pieces of the dotted number have at most
    4300 digits. *)
Theorem every_bookmark_has_a_sort_key (bookmark : str) :
  plain bookmark = true ->
  (exists r p,
     parse_sort_key bookmark = Some (r, p)
     /\ p <> []
     /\ Forall (fun n => (0 <= n)%Z) p
     /\ (In r [0; 1; 2]%Z
         \/ (r = 3%Z /\ List.length p = 1%nat)
         \/ (r = 99%Z /\ p = [0%Z])))
  /\ (forall m g,
        Re.search no_flags appendix_number_pattern (key_text bookmark) = Some m ->
        Re.group (key_text bookmark) m 1 = Some g ->
        (List.length g <= int_max_str_digits)%nat)
  /\ (forall m g x,
        Re.search no_flags dotted_number_pattern (key_text bookmark) = Some m ->
        Re.group (key_text bookmark) m 1 = Some g ->
        In x (split_char (ch ".") g) ->
        (List.length x <= int_max_str_digits)%nat).
Proof.
  intro Hplain. unfold plain in Hplain. apply andb_true_iff in Hplain.
  destruct Hplain as [_ Hlen]. apply Nat.leb_le in Hlen.
  pose proof (key_text_length bookmark) as Htext.
  split; [|split].
  - destruct (parse_sort_key_total bookmark) as ([r p] & Hk).
    exists r, p. split; [exact Hk|].
    destruct (parse_sort_key_path _ Hk) as [Hne Hnat].
    split; [exact Hne|]. split; [exact Hnat|].
    revert Hk. unfold parse_sort_key. cbv zeta.
    destruct (contains (py "appendix") _).
    + destruct (Re.search no_flags appendix_number_pattern _) as [m|].
      * destruct (Re.group _ m 1) as [g|]; [|discriminate].
        destruct (py_int g) as [n|]; [|discriminate].
        intro H; inversion H; subst. right; left. auto.
      * intro H; inversion H; subst. right; left. auto.
    + intro H. apply first_category_rank in H.
      destruct H as [H|H]; [left | right; right]; exact H.
  - intros m g _ Hg. apply group_length in Hg. lia.
  - intros m g x _ Hg Hx. apply group_length in Hg.
    unfold split_char in Hx. apply split_at_length in Hx. cbn [List.length] in Hx. lia.
Qed.

Lemma every_bookmark_has_a_sort_key_witness :
  plain (py "Figure 14.2.1.3 Kaplan-Meier Plot") = true
  /\ exists r p,
       parse_sort_key (py "Figure 14.2.1.3 Kaplan-Meier Plot") = Some (r, p)
       /\ r = 2%Z /\ p = [14; 2; 1; 3]%Z.
Proof.
  split; [vm_compute; reflexivity|].
  destruct (@every_bookmark_has_a_sort_key (py "Figure 14.2.1.3 Kaplan-Meier Plot"))
    as [(r & p & Hk & _) _]; [vm_compute; reflexivity|].
  exists r, p. split; [exact Hk|].
  vm_compute in Hk. inversion Hk. split; reflexivity.
Defined.

(* ================================================================== *)
(** ** More properties: the window *)
(* ================================================================== *)

Lemma rows_at_some (table_data : list row) (l : list nat) :
  Forall (fun i => (i < List.length table_data)%nat) l ->
  exists rowdatas,
    rows_at table_data l = Some rowdatas /\ List.length rowdatas = List.length l.
Proof.
  induction 1 as [|i l Hi Hl (rs & IH & Hlen)]; [exists []; auto|].
  cbn [rows_at]. destruct (nth_error table_data i) as [r|] eqn:Hr.
  - rewrite IH. exists (r :: rs). cbn [List.length]. auto.
  - apply nth_error_None in Hr. lia.
Qed.

Lemma rows_at_valid (table_data : list row) (l : list nat) (rowdatas : list row) :
  rows_at table_data l = Some rowdatas ->
  Forall (fun i => (i < List.length table_data)%nat) l
  /\ List.length rowdatas = List.length l.
Proof.
  revert rowdatas. induction l as [|i l IH]; cbn [rows_at]; intros rs H.
  - inversion H. auto.
  - destruct (nth_error table_data i) as [r|] eqn:Hr; [|discriminate].
    destruct (rows_at table_data l) as [rs'|]; [|discriminate].
    inversion H; subst. destruct (IH rs' eq_refl) as [Hv Hl]. split.
    + constructor; [|exact Hv]. apply nth_error_Some. congruence.
    + cbn [List.length]. now rewrite Hl.
Qed.

Lemma rows_at_seq (table_data : list row) :
  rows_at table_data (seq 0 (List.length table_data)) = Some table_data.
Proof.
  assert (H : forall pre l,
             rows_at (pre ++ l) (seq (List.length pre) (List.length l)) = Some l).
  { intros pre l. revert pre. induction l as [|r l IH]; intro pre; [reflexivity|].
    cbn [List.length seq rows_at].
    rewrite nth_error_app2, Nat.sub_diag by lia. cbn [nth_error].
    replace (pre ++ r :: l) with ((pre ++ [r]) ++ l) by now rewrite <- app_assoc.
    replace (S (List.length pre)) with (List.length (pre ++ [r]))
      by (rewrite length_app; cbn; lia).
    now rewrite IH. }
  exact (H [] table_data).
Qed.

Lemma rows_at_filter (keep : row -> bool) (table_data : list row) :
  rows_at table_data
          (map fst (filter (fun indexed => keep (snd indexed)) (enumerate table_data)))
  = Some (filter keep table_data).
Proof.
  unfold enumerate.
  assert (H : forall pre l,
             rows_at (pre ++ l)
                     (map fst (filter (fun indexed : nat * row => keep (snd indexed))
                                      (combine (seq (List.length pre) (List.length l)) l)))
             = Some (filter keep l)).
  { intros pre l. revert pre. induction l as [|r l IH]; intro pre; [reflexivity|].
    cbn [List.length seq combine filter snd].
    assert (IH' := IH (pre ++ [r])).
    replace ((pre ++ [r]) ++ l) with (pre ++ r :: l) in IH' by now rewrite <- app_assoc.
    replace (List.length (pre ++ [r])) with (S (List.length pre)) in IH'
      by (rewrite length_app; cbn; lia).
    destruct (keep r); [|exact IH'].
    cbn [map fst rows_at]. rewrite nth_error_app2, Nat.sub_diag by lia.
    cbn [nth_error]. now rewrite IH'. }
  exact (H [] table_data).
Qed.

Lemma refresh_table_shows (w : TLFWindow) (rowdatas : list row) :
  rows_at (table_data (app_state w)) (indices w) = Some rowdatas ->
  exists w',
    refresh_table w = Some w'
    /\ same_model w w'
    /\ table w' = map disp_row rowdatas
    /\ (rows_ok (app_state w) -> window_ok w').
Proof.
  intros Hr. unfold refresh_table. rewrite Hr. eexists. split; [reflexivity|].
  split; [repeat split|]. split; [reflexivity|]. intro Hk.
  unfold window_ok. split; [|split; [|split]]; try reflexivity; [|exact Hk].
  exists rowdatas. split; [exact Hr | reflexivity].
Qed.

Lemma filtered_rows_shown (w : TLFWindow) (l : list nat) (rowdatas : list row) :
  rows_at (table_data (app_state w)) l = Some rowdatas ->
  exists shown,
    rows_at (table_data (app_state w)) (indices (with_filtered_indices w l)) = Some shown
    /\ shown = match rowdatas with [] => table_data (app_state w) | _ :: _ => rowdatas end.
Proof.
  intro H. unfold indices. cbn [with_filtered_indices filtered_indices app_state].
  destruct l as [|i l].
  - cbn in H. inversion H; subst. exists (table_data (app_state w)).
    split; [apply rows_at_seq | reflexivity].
  - exists rowdatas. split; [exact H|].
    destruct rowdatas; [|reflexivity]. apply rows_at_valid in H. cbn in H. lia.
Qed.

Lemma apply_filter_shows (w : TLFWindow) :
  exists w',
    apply_filter w = Some w'
    /\ app_state w' = app_state w
    /\ select_all_state w' = select_all_state w
    /\ current_sort_column w' = current_sort_column w
    /\ sort_order w' = sort_order w
    /\ search_box w' = search_box w
    /\ table w' = map disp_row (match hits w with
                                | [] => table_data (app_state w)
                                | _ :: _ => hits w
                                end)
    /\ (rows_ok (app_state w) -> window_ok w').
Proof.
  unfold apply_filter, hits. cbv zeta.
  destruct (truthy (lower (strip (search_box w)))) eqn:Hs; cbn [negb].
  - destruct (@filtered_rows_shown w _ _
                (rows_at_filter (row_has (lower (strip (search_box w))))
                                (table_data (app_state w)))) as (shown & Hr & Hshown).
    destruct (@refresh_table_shows (with_filtered_indices w _) shown Hr)
      as (w' & Hw & (H1 & H2 & H3 & H4 & H5 & H6) & Ht & Hok).
    exists w'. split; [exact Hw|]. rewrite H1, H3, H4, H5, H6, Ht, Hshown.
    repeat (split; [reflexivity|]). exact Hok.
  - destruct (@filtered_rows_shown w _ _ (rows_at_seq (table_data (app_state w))))
      as (shown & Hr & Hshown).
    destruct (@refresh_table_shows (with_filtered_indices w _) shown Hr)
      as (w' & Hw & (H1 & H2 & H3 & H4 & H5 & H6) & Ht & Hok).
    exists w'. split; [exact Hw|]. rewrite H1, H3, H4, H5, H6, Ht, Hshown.
    repeat (split; [reflexivity|]). split; [|exact Hok].
    now destruct (table_data (app_state w)).
Qed.

(** X17. What the table shows after the filter is applied, for a search
    text and rows of ASCII text: the rows that contain the search text
    (trimmed, letter case ignored) in one of their cells, in the order of the
    table; but all rows when the search text is blank and also when no row
    contains it.  Applying the filter returns and does not touch the rows. *)
Theorem filter_shows_the_hits_or_every_row (w : TLFWindow) :
  is_ascii (search_box w) = true ->
  forallb (fun r => forallb is_ascii (cells r)) (table_data (app_state w)) = true ->
  exists w',
    apply_filter w = Some w'
    /\ app_state w' = app_state w
    /\ table w' = map disp_row (match hits w with
                                | [] => table_data (app_state w)
                                | _ :: _ => hits w
                                end).
Proof.
  intros _ _.
  destruct (apply_filter_shows w) as (w' & Hw & Ha & _ & _ & _ & _ & Ht & _).
  exists w'. auto.
Qed.

Lemma update_at_app (f : row -> row) (pre : list row) (r : row) (post : list row) :
  update_at (List.length pre) f (pre ++ r :: post) = Some (pre ++ f r :: post).
Proof.
  induction pre as [|x pre IH]; [reflexivity|].
  cbn [List.length List.app update_at]. now rewrite IH.
Qed.

Lemma split_at_index (A : Type) (l : list A) (i : nat) :
  (i < List.length l)%nat ->
  exists pre x post, l = pre ++ x :: post /\ List.length pre = i.
Proof.
  intro H. destruct (nth_error l i) as [x|] eqn:Hx;
    [|apply nth_error_None in Hx; lia].
  apply nth_error_split in Hx. destruct Hx as (pre & post & Hl & Hp). eauto.
Qed.

Lemma update_at_some (f : row -> row) (table_data : list row) (idx : nat) :
  (idx < List.length table_data)%nat ->
  exists pre r post,
    table_data = pre ++ r :: post /\ List.length pre = idx
    /\ update_at idx f table_data = Some (pre ++ f r :: post).
Proof.
  intro H. destruct (split_at_index table_data H) as (pre & r & post & -> & <-).
  exists pre, r, post. split; [reflexivity|]. split; [reflexivity|]. apply update_at_app.
Qed.

Lemma adjacent_swap (pre : list row) (a b : row) (post : list row) :
  swap_rows (List.length pre) (S (List.length pre)) (pre ++ a :: b :: post)
  = Some (pre ++ b :: a :: post)
  /\ swap_rows (S (List.length pre)) (List.length pre) (pre ++ a :: b :: post)
     = Some (pre ++ b :: a :: post).
Proof.
  assert (Ha : nth_error (pre ++ a :: b :: post) (List.length pre) = Some a).
  { rewrite nth_error_app2, Nat.sub_diag by lia. reflexivity. }
  assert (Hb : nth_error (pre ++ a :: b :: post) (S (List.length pre)) = Some b).
  { rewrite nth_error_app2 by lia.
    replace (S (List.length pre) - List.length pre)%nat with 1%nat by lia. reflexivity. }
  assert (Hs : forall x y, S (List.length pre) = List.length (pre ++ [x])
                           /\ pre ++ x :: y :: post = (pre ++ [x]) ++ y :: post).
  { intros x y. rewrite length_app, <- app_assoc. cbn. split; [lia | reflexivity]. }
  unfold swap_rows. rewrite Ha, Hb. split.
  - rewrite update_at_app.
    destruct (Hs b b) as [Hl He]. rewrite Hl, He, update_at_app.
    now rewrite <- app_assoc.
  - destruct (Hs a b) as [Hl He]. rewrite Hl, He, update_at_app.
    rewrite <- app_assoc. cbn [List.app]. now rewrite update_at_app.
Qed.

Lemma swap_is_permutation (pre : list row) (a b : row) (post : list row) :
  Permutation (pre ++ b :: a :: post) (pre ++ a :: b :: post).
Proof. apply Permutation_app_head, perm_swap. Qed.

(** The loop of [toggle_select_all]. *)
Lemma toggle_loop (v : bool) (l : list nat) :
  forall table_data,
    Forall (fun i => (i < List.length table_data)%nat) l ->
    exists table_data',
      fold_left (fun acc idx =>
                   match acc with
                   | Some td => update_at idx (set_include v) td
                   | None => None
                   end) l (Some table_data) = Some table_data'
      /\ List.length table_data' = List.length table_data
      /\ (forall i r, nth_error table_data i = Some r ->
            nth_error table_data' i
            = Some (if existsb (Nat.eqb i) l then set_include v r else r)).
Proof.
  induction l as [|idx l IH]; intros td Hv.
  - exists td. cbn. auto.
  - inversion Hv as [|? ? Hi Hl]; subst. cbn [fold_left].
    destruct (update_at_some (set_include v) td Hi) as (pre & r0 & post & -> & <- & ->).
    destruct (IH (pre ++ set_include v r0 :: post)) as (td' & Hf & Hlen & Hnth).
    { rewrite length_app in *. cbn [List.length] in *. exact Hl. }
    exists td'. split; [exact Hf|]. split.
    + rewrite Hlen, !length_app. reflexivity.
    + intros i r Hr. cbn [existsb].
      destruct (Nat.eqb_spec i (List.length pre)) as [->|Hne].
      * rewrite nth_error_app2, Nat.sub_diag in Hr by lia. cbn in Hr. inversion Hr; subst.
        rewrite (Hnth (List.length pre) (set_include v r)).
        -- cbn [orb]. now destruct (existsb _ l).
        -- rewrite nth_error_app2, Nat.sub_diag by lia. reflexivity.
      * cbn [orb]. apply Hnth.
        destruct (Nat.lt_ge_cases i (List.length pre)) as [Hlt|Hge].
        -- rewrite nth_error_app1 in Hr |- * by lia. exact Hr.
        -- rewrite nth_error_app2 in Hr |- * by lia.
           destruct (i - List.length pre)%nat as [|k] eqn:Hk; [lia|]. exact Hr.
Qed.


Lemma text_keyed_total (col : nat) (rows : list row) :
  (1 <= col <= 6)%nat ->
  exists krs, text_keyed col rows = Some krs
              /\ map snd krs = rows
              /\ Forall (fun kr => text_column col (snd kr) = Some (fst kr)
                                   \/ exists v, text_column col (snd kr) = Some v
                                                /\ fst kr = lower v) krs.
Proof.
  intro Hc. induction rows as [|r rows (krs & IH & Hs & Hk)]; cbn [text_keyed];
    [exists []; auto|].
  assert (Hv : exists v, text_column col r = Some v).
  { unfold text_column.
    destruct col as [|[|[|[|[|[|[|c]]]]]]]; try lia; cbn; eauto. }
  destruct Hv as (v & Hv). rewrite Hv, IH. eexists. split; [reflexivity|].
  cbn [map snd]. split; [now rewrite Hs|]. constructor; [|exact Hk].
  right. exists v. cbn [fst snd]. split; [exact Hv|]. now destruct v.
Qed.

Lemma sort_column_total (col : nat) (reverse : bool) (table_data : list row) :
  (col < 7)%nat ->
  exists table_data',
    sort_column col reverse table_data = Some table_data'
    /\ Permutation table_data' table_data.
Proof.
  intro Hc. unfold sort_column.
  destruct (Nat.eqb_spec col 0) as [->|H0].
  - eexists. split; [reflexivity|].
    eapply Permutation_trans; [apply Permutation_map, sort_by_perm|].
    rewrite map_map. cbn [snd]. now rewrite map_id.
  - destruct (Nat.eqb_spec col 6) as [->|H6].
    + destruct (keyed_total table_data) as (krs & -> & Hs).
      eexists. split; [reflexivity|]. rewrite <- Hs.
      apply Permutation_map, sort_by_perm.
    + destruct (@text_keyed_total col table_data) as (krs & -> & Hs & _); [lia|].
      eexists. split; [reflexivity|]. rewrite <- Hs.
      apply Permutation_map, sort_by_perm.
Qed.

Lemma known_type_perm (l l' : list row) :
  Permutation l' l -> Forall known_type l -> Forall known_type l'.
Proof.
  intros Hp Hk. apply Forall_forall. intros r Hr. rewrite Forall_forall in Hk.
  apply Hk. exact (Permutation_in _ Hp Hr).
Qed.

Lemma rows_ok_same_length (self : TLFApp) (table_data' : list row) :
  rows_ok self ->
  List.length table_data' = List.length (table_data self) ->
  Forall known_type table_data' ->
  rows_ok {| out_folder := out_folder self; table_data := table_data';
             sorted_once := sorted_once self |}.
Proof.
  intros [_ Hf] Hl Hk. split; [exact Hk|]. cbn [table_data out_folder].
  intro Hne. apply Hf. intros He. rewrite He in Hl. destruct table_data'; [congruence|].
  discriminate.
Qed.

Lemma rows_ok_perm (self : TLFApp) (table_data' : list row) :
  rows_ok self ->
  Permutation table_data' (table_data self) ->
  rows_ok {| out_folder := out_folder self; table_data := table_data';
             sorted_once := sorted_once self |}.
Proof.
  intros Hok Hp. apply rows_ok_same_length; [exact Hok | |].
  - exact (Permutation_length Hp).
  - destruct Hok as [Hk _]. exact (known_type_perm Hp Hk).
Qed.

Lemma indices_valid (w : TLFWindow) :
  window_ok w ->
  Forall (fun i => (i < List.length (table_data (app_state w)))%nat) (indices w)
  /\ List.length (table w) = List.length (indices w).
Proof.
  intros ((rs & Hr & Ht) & _). apply rows_at_valid in Hr. destruct Hr as [Hv Hl].
  split; [exact Hv|]. now rewrite Ht, length_map.
Qed.

Lemma indices_stay_valid (w w0 : TLFWindow) :
  window_ok w ->
  filtered_indices w0 = filtered_indices w ->
  List.length (table_data (app_state w0)) = List.length (table_data (app_state w)) ->
  Forall (fun i => (i < List.length (table_data (app_state w0)))%nat) (indices w0).
Proof.
  intros Hok Hf Hl. destruct (indices_valid Hok) as [Hv _].
  unfold indices in *. rewrite Hf, Hl. exact Hv.
Qed.

Lemma refresh_table_ok (w0 : TLFWindow) :
  Forall (fun i => (i < List.length (table_data (app_state w0)))%nat) (indices w0) ->
  rows_ok (app_state w0) ->
  exists w',
    refresh_table w0 = Some w' /\ same_model w0 w' /\ window_ok w'.
Proof.
  intros Hv Hk. destruct (rows_at_some _ Hv) as (rs & Hr & _).
  destruct (@refresh_table_shows w0 rs Hr) as (w' & Hw & Hs & _ & Hok).
  exists w'. auto.
Qed.

Lemma update_selected_counts_ok (w : TLFWindow) :
  window_ok w -> window_ok (update_selected_counts w).
Proof.
  intros (Hr & Hb & Hc & Hk). unfold window_ok. split; [exact Hr|].
  split; [exact Hb|]. split; [reflexivity | exact Hk].
Qed.

Lemma known_type_set_include (v : bool) (r : row) :
  known_type r -> known_type (set_include v r).
Proof. exact (fun H => H). Qed.

Lemma known_type_set_bookmark (v : str) (r : row) :
  known_type r -> known_type (set_bookmark v r).
Proof. exact (fun H => H). Qed.

Lemma known_type_update (f : row -> row) (pre : list row) (r : row) (post : list row) :
  (known_type r -> known_type (f r)) ->
  Forall known_type (pre ++ r :: post) -> Forall known_type (pre ++ f r :: post).
Proof.
  intros Hf H. apply Forall_app in H. destruct H as [Hp Hr].
  inversion Hr; subst. apply Forall_app. split; [exact Hp|]. constructor; auto.
Qed.

Lemma new_window_ok : window_ok new_window.
Proof.
  unfold window_ok. split; [exists []; split; reflexivity|].
  split; [reflexivity|]. split; [reflexivity|].
  split; [constructor | intro H; now contradiction H].
Qed.

Lemma toggle_select_all_ok (w : TLFWindow) :
  window_ok w ->
  exists w',
    toggle_select_all w = Some w'
    /\ window_ok w'
    /\ select_all_state w' = negb (select_all_state w)
    /\ List.length (table_data (app_state w')) = List.length (table_data (app_state w))
    /\ forall i r,
         nth_error (table_data (app_state w)) i = Some r ->
         nth_error (table_data (app_state w')) i
         = Some (if existsb (Nat.eqb i) (indices w)
                 then set_include (select_all_state w) r else r).
Proof.
  intro Hok. destruct (indices_valid Hok) as [Hv _].
  destruct (@toggle_loop (select_all_state w) (indices w) _ Hv) as (td' & Hf & Hl & Hn).
  unfold toggle_select_all. rewrite Hf.
  match goal with |- context [refresh_table ?w0] =>
    destruct (@refresh_table_ok w0) as (w' & Hw & (H1 & H2 & H3 & _) & Hok') end.
  - apply (@indices_stay_valid w); [exact Hok | reflexivity | exact Hl].
  - cbn [app_state with_table_data].
    apply rows_ok_same_length; [apply Hok | exact Hl |].
    apply Forall_forall. intros r Hr. apply In_nth_error in Hr. destruct Hr as (i & Hi).
    destruct Hok as (_ & _ & _ & Hk & _). rewrite Forall_forall in Hk.
    destruct (nth_error (table_data (app_state w)) i) as [r0|] eqn:H0.
    + rewrite (Hn i r0 H0) in Hi. inversion Hi; subst.
      destruct (existsb _ _); [apply known_type_set_include|];
        apply Hk; eapply nth_error_In; eauto.
    + apply nth_error_None in H0. assert (nth_error td' i <> None) by congruence.
      apply nth_error_Some in H. lia.
  - rewrite Hw. eexists. split; [reflexivity|].
    split; [now apply update_selected_counts_ok|].
    cbn [update_selected_counts app_state select_all_state].
    rewrite H1, H3. cbn [app_state with_table_data table_data select_all_state].
    auto.
Qed.

Lemma map_update_same (A : Type) (g : row -> A) (f : row -> row)
  (pre : list row) (r : row) (post : list row) :
  g (f r) = g r -> map g (pre ++ f r :: post) = map g (pre ++ r :: post).
Proof. intro H. rewrite !map_app. cbn [map]. now rewrite H. Qed.

Lemma on_cell_clicked_ok (w : TLFWindow) (row col : nat) :
  window_ok w ->
  (row < List.length (table w))%nat ->
  exists w',
    on_cell_clicked w row col = Some w'
    /\ window_ok w'
    /\ map (set_include true) (table_data (app_state w'))
       = map (set_include true) (table_data (app_state w)).
Proof.
  intros Hok Hrow. unfold on_cell_clicked.
  destruct (col =? 0)%nat.
  2:{ eexists. split; [reflexivity|]. split; [now apply update_selected_counts_ok|].
      reflexivity. }
  destruct (indices_valid Hok) as [Hv Hl].
  destruct (nth_error (indices w) row) as [a|] eqn:Ha;
    [|apply nth_error_None in Ha; lia].
  assert (Hlt : (a < List.length (table_data (app_state w)))%nat).
  { rewrite Forall_forall in Hv. apply Hv. eapply nth_error_In; eauto. }
  destruct (update_at_some (fun r => set_include (negb (include r)) r) _ Hlt)
    as (pre & r & post & Htd & _ & ->).
  match goal with |- context [refresh_table ?w0] =>
    destruct (@refresh_table_ok w0) as (w' & Hw & (H1 & _) & Hok') end.
  - apply (@indices_stay_valid w); [exact Hok | reflexivity|].
    cbn [app_state with_table_data table_data]. rewrite Htd, !length_app. reflexivity.
  - cbn [app_state with_table_data].
    apply rows_ok_same_length; [apply Hok | rewrite Htd, !length_app; reflexivity |].
    destruct Hok as (_ & _ & _ & Hk & _). rewrite Htd in Hk.
    apply known_type_update; [exact (fun H => H) | exact Hk].
  - rewrite Hw. eexists. split; [reflexivity|].
    split; [now apply update_selected_counts_ok|].
    cbn [update_selected_counts app_state]. rewrite H1.
    cbn [app_state with_table_data table_data]. rewrite Htd.
    now apply map_update_same.
Qed.

Lemma on_cell_double_clicked_ok (w : TLFWindow) (row col : nat) (newval : str) (ok : bool) :
  window_ok w ->
  (row < List.length (table w))%nat ->
  exists w',
    on_cell_double_clicked w row col newval ok = Some w'
    /\ window_ok w'
    /\ map (set_bookmark []) (table_data (app_state w'))
       = map (set_bookmark []) (table_data (app_state w)).
Proof.
  intros Hok Hrow. unfold on_cell_double_clicked.
  destruct (col =? 6)%nat; [|exists w; auto].
  destruct (indices_valid Hok) as [Hv Hl].
  destruct (nth_error (indices w) row) as [a|] eqn:Ha;
    [|apply nth_error_None in Ha; lia].
  assert (Hlt : (a < List.length (table_data (app_state w)))%nat).
  { rewrite Forall_forall in Hv. apply Hv. eapply nth_error_In; eauto. }
  destruct (nth_error (table_data (app_state w)) a) eqn:Hr;
    [|apply nth_error_None in Hr; lia].
  destruct ok; [|exists w; auto].
  destruct (update_at_some (set_bookmark newval) _ Hlt)
    as (pre & r0 & post & Htd & _ & ->).
  match goal with |- context [refresh_table ?w0] =>
    destruct (@refresh_table_ok w0) as (w' & Hw & (H1 & _) & Hok') end.
  - apply (@indices_stay_valid w); [exact Hok | reflexivity|].
    cbn [app_state with_table_data table_data]. rewrite Htd, !length_app. reflexivity.
  - cbn [app_state with_table_data].
    apply rows_ok_same_length; [apply Hok | rewrite Htd, !length_app; reflexivity |].
    destruct Hok as (_ & _ & _ & Hk & _). rewrite Htd in Hk.
    apply known_type_update; [exact (fun H => H) | exact Hk].
  - exists w'. split; [exact Hw|]. split; [exact Hok'|]. rewrite H1.
    cbn [app_state with_table_data table_data]. rewrite Htd.
    now apply map_update_same.
Qed.

Lemma filter_after_reorder (w : TLFWindow) (table_data' : list row) :
  window_ok w ->
  Permutation table_data' (table_data (app_state w)) ->
  exists w',
    apply_filter (with_table_data w table_data') = Some w'
    /\ window_ok w'
    /\ table_data (app_state w') = table_data'
    /\ search_box w' = search_box w.
Proof.
  intros Hok Hp. destruct (apply_filter_shows (with_table_data w table_data'))
    as (w' & Hw & Ha & _ & _ & _ & Hs & _ & Hok').
  exists w'. split; [exact Hw|]. split.
  - apply Hok'. cbn [app_state with_table_data].
    apply rows_ok_perm; [apply Hok | exact Hp].
  - rewrite Ha, Hs. split; reflexivity.
Qed.

Lemma move_up_ok (w : TLFWindow) (selected : Z) :
  window_ok w ->
  (-1 <= selected < Z.of_nat (List.length (table w)))%Z ->
  exists w',
    move_up w selected = Some w'
    /\ window_ok w'
    /\ Permutation (table_data (app_state w')) (table_data (app_state w)).
Proof.
  intros Hok Hsel. unfold move_up.
  destruct (selected <=? 0)%Z eqn:Hs; [exists w; auto|]. apply Z.leb_gt in Hs.
  destruct (indices_valid Hok) as [Hv Hl].
  destruct (nth_error (indices w) (Z.to_nat selected)) as [a|] eqn:Ha;
    [|apply nth_error_None in Ha; lia].
  assert (Hlt : (a < List.length (table_data (app_state w)))%nat).
  { rewrite Forall_forall in Hv. apply Hv. eapply nth_error_In; eauto. }
  destruct (a <=? 0)%nat eqn:Ha0; [exists w; auto|]. apply Nat.leb_gt in Ha0.
  destruct (@split_at_index _ (table_data (app_state w)) (a - 1))
    as (pre & x & post & Htd & Hpre); [lia|].
  destruct post as [|y post].
  { rewrite Htd, length_app in Hlt. cbn [List.length] in Hlt. lia. }
  replace a with (S (List.length pre)) by lia.
  replace (S (List.length pre) - 1)%nat with (List.length pre) by lia.
  rewrite Htd, (proj1 (adjacent_swap pre x y post)).
  destruct (@filter_after_reorder w (pre ++ y :: x :: post) Hok)
    as (w' & Hw & Hok' & Htd' & _).
  { rewrite Htd. apply swap_is_permutation. }
  exists w'. split; [exact Hw|]. split; [exact Hok'|].
  rewrite Htd'. apply swap_is_permutation.
Qed.

Lemma move_down_ok (w : TLFWindow) (selected : Z) :
  window_ok w ->
  (-1 <= selected < Z.of_nat (List.length (table w)))%Z ->
  exists w',
    move_down w selected = Some w'
    /\ window_ok w'
    /\ Permutation (table_data (app_state w')) (table_data (app_state w)).
Proof.
  intros Hok Hsel. unfold move_down.
  destruct ((selected <? 0)%Z || _) eqn:Hs; [exists w; auto|].
  apply orb_false_iff in Hs. destruct Hs as [Hs _]. apply Z.ltb_ge in Hs.
  destruct (indices_valid Hok) as [Hv Hl].
  destruct (nth_error (indices w) (Z.to_nat selected)) as [a|] eqn:Ha;
    [|apply nth_error_None in Ha; lia].
  destruct (Z.of_nat a >=? _)%Z eqn:Ha0; [exists w; auto|].
  assert (Hlt : (S a < List.length (table_data (app_state w)))%nat).
  { rewrite Z.geb_leb in Ha0. apply Z.leb_gt in Ha0. lia. }
  destruct (@split_at_index _ (table_data (app_state w)) a)
    as (pre & x & post & Htd & Hpre); [lia|].
  destruct post as [|y post].
  { rewrite Htd, length_app in Hlt. cbn [List.length] in Hlt. lia. }
  subst a. replace (List.length pre + 1)%nat with (S (List.length pre)) by lia.
  rewrite Htd, (proj2 (adjacent_swap pre x y post)).
  destruct (@filter_after_reorder w (pre ++ y :: x :: post) Hok)
    as (w' & Hw & Hok' & Htd' & _).
  { rewrite Htd. apply swap_is_permutation. }
  exists w'. split; [exact Hw|]. split; [exact Hok'|].
  rewrite Htd'. apply swap_is_permutation.
Qed.

Lemma handle_header_sort_ok (w : TLFWindow) (logicalIndex : nat) :
  window_ok w ->
  (logicalIndex < 7)%nat ->
  exists w',
    handle_header_sort w logicalIndex = Some w'
    /\ window_ok w'
    /\ Permutation (table_data (app_state w')) (table_data (app_state w)).
Proof.
  intros Hok Hc. unfold handle_header_sort. cbv zeta.
  match goal with |- context [sort_column logicalIndex ?rev ?td] =>
    destruct (@sort_column_total logicalIndex rev td Hc) as (td' & -> & Hp) end.
  match goal with |- context [apply_filter ?w0] =>
    destruct (apply_filter_shows w0) as (w' & Hw & Ha & _ & _ & _ & _ & _ & Hok') end.
  exists w'. split; [exact Hw|]. split.
  - apply Hok'. cbn [app_state].
    apply rows_ok_perm; [apply Hok | exact Hp].
  - rewrite Ha. exact Hp.
Qed.

Section WindowFacts.

Variable os_path_basename : str -> str.
Variable os_path_join : str -> str -> str.
Variable os_listdir : str -> list str.
Variable read_rtf : str -> option str.
Variable read_pdf_page1 : str -> option str.
Variable read_docx : str -> option docx_document.

Let on_event := handle os_path_basename os_path_join os_listdir
                       read_rtf read_pdf_page1 read_docx.

Lemma rescan_rows_ok (self : TLFApp) :
  truthy (out_folder self) = true ->
  rows_ok self ->
  exists self',
    refresh_folder os_path_basename os_path_join os_listdir
                   read_rtf read_pdf_page1 read_docx self = Some self'
    /\ rows_ok self'.
Proof.
  intros Hf [Hk _].
  destruct (rescan_table os_path_basename os_path_join os_listdir
                         read_rtf read_pdf_page1 read_docx self Hf)
    as (self' & Hr & Hp & _).
  exists self'. split; [exact Hr|]. split.
  2:{ intros _. revert Hr. unfold refresh_folder. rewrite Hf. cbn [negb]. cbv zeta.
      destruct (sorted_once self); cbn [negb].
      - intro H; inversion H; subst. exact Hf.
      - destruct (sort_rows _); [|discriminate]. intro H; inversion H; subst. exact Hf. }
  apply (known_type_perm Hp).
  apply Forall_app. split.
  - unfold kept_rows. apply Forall_forall. intros r Hr'. apply filter_In in Hr'.
    rewrite Forall_forall in Hk. now apply Hk.
  - unfold added_rows. apply Forall_forall. intros r Hr'.
    apply in_map_iff in Hr'. destruct Hr' as ([ftype fname] & <- & Hin).
    apply filter_In in Hin. destruct Hin as [Hin _].
    assert (Hty : In ftype [py "RTF"; py "PDF"; py "DOCX"]).
    { unfold file_list_of in Hin. rewrite !in_app_iff, !in_map_iff in Hin.
      destruct Hin as [(f & He & _)|[(f & He & _)|(f & He & _)]]; inversion He;
        cbn; auto. }
    pose proof (new_row_key os_path_basename os_path_join read_rtf read_pdf_page1
                            read_docx (out_folder self) (ftype, fname)) as Hkey.
    apply (f_equal fst) in Hkey. cbn [row_key fst] in Hkey.
    unfold known_type. rewrite Hkey. exact Hty.
Qed.

Lemma timer_ok (w : TLFWindow) :
  rows_ok (app_state w) ->
  (truthy (out_folder (app_state w)) = false -> window_ok w) ->
  exists w',
    refresh_folder_and_filter os_path_basename os_path_join os_listdir
                              read_rtf read_pdf_page1 read_docx w = Some w'
    /\ window_ok w'.
Proof.
  intros Hk Hview. unfold refresh_folder_and_filter.
  destruct (truthy (out_folder (app_state w))) eqn:Hf; cbn [negb]; [|exists w; auto].
  destruct (rescan_rows_ok Hf Hk) as (app' & -> & Hk').
  match goal with |- context [apply_filter ?w0] =>
    destruct (apply_filter_shows w0) as (w' & Hw & _ & _ & _ & _ & _ & _ & Hok') end.
  exists w'. split; [exact Hw|]. apply Hok'. exact Hk'.
Qed.

(** X18. The window stays consistent as long as its handlers return: it is
    consistent when it opens, and from a consistent window every event that
    the widgets allow leaves a consistent window if its handler returns: the
    widget shows the rows that the filter selects (so no index of the filter
    or of the widget is outside the table), the buttons and the label of
    selected files are those of the table, and every row is an RTF, PDF or
    DOCX row.  The handlers that work in memory only do return: the Select
    All, Up and Down buttons, typing in the search box, a click on a cell and
    a click on a header (on the Bookmark header when the bookmarks are plain,
    ASCII text of at most 4300 characters).  That a rescan or a double click
    returns is not claimed: the one reads the folder, the other waits for its
    dialog while rescans go on. *)
Theorem window_stays_consistent :
  window_ok new_window
  /\ forall w e,
       window_ok w -> can_happen w e ->
       (forall w', on_event w e = Some w' -> window_ok w')
       /\ (in_memory w e -> exists w', on_event w e = Some w').
Proof.
  split; [exact new_window_ok|].
  intros w e Hok Hcan.
  assert (Hstep : exists w', on_event w e = Some w' /\ window_ok w').
  { unfold on_event.
    destruct e as [folder| |selected|selected|text|r c|r c newval ok|logicalIndex|];
      cbn [handle can_happen] in *.
    - unfold browse_folder. destruct (truthy folder) eqn:Hf; cbn [negb]; [|eauto].
      apply timer_ok; cbn [app_state out_folder]; [|congruence].
      destruct Hok as (_ & _ & _ & Hk & _). split; [exact Hk | intros _; exact Hf].
    - destruct (toggle_select_all_ok Hok) as (w' & Hw & Hok' & _). eauto.
    - destruct (move_up_ok Hok Hcan) as (w' & Hw & Hok' & _). eauto.
    - destruct (move_down_ok Hok Hcan) as (w' & Hw & Hok' & _). eauto.
    - match goal with |- context [apply_filter ?w0] =>
        destruct (apply_filter_shows w0) as (w' & Hw & _ & _ & _ & _ & _ & _ & Hok') end.
      exists w'. split; [exact Hw|]. apply Hok'. cbn [app_state]. apply Hok.
    - destruct (@on_cell_clicked_ok w r c Hok (proj1 Hcan)) as (w' & Hw & Hok' & _).
      eauto.
    - destruct (@on_cell_double_clicked_ok w r c newval ok Hok (proj1 Hcan))
        as (w' & Hw & Hok' & _). eauto.
    - destruct (handle_header_sort_ok Hok Hcan) as (w' & Hw & Hok' & _). eauto.
    - apply timer_ok; [apply Hok | intros _; exact Hok]. }
  destruct Hstep as (w1 & Hw1 & Hok1). split.
  - intros w' Hw'. rewrite Hw1 in Hw'. inversion Hw'; subst. exact Hok1.
  - intros _. exists w1. exact Hw1.
Qed.


End WindowFacts.

Lemma str_ltb_asym (a : str) : forall b, str_ltb a b = true -> str_ltb b a = false.
Proof.
  induction a as [|x a IH]; intros [|y b]; cbn [str_ltb]; try easy.
  intro H. apply orb_true_iff in H. apply orb_false_iff.
  destruct H as [H|H].
  - apply N.ltb_lt in H. split; [apply N.ltb_ge; lia|].
    apply andb_false_iff. left. apply N.eqb_neq. lia.
  - apply andb_true_iff in H. destruct H as [He Hl]. apply N.eqb_eq in He. subst y.
    split; [apply N.ltb_irrefl|]. rewrite N.eqb_refl. cbn. now apply IH.
Qed.

Lemma str_ltb_ntrans (a : str) :
  forall b c, str_ltb b a = false -> str_ltb c b = false -> str_ltb c a = false.
Proof.
  induction a as [|x a IH]; intros [|y b] [|z c]; cbn [str_ltb]; try easy.
  intros H1 H2. apply orb_false_iff in H1, H2. apply orb_false_iff.
  destruct H1 as [H1 H1'], H2 as [H2 H2'].
  apply N.ltb_ge in H1, H2. split; [apply N.ltb_ge; lia|].
  destruct (z =? x) eqn:Ezx; [|reflexivity]. apply N.eqb_eq in Ezx. subst z.
  assert (y = x) by lia. subst y. rewrite N.eqb_refl in H1', H2'. cbn in H1', H2' |- *.
  now apply (IH b c).
Qed.

Lemma bool_ltb_asym (a b : bool) : bool_ltb a b = true -> bool_ltb b a = false.
Proof. now destruct a, b. Qed.

Lemma bool_ltb_ntrans (a b c : bool) :
  bool_ltb b a = false -> bool_ltb c b = false -> bool_ltb c a = false.
Proof. now destruct a, b, c. Qed.

Section SortByKey.

Variable K : Type.
Variable ltb : K -> K -> bool.
Hypothesis ltb_asym : forall a b, ltb a b = true -> ltb b a = false.
Hypothesis ltb_ntrans :
  forall a b c, ltb b a = false -> ltb c b = false -> ltb c a = false.
Variable key : row -> option K.

Let before (a b : row) : bool :=
  match key a, key b with
  | Some ka, Some kb => ltb ka kb
  | _, _ => false
  end.

Let tie (a b : row) : bool := negb (before a b) && negb (before b a).

Lemma by_key_asym (reverse : bool) (a b : K * row) :
  by_key ltb reverse a b = true -> by_key ltb reverse b a = false.
Proof. unfold by_key. destruct reverse; apply ltb_asym. Qed.

Lemma by_key_ntrans (reverse : bool) (a b c : K * row) :
  by_key ltb reverse b a = false -> by_key ltb reverse c b = false ->
  by_key ltb reverse c a = false.
Proof.
  unfold by_key. destruct reverse; intros H1 H2.
  - eapply ltb_ntrans; [exact H2 | exact H1].
  - eapply ltb_ntrans; [exact H1 | exact H2].
Qed.

Lemma sort_keyed_rows (reverse : bool) (krs : list (K * row)) :
  Forall (fun kr => key (snd kr) = Some (fst kr)) krs ->
  (forall i j ri rj,
     (i < j)%nat ->
     nth_error (map snd (sort_by (by_key ltb reverse) krs)) i = Some ri ->
     nth_error (map snd (sort_by (by_key ltb reverse) krs)) j = Some rj ->
     if reverse then before ri rj = false else before rj ri = false)
  /\ (forall r k,
        key r = Some k ->
        filter (tie r) (map snd (sort_by (by_key ltb reverse) krs))
        = filter (tie r) (map snd krs)).
Proof.
  intro Hk.
  assert (Hperm : Permutation (sort_by (by_key ltb reverse) krs) krs)
    by apply sort_by_perm.
  assert (Hk' : Forall (fun kr => key (snd kr) = Some (fst kr))
                       (sort_by (by_key ltb reverse) krs)).
  { apply Forall_forall. intros kr Hin. rewrite Forall_forall in Hk.
    apply Hk. exact (Permutation_in _ Hperm Hin). }
  split.
  - intros i j ri rj Hij Hi Hj. rewrite nth_error_map in Hi, Hj.
    destruct (nth_error _ i) as [[ki ri']|] eqn:Ei; [|discriminate].
    destruct (nth_error _ j) as [[kj rj']|] eqn:Ej; [|discriminate].
    cbn in Hi, Hj. inversion Hi; inversion Hj; subst.
    rewrite Forall_forall in Hk'.
    pose proof (Hk' _ (nth_error_In _ _ Ei)) as H1.
    pose proof (Hk' _ (nth_error_In _ _ Ej)) as H2. cbn [fst snd] in H1, H2.
    pose proof (@sort_by_sorted _ (by_key ltb reverse)
                  (by_key_asym reverse) (by_key_ntrans reverse) krs) as Hs.
    pose proof (strongly_sorted_nth Hs Hij Ei Ej) as Hle.
    unfold before. rewrite H1, H2. unfold by_key in Hle. cbn [fst] in Hle.
    destruct reverse; exact Hle.
  - intros r k Hr.
    set (P := fun kr : K * row => negb (ltb k (fst kr)) && negb (ltb (fst kr) k)).
    assert (Hf : forall l : list (K * row),
               Forall (fun kr => key (snd kr) = Some (fst kr)) l ->
               filter (tie r) (map snd l) = map snd (filter P l)).
    { induction l as [|[k0 r0] l IH]; intro Hl; [reflexivity|].
      inversion Hl as [|? ? H0 Hl']; subst. cbn [map filter fst snd] in *.
      rewrite (IH Hl'). unfold tie, before, P. rewrite Hr, H0. cbn [fst].
      now destruct (negb (ltb k k0) && negb (ltb k0 k)). }
    rewrite !Hf by assumption. f_equal. apply sort_by_filter.
    intros a b Ha Hb. unfold P in Ha, Hb.
    apply andb_true_iff in Ha, Hb.
    destruct Ha as [Ha1 Ha2], Hb as [Hb1 Hb2].
    apply negb_true_iff in Ha1, Ha2, Hb1, Hb2.
    unfold by_key. destruct reverse.
    + eapply ltb_ntrans; [exact Ha1 | exact Hb2].
    + eapply ltb_ntrans; [exact Hb1 | exact Ha2].
Qed.

End SortByKey.

Lemma text_keyed_keys (col : nat) (rows : list row) :
  forall krs,
    text_keyed col rows = Some krs ->
    map snd krs = rows
    /\ Forall (fun kr => option_map lower (text_column col (snd kr)) = Some (fst kr)) krs.
Proof.
  induction rows as [|r rows IH]; cbn [text_keyed]; intros krs H.
  - inversion H. split; [reflexivity | constructor].
  - destruct (text_column col r) as [v|] eqn:Hv; [|discriminate].
    destruct (text_keyed col rows) as [krs'|]; [|discriminate].
    inversion H; subst. destruct (IH krs' eq_refl) as [Hs Hk].
    split; [cbn; now rewrite Hs|]. constructor; [|exact Hk].
    cbn [fst snd]. rewrite Hv. cbn. now destruct v.
Qed.

Lemma column_ltb_keys (col : nat) (a b : row) :
  column_ltb col a b
  = if (col =? 0)%nat then
      match Some (include a), Some (include b) with
      | Some ka, Some kb => bool_ltb ka kb
      | _, _ => false
      end
    else if (col =? 6)%nat then
      match parse_sort_key (bookmark_of a), parse_sort_key (bookmark_of b) with
      | Some ka, Some kb => key_ltb ka kb
      | _, _ => false
      end
    else
      match option_map lower (text_column col a), option_map lower (text_column col b) with
      | Some ka, Some kb => str_ltb ka kb
      | _, _ => false
      end.
Proof.
  unfold column_ltb. destruct (col =? 0)%nat; [reflexivity|].
  destruct (col =? 6)%nat; [reflexivity|].
  now destruct (text_column col a), (text_column col b).
Qed.

Lemma sort_column_sorts (col : nat) (reverse : bool) (table_data table_data' : list row) :
  (col < 7)%nat ->
  sort_column col reverse table_data = Some table_data' ->
  (forall i j ri rj,
     (i < j)%nat ->
     nth_error table_data' i = Some ri -> nth_error table_data' j = Some rj ->
     if reverse then column_ltb col ri rj = false else column_ltb col rj ri = false)
  /\ (forall r, filter (column_tie col r) table_data'
                = filter (column_tie col r) table_data).
Proof.
  intros Hc. unfold sort_column, column_tie.
  destruct (Nat.eqb_spec col 0) as [->|H0].
  - intro H; inversion H; subst; clear H.
    destruct (@sort_keyed_rows bool bool_ltb bool_ltb_asym bool_ltb_ntrans
                (fun r => Some (include r)) reverse
                (map (fun x => (include x, x)) table_data)) as [Ho Hs].
    { apply Forall_forall. intros kr Hin. apply in_map_iff in Hin.
      destruct Hin as (x & <- & _). reflexivity. }
    split.
    + intros i j ri rj Hij Hi Hj. rewrite !column_ltb_keys. cbn [Nat.eqb].
      exact (Ho i j ri rj Hij Hi Hj).
    + intro r. specialize (Hs r (include r) eq_refl).
      rewrite map_map in Hs. cbn [snd] in Hs. rewrite map_id in Hs.
      etransitivity; [|etransitivity; [exact Hs|]];
        apply filter_ext; intro x; rewrite !column_ltb_keys; reflexivity.
  - destruct (Nat.eqb_spec col 6) as [->|H6].
    + destruct (keyed table_data) as [krs|] eqn:Hk; [|discriminate].
      intro H; inversion H; subst; clear H.
      destruct (keyed_total table_data) as (krs' & Hk' & Hrows).
      assert (krs' = krs) by congruence. subst krs'.
      destruct (@sort_keyed_rows sort_key key_ltb key_ltb_asym
                  (fun a b c => @key_ltb_ntrans a b c)
                  (fun r => parse_sort_key (bookmark_of r)) reverse krs
                  (keyed_keys _ Hk)) as [Ho Hs].
      split.
      * intros i j ri rj Hij Hi Hj. rewrite !column_ltb_keys. cbn [Nat.eqb].
        exact (Ho i j ri rj Hij Hi Hj).
      * intro r. destruct (parse_sort_key_total (bookmark_of r)) as (k & Hr).
        specialize (Hs r k Hr). rewrite Hrows in Hs.
        etransitivity; [|etransitivity; [exact Hs|]];
          apply filter_ext; intro x; rewrite !column_ltb_keys; reflexivity.
    + destruct (text_keyed col table_data) as [krs|] eqn:Hk; [|discriminate].
      intro H; inversion H; subst; clear H.
      destruct (text_keyed_keys _ _ Hk) as [Hrows Hkeys].
      destruct (@sort_keyed_rows str str_ltb str_ltb_asym
                  (fun a b c => @str_ltb_ntrans a b c)
                  (fun r => option_map lower (text_column col r)) reverse krs Hkeys)
        as [Ho Hs].
      assert (E0 : (col =? 0)%nat = false) by now apply Nat.eqb_neq.
      assert (E6 : (col =? 6)%nat = false) by now apply Nat.eqb_neq.
      split.
      * intros i j ri rj Hij Hi Hj. rewrite !column_ltb_keys, E0, E6.
        exact (Ho i j ri rj Hij Hi Hj).
      * intro r.
        assert (Hr : exists k, option_map lower (text_column col r) = Some k).
        { unfold text_column.
          destruct col as [|[|[|[|[|[|[|c]]]]]]]; try lia; cbn; eauto. }
        destruct Hr as (k & Hr). specialize (Hs r k Hr). rewrite Hrows in Hs.
        etransitivity; [|etransitivity; [exact Hs|]];
          apply filter_ext; intro x; rewrite !column_ltb_keys, E0, E6; reflexivity.
Qed.

(** X20. A click on a header sorts the table by that column, when the rows
    are plain (cells of ASCII text, bookmarks of at most 4300 characters):
    ascending, or descending if the click before was on the same header and
    sorted ascending.  The rows are only reordered, no row sorts strictly
    before a row that is above it (check marks: unchecked first; Bookmark:
    by sort key; other columns: by text without letter case), and rows that
    the column does not tell apart keep their order. *)
Theorem header_click_sorts_by_the_column (w : TLFWindow) (logicalIndex : nat) :
  (logicalIndex < 7)%nat ->
  forallb plain_row (table_data (app_state w)) = true ->
  exists w',
    handle_header_sort w logicalIndex = Some w'
    /\ current_sort_column w' = Some logicalIndex
    /\ sort_order w'
       = (if same_column (current_sort_column w) logicalIndex
             && negb (is_descending (sort_order w))
          then DescendingOrder else AscendingOrder)
    /\ Permutation (table_data (app_state w')) (table_data (app_state w))
    /\ in_column_order logicalIndex (sort_order w') (table_data (app_state w'))
    /\ forall r,
         filter (column_tie logicalIndex r) (table_data (app_state w'))
         = filter (column_tie logicalIndex r) (table_data (app_state w)).
Proof.
  intros Hc _. unfold handle_header_sort. cbv zeta.
  match goal with |- context [sort_column logicalIndex ?rev ?td] =>
    destruct (@sort_column_total logicalIndex rev td Hc) as (td' & Hsort & Hp);
      rewrite Hsort; destruct (sort_column_sorts _ _ Hc Hsort) as [Ho Hs] end.
  match goal with |- context [apply_filter ?w0] =>
    destruct (apply_filter_shows w0) as (w' & Hw & Ha & _ & Hcol & Hord & _) end.
  cbn [app_state current_sort_column sort_order table_data] in Ha, Hcol, Hord.
  exists w'. split; [exact Hw|]. split; [exact Hcol|]. rewrite Ha, Hord.
  cbn [table_data]. split; [|split; [exact Hp|split; [|exact Hs]]].
  - destruct (same_column _ _), (sort_order w); reflexivity.
  - intros i j ri rj Hij Hi Hj. specialize (Ho i j ri rj Hij Hi Hj).
    destruct (same_column _ _), (sort_order w); exact Ho.
Qed.

Lemma seq_nth_some (start len n : nat) :
  (n < len)%nat -> nth_error (seq start len) n = Some (start + n)%nat.
Proof.
  intro H. rewrite nth_error_seq. apply Nat.ltb_lt in H. now rewrite H.
Qed.

Lemma apply_filter_blank (w : TLFWindow) :
  truthy (lower (strip (search_box w))) = false ->
  exists w',
    apply_filter w = Some w'
    /\ app_state w' = app_state w
    /\ search_box w' = search_box w
    /\ indices w' = seq 0 (List.length (table_data (app_state w))).
Proof.
  intro Hs. unfold apply_filter. cbv zeta. rewrite Hs. cbn [negb].
  destruct (@filtered_rows_shown w _ _ (rows_at_seq (table_data (app_state w))))
    as (shown & Hr & _).
  destruct (@refresh_table_shows (with_filtered_indices w _) shown Hr)
    as (w' & Hw & (H1 & H2 & _ & _ & _ & H6) & _).
  exists w'. split; [exact Hw|]. split; [exact H1|]. split; [exact H6|].
  unfold indices. rewrite H1, H2.
  cbn [with_filtered_indices filtered_indices app_state].
  now destruct (seq 0 (List.length (table_data (app_state w)))).
Qed.

(** X21. With nothing typed in the search box and all rows shown, Up and
    then Down on the row that Up has moved puts the table back as it was: Up
    on a row other than the first exchanges it with the row above, and Down
    on its new place exchanges the two again. *)
Theorem move_up_then_down_restores_the_table (w : TLFWindow) (selected : Z) :
  truthy (lower (strip (search_box w))) = false ->
  indices w = seq 0 (List.length (table_data (app_state w))) ->
  (0 < selected < Z.of_nat (List.length (table_data (app_state w))))%Z ->
  exists w1 w2,
    move_up w selected = Some w1
    /\ nth_error (table_data (app_state w1)) (Z.to_nat selected - 1)
       = nth_error (table_data (app_state w)) (Z.to_nat selected)
    /\ nth_error (table_data (app_state w1)) (Z.to_nat selected)
       = nth_error (table_data (app_state w)) (Z.to_nat selected - 1)
    /\ move_down w1 (selected - 1) = Some w2
    /\ table_data (app_state w2) = table_data (app_state w).
Proof.
  intros Hblank Hall Hsel.
  destruct (@split_at_index _ (table_data (app_state w)) (Z.to_nat selected - 1))
    as (pre & x & post & Htd & Hpre); [lia|].
  destruct post as [|y post].
  { rewrite Htd, length_app in Hsel. cbn [List.length] in Hsel. lia. }
  assert (Hlen : List.length (table_data (app_state w)) = (List.length pre + 2 + List.length post)%nat).
  { rewrite Htd, length_app. cbn [List.length]. lia. }
  assert (Hs : Z.to_nat selected = S (List.length pre)) by lia.
  assert (Hup : move_up w selected
                = apply_filter (with_table_data w (pre ++ y :: x :: post))).
  { unfold move_up.
    destruct (selected <=? 0)%Z eqn:E; [apply Z.leb_le in E; lia|]. clear E.
    rewrite Hall, Hs. rewrite seq_nth_some by lia. cbn [Nat.add Nat.leb].
    replace (S (List.length pre) - 1)%nat with (List.length pre) by lia.
    now rewrite Htd, (proj1 (adjacent_swap pre x y post)). }
  destruct (@apply_filter_blank (with_table_data w (pre ++ y :: x :: post)) Hblank)
    as (w1 & Hw1 & Ha1 & Hb1 & Hi1).
  cbn [with_table_data app_state table_data search_box] in Ha1, Hb1, Hi1.
  assert (Hlen1 : List.length (pre ++ y :: x :: post)
                  = (List.length pre + 2 + List.length post)%nat).
  { rewrite length_app. cbn [List.length]. lia. }
  assert (Hdown : move_down w1 (selected - 1)
                  = apply_filter (with_table_data w1 (pre ++ x :: y :: post))).
  { unfold move_down. rewrite Hi1, Ha1. cbn [table_data].
    rewrite length_seq, Hlen1.
    destruct ((selected - 1 <? 0)%Z || _) eqn:E.
    { apply orb_true_iff in E. destruct E as [E|E];
        [apply Z.ltb_lt in E | rewrite Z.geb_leb in E; apply Z.leb_le in E]; lia. }
    clear E.
    replace (Z.to_nat (selected - 1)) with (List.length pre) by lia.
    rewrite seq_nth_some by lia. cbn [Nat.add].
    destruct (Z.of_nat (List.length pre) >=? _)%Z eqn:E.
    { rewrite Z.geb_leb in E. apply Z.leb_le in E. lia. }
    clear E.
    replace (List.length pre + 1)%nat with (S (List.length pre)) by lia.
    now rewrite (proj2 (adjacent_swap pre y x post)). }
  assert (Hblank1 : truthy (lower (strip (search_box
                      (with_table_data w1 (pre ++ x :: y :: post))))) = false).
  { cbn [with_table_data search_box]. now rewrite Hb1. }
  destruct (apply_filter_blank _ Hblank1) as (w2 & Hw2 & Ha2 & _).
  cbn [with_table_data app_state] in Ha2.
  exists w1, w2. rewrite Hup, Hdown, Hs, Ha1, Ha2. cbn [table_data].
  replace (S (List.length pre) - 1)%nat with (List.length pre) by lia.
  split; [exact Hw1|]. rewrite Htd. split; [|split; [|split; [exact Hw2|reflexivity]]].
  - rewrite !nth_error_app2 by lia. rewrite Nat.sub_diag.
    replace (S (List.length pre) - List.length pre)%nat with 1%nat by lia. reflexivity.
  - rewrite !nth_error_app2 by lia. rewrite Nat.sub_diag.
    replace (S (List.length pre) - List.length pre)%nat with 1%nat by lia. reflexivity.
Qed.

Lemma window_stays_consistent_witness :
  exists w',
    handle (fun p => p) (fun folder name => folder ++ py "/" ++ name)
           sample_listing (@no_file str) (@no_file str) (@no_file docx_document)
           sample_window (header_sectionClicked 6) = Some w'
    /\ window_ok w'
    /\ map bookmark_of (table_data (app_state w')) = [py "Table 14.1"; py "Listing 16.2.1"].
Proof.
  destruct (proj2 (window_stays_consistent
                     (fun p => p) (fun folder name => folder ++ py "/" ++ name)
                     sample_listing (@no_file str) (@no_file str)
                     (@no_file docx_document))
                  sample_window (header_sectionClicked 6)) as [Hkeeps Hreturns].
  - unfold window_ok.
    split; [exists (table_data sample_unsorted_app); split; reflexivity|].
    split; [vm_compute; reflexivity|]. split; [vm_compute; reflexivity|].
    split; [|intros _; reflexivity].
    constructor; [left; reflexivity|].
    constructor; [right; left; reflexivity | constructor].
  - cbn. lia.
  - destruct Hreturns as (w' & Hw); [intros _; vm_compute; reflexivity|].
    exists w'. split; [exact Hw|]. split; [exact (Hkeeps w' Hw)|].
    vm_compute in Hw. inversion Hw. reflexivity.
Defined.


Lemma move_up_then_down_restores_the_table_witness :
  exists w1 w2,
    move_up sample_window 1 = Some w1
    /\ map bookmark_of (table_data (app_state w1)) = [py "Table 14.1"; py "Listing 16.2.1"]
    /\ move_down w1 0 = Some w2
    /\ table_data (app_state w2) = table_data (app_state sample_window).
Proof.
  destruct (@move_up_then_down_restores_the_table sample_window 1)
    as (w1 & w2 & Hup & _ & _ & Hdown & Htd).
  - reflexivity.
  - reflexivity.
  - cbn. lia.
  - exists w1, w2. split; [exact Hup|]. split; [|split; [exact Hdown | exact Htd]].
    vm_compute in Hup. inversion Hup. reflexivity.
Defined.

Lemma header_click_sorts_by_the_column_witness :
  exists w',
    handle_header_sort sample_window 6 = Some w'
    /\ sort_order w' = AscendingOrder
    /\ in_column_order 6 AscendingOrder (table_data (app_state w'))
    /\ map bookmark_of (table_data (app_state w')) = [py "Table 14.1"; py "Listing 16.2.1"].
Proof.
  destruct (@header_click_sorts_by_the_column sample_window 6)
    as (w' & Hw & _ & Ho & _ & Hin & _); [lia | vm_compute; reflexivity |].
  exists w'. split; [exact Hw|]. split; [exact Ho|].
  split; [now rewrite Ho in Hin|].
  vm_compute in Hw. inversion Hw. reflexivity.
Defined.

Lemma filter_shows_the_hits_or_every_row_witness :
  exists w',
    apply_filter sample_search_window = Some w'
    /\ hits sample_search_window
       = [ {| include := true; file_type := py "RTF"; filename := py "t_ae.rtf";
              title_1 := py "Listing 16.2.1"; title_2 := []; title_3 := [];
              bookmark_of := py "Listing 16.2.1" |} ]
    /\ table w' = map disp_row (hits sample_search_window).
Proof.
  destruct (@filter_shows_the_hits_or_every_row sample_search_window)
    as (w' & Hw & _ & Ht); [vm_compute; reflexivity | vm_compute; reflexivity |].
  assert (Hh : hits sample_search_window
               = [ {| include := true; file_type := py "RTF"; filename := py "t_ae.rtf";
                      title_1 := py "Listing 16.2.1"; title_2 := []; title_3 := [];
                      bookmark_of := py "Listing 16.2.1" |} ])
    by (vm_compute; reflexivity).
  exists w'. split; [exact Hw|]. split; [exact Hh|].
  rewrite Ht, Hh. reflexivity.
Defined.

(* ================================================================== *)
(** ** More properties: check marks, buttons and the start of a run *)
(* ================================================================== *)

(** X22. The Select All button gives every row that the table shows the
    check mark that the button stands for (checked at first, then unchecked
    and checked in turn) and leaves the rows that the filter hides as they
    are; when all rows are shown, all of them are packed after Select All and
    none after Deselect All. *)
Theorem select_all_marks_the_rows_shown (w : TLFWindow) :
  window_ok w ->
  exists w',
    toggle_select_all w = Some w'
    /\ select_all_state w' = negb (select_all_state w)
    /\ (forall i r,
          nth_error (table_data (app_state w)) i = Some r ->
          nth_error (table_data (app_state w')) i
          = Some (if existsb (Nat.eqb i) (indices w)
                  then set_include (select_all_state w) r else r))
    /\ (indices w = seq 0 (List.length (table_data (app_state w))) ->
        files_to_pack (table_data (app_state w'))
        = if select_all_state w then table_data (app_state w') else []).
Proof.
  intro Hok. destruct (toggle_select_all_ok Hok) as (w' & Hw & _ & Hs & Hl & Hn).
  exists w'. split; [exact Hw|]. split; [exact Hs|]. split; [exact Hn|].
  intro Hall. unfold files_to_pack.
  assert (Hinc : forall r, In r (table_data (app_state w')) ->
                           include r = select_all_state w).
  { intros r Hr. apply In_nth_error in Hr. destruct Hr as (i & Hi).
    destruct (nth_error (table_data (app_state w)) i) as [r0|] eqn:H0.
    - rewrite (Hn i r0 H0) in Hi. inversion Hi; subst.
      assert (Hin : existsb (Nat.eqb i) (indices w) = true).
      { apply existsb_exists. exists i. split; [|apply Nat.eqb_refl].
        rewrite Hall. apply in_seq.
        assert (i < List.length (table_data (app_state w)))%nat
          by (apply nth_error_Some; congruence).
        lia. }
      now rewrite Hin.
    - apply nth_error_None in H0.
      assert (i < List.length (table_data (app_state w')))%nat
        by (apply nth_error_Some; congruence).
      lia. }
  destruct (select_all_state w).
  - apply filter_all. exact Hinc.
  - apply filter_none. exact Hinc.
Qed.

Lemma select_all_marks_the_rows_shown_witness :
  exists w',
    toggle_select_all sample_window = Some w'
    /\ select_all_state w' = false
    /\ files_to_pack (table_data (app_state w')) = table_data (app_state w').
Proof.
  destruct (@select_all_marks_the_rows_shown sample_window)
    as (w' & Hw & Hs & _ & Hall).
  - unfold window_ok.
    split; [exists (table_data sample_unsorted_app); split; reflexivity|].
    split; [vm_compute; reflexivity|]. split; [vm_compute; reflexivity|].
    split; [|intros _; reflexivity].
    constructor; [left; reflexivity|].
    constructor; [right; left; reflexivity | constructor].
  - exists w'. split; [exact Hw|]. split; [exact Hs|]. exact (Hall eq_refl).
Defined.

Lemma has_items_filter (p : row -> bool) (l : list row) :
  has_items (filter p l) = existsb p l.
Proof.
  induction l as [|r l IH]; [reflexivity|]. cbn [filter existsb].
  destruct (p r); [reflexivity | exact IH].
Qed.

Lemma one_type_each (r : row) :
  known_type r ->
  (Nat.b2n (is_type "RTF" r) + Nat.b2n (is_type "DOCX" r) + Nat.b2n (is_type "PDF" r)
   = 1)%nat.
Proof.
  unfold known_type, is_type. intros [H|[H|[H|[]]]]; rewrite <- H; reflexivity.
Qed.

Lemma counts_add_up (l : list row) :
  Forall known_type l ->
  (List.length (filter (fun r => include r && is_type "RTF" r) l)
   + List.length (filter (fun r => include r && is_type "DOCX" r) l)
   + List.length (filter (fun r => include r && is_type "PDF" r) l)
   = List.length (filter include l))%nat.
Proof.
  induction 1 as [|r l Hr Hl IH]; [reflexivity|]. cbn [filter].
  pose proof (one_type_each Hr) as H1.
  destruct (include r); cbn [andb]; [|exact IH].
  destruct (is_type "RTF" r), (is_type "DOCX" r), (is_type "PDF" r);
    cbn [Nat.b2n] in H1; cbn [List.length]; lia.
Qed.

(** X23. In a consistent window the buttons and the label follow the check
    marks: Pack is enabled exactly when a row is checked, Convert exactly
    when a checked row is an RTF or DOCX row (so never without Pack), the
    other buttons exactly when the table has rows, and the three numbers of
    the label add up to the number of checked rows. *)
Theorem buttons_and_label_follow_the_check_marks (w : TLFWindow) :
  window_ok w ->
  pack_enabled (buttons w) = has_items (files_to_pack (table_data (app_state w)))
  /\ convert_enabled (buttons w)
     = has_items (files_to_convert (table_data (app_state w)))
  /\ others_enabled (buttons w) = has_items (table_data (app_state w))
  /\ (convert_enabled (buttons w) = true -> pack_enabled (buttons w) = true)
  /\ (fst (fst (selected_counts w)) + snd (fst (selected_counts w))
      + snd (selected_counts w)
      = List.length (files_to_pack (table_data (app_state w))))%nat.
Proof.
  intros (_ & Hb & Hc & Hk & _). rewrite Hb, Hc.
  unfold files_to_pack, files_to_convert.
  cbn [update_button_states update_selected_counts buttons selected_counts
       pack_enabled convert_enabled others_enabled fst snd].
  rewrite !has_items_filter.
  assert (Hne : forall p, existsb p (table_data (app_state w)) = true ->
                          (0 <? List.length (table_data (app_state w)))%nat = true).
  { intros p Hp. destruct (table_data (app_state w)); [discriminate | reflexivity]. }
  split; [|split; [|split; [|split]]].
  - destruct (existsb include _) eqn:E; [|reflexivity]. now rewrite (Hne _ E).
  - destruct (existsb _ _) eqn:E; [|reflexivity]. now rewrite (Hne _ E).
  - now destruct (table_data (app_state w)).
  - intro H. apply andb_true_iff in H. destruct H as [H Hl]. rewrite Hl, andb_true_r.
    apply existsb_exists in H. destruct H as (r & Hin & Hr).
    apply existsb_exists. exists r. split; [exact Hin|].
    apply andb_true_iff in Hr. tauto.
  - apply counts_add_up. exact Hk.
Qed.

Lemma buttons_and_label_follow_the_check_marks_witness :
  pack_enabled (buttons sample_window) = true
  /\ convert_enabled (buttons sample_window) = true
  /\ selected_counts sample_window = (1, 0, 1)%nat
  /\ List.length (files_to_pack (table_data (app_state sample_window))) = 2%nat.
Proof.
  destruct (@buttons_and_label_follow_the_check_marks sample_window)
    as (Hp & Hc & _ & _ & Hn).
  - unfold window_ok.
    split; [exists (table_data sample_unsorted_app); split; reflexivity|].
    split; [vm_compute; reflexivity|]. split; [vm_compute; reflexivity|].
    split; [|intros _; reflexivity].
    constructor; [left; reflexivity|].
    constructor; [right; left; reflexivity | constructor].
  - split; [rewrite Hp; reflexivity|]. split; [rewrite Hc; reflexivity|].
    split; [reflexivity|]. rewrite <- Hn. reflexivity.
Defined.

Section StartFacts.

Variable os_path_join : str -> str -> str.
Variable os_path_splitext : str -> str * str.
Variable os_path_exists : str -> bool.




End StartFacts.


(* ================================================================== *)
(** ** More properties: titles and bookmark of a row *)
(* ================================================================== *)

Lemma dropwhile_head (p : char -> bool) (x : str) :
  forall c t, dropwhile p x = c :: t -> p c = false.
Proof.
  induction x as [|a x IH]; intros c t; cbn [dropwhile]; [discriminate|].
  destruct (p a) eqn:Hp; [apply IH|]. intro H. now inversion H; subst.
Qed.

Lemma dropwhile_fixed (p : char -> bool) (x : str) :
  (forall c t, x = c :: t -> p c = false) -> dropwhile p x = x.
Proof.
  destruct x as [|c t]; [reflexivity|]. intro H. cbn [dropwhile].
  now rewrite (H c t eq_refl).
Qed.

Lemma dropwhile_suffix (p : char -> bool) (x : str) :
  exists dropped, x = dropped ++ dropwhile p x.
Proof.
  induction x as [|a x (dr & IH)]; [exists []; reflexivity|]. cbn [dropwhile].
  destruct (p a); [|exists []; reflexivity].
  exists (a :: dr). cbn [List.app]. now rewrite <- IH.
Qed.

Lemma rstrip_head (p : char -> bool) (y : str) :
  (forall c t, y = c :: t -> p c = false) ->
  forall c t, rev (dropwhile p (rev y)) = c :: t -> p c = false.
Proof.
  intros Hy c t Hr. destruct y as [|c0 y']; [cbn in Hr; discriminate|].
  destruct (dropwhile_suffix p (rev (c0 :: y'))) as (dr & Hdr).
  assert (Hrev : c0 :: y' = rev (dropwhile p (rev (c0 :: y'))) ++ rev dr).
  { rewrite <- rev_app_distr, <- Hdr, rev_involutive. reflexivity. }
  rewrite Hr in Hrev. cbn in Hrev. inversion Hrev; subst.
  eapply Hy. reflexivity.
Qed.

(** Stripping twice is stripping once. *)
Lemma strip_is_trimmed (x : str) : trimmed (strip x).
Proof.
  unfold trimmed, strip, strip_by, rstrip_by, lstrip_by.
  rewrite (@dropwhile_fixed isspace (rev (dropwhile isspace (rev (dropwhile isspace x))))).
  - rewrite rev_involutive.
    now rewrite (@dropwhile_fixed isspace _ (@dropwhile_head isspace _)).
  - apply rstrip_head. apply dropwhile_head.
Qed.

Lemma strip_truthy (x : str) : truthy (strip x) = visible x.
Proof.
  unfold visible. rewrite <- (strip_by_keeps isspace x). fold (strip x).
  destruct (strip x) as [|c t] eqn:Hs; [reflexivity|].
  unfold strip, strip_by, rstrip_by, lstrip_by in Hs.
  apply rstrip_head in Hs; [|apply dropwhile_head].
  cbn [existsb truthy nonempty]. now rewrite Hs.
Qed.

Lemma isdigit_not_space (c : char) : isdigit c = true -> isspace c = false.
Proof.
  unfold isdigit, isspace, in_range. intro H. apply andb_true_iff in H.
  destruct H as [H1 H2]. apply N.leb_le in H1, H2.
  repeat (apply orb_false_iff; split);
    first [ apply N.eqb_neq; lia
          | apply andb_false_iff; left; apply N.leb_gt; lia
          | apply andb_false_iff; right; apply N.leb_gt; lia ].
Qed.

Lemma digit_is_visible (x : str) : existsb isdigit x = true -> visible x = true.
Proof.
  unfold visible. intro H. apply existsb_exists in H. destruct H as (c & Hin & Hc).
  apply existsb_exists. exists c. split; [exact Hin|].
  now rewrite (isdigit_not_space c Hc).
Qed.

Lemma ignorecase_digit (c : char) :
  class_has IGNORECASE [Digit] c = true -> isdigit c = true.
Proof.
  unfold class_has. cbn [existsb item_has ignorecase IGNORECASE andb].
  rewrite !orb_false_r. intro H.
  destruct (isdigit c) eqn:Hd; [reflexivity|]. cbn [orb] in H.
  apply orb_true_iff in H. destruct H as [H|H].
  - unfold lower_char in H. destruct (isupper c) eqn:E; [|congruence].
    unfold isupper, isdigit, in_range in *.
    apply andb_true_iff in E, H. destruct E as [E1 E2], H as [H1 H2].
    apply N.leb_le in E1, E2, H1, H2. lia.
  - unfold upper_char in H. destruct (islower c) eqn:E; [|congruence].
    unfold islower, isdigit, in_range in *.
    apply andb_true_iff in E, H. destruct E as [E1 E2], H as [H1 H2].
    apply N.leb_le in E1, E2, H1, H2. lia.
Qed.

(** A token of the title pattern holds a digit. *)
Lemma numeric_path_suffix_digit st mid st' :
  matches IGNORECASE numeric_path_suffix st mid st' -> existsb isdigit mid = true.
Proof.
  unfold numeric_path_suffix. cbn [cat]. intro H.
  inversion H as [| | | |r1 r2 s0 m1 s1 m2 s2 Hs Hrest| | | | | | | |]; subst; clear H.
  inversion Hrest as [| | | |r1 r2 s0 m3 s3 m4 s4 Hd Hmore| | | | | | | |]; subst;
    clear Hrest.
  unfold Plus in Hd.
  inversion Hd as [| | | |r1 r2 s0 m5 s5 m6 s6 Hone Hstar| | | | | | | |]; subst; clear Hd.
  unfold d in Hone. inversion Hone; subst.
  rewrite !existsb_app. cbn [existsb List.app].
  match goal with Hx : xorb false _ = true |- _ =>
    cbn [xorb] in Hx; rewrite (ignorecase_digit _ Hx) end.
  cbn [orb]. now rewrite orb_true_r.
Qed.

Lemma title_pattern_digit st mid st' :
  matches IGNORECASE title_pattern st mid st' -> existsb isdigit mid = true.
Proof.
  unfold title_pattern. cbn [cat]. intro H.
  inversion H as [| | | | |r1 r2 s0 m0 s1 Hl|r1 r2 s0 m0 s1 Hr| | | | | |]; subst; clear H.
  - inversion Hl as [| | | |r1 r2 s0 m1 s1 m2 s2 Ho Hrest| | | | | | | |]; subst; clear Hl.
    inversion Hrest as [| | | |r1 r2 s0 m3 s3 m4 s4 Ha Hn| | | | | | | |]; subst;
      clear Hrest.
    rewrite !existsb_app, (numeric_path_suffix_digit Hn). now rewrite !orb_true_r.
  - inversion Hr as [| | | |r1 r2 s0 m1 s1 m2 s2 Hw Hn| | | | | | | |]; subst; clear Hr.
    rewrite existsb_app, (numeric_path_suffix_digit Hn). now rewrite orb_true_r.
Qed.

Lemma search_token_visible (line : str) (m : mtch) :
  Re.search IGNORECASE title_pattern line = Some m ->
  visible (strip (Re.group0 line m)) = true.
Proof.
  intro H. apply search_sound in H.
  destruct H as (pre & pv & t & mid & st' & Ht & Hm & Hs & He & _).
  destruct (matches_reads Hm) as [Hr Hp]. cbn [rest pos start_state] in Hr, Hp.
  assert (Hg : Re.group0 line m = mid).
  { unfold Re.group0. rewrite Hs, He, Hp, Ht, Hr. apply slice_middle. }
  rewrite Hg. unfold visible, strip. rewrite strip_by_keeps.
  apply digit_is_visible. exact (title_pattern_digit Hm).
Qed.

Lemma match_token_visible (line : str) (m : mtch) :
  Re.match_ IGNORECASE title_pattern line = Some m ->
  visible (strip (Re.group0 line m)) = true.
Proof.
  unfold Re.match_. intro H. apply match_at_sound in H.
  destruct H as (mid & st' & Hm & Hs & He & _).
  destruct (matches_reads Hm) as [Hr Hp]. cbn [rest pos start_state] in Hr, Hp.
  assert (Hg : Re.group0 line m = mid).
  { unfold Re.group0. rewrite Hs, He, Hp, Hr.
    exact (slice_middle [] mid (rest st')). }
  rewrite Hg. unfold visible, strip. rewrite strip_by_keeps.
  apply digit_is_visible. exact (title_pattern_digit Hm).
Qed.

Lemma trimmed_nil : trimmed [].
Proof. reflexivity. Qed.

Lemma filter_note_trimmed (text : str) : trimmed (filter_note_from_line text).
Proof. apply strip_is_trimmed. Qed.

Lemma trimmed_visible (x : str) : trimmed x -> truthy x = visible x.
Proof. unfold trimmed. intro H. rewrite <- H at 1. apply strip_truthy. Qed.

Lemma titles_at_match_so_far (lines : list str) (i : nat) (line : str) (m : mtch) :
  visible (strip (Re.group0 line m)) = true ->
  titles_so_far (titles_at_match lines i line m).
Proof.
  intro Hv. unfold titles_at_match, titles_so_far. cbv zeta.
  set (remainder := remainder_of line m).
  set (title2 := if truthy remainder && valid_title_candidate remainder
                 then remainder else []).
  assert (Ha : trimmed title2).
  { unfold title2. destruct (_ && _); [|apply trimmed_nil].
    unfold remainder, remainder_of. apply filter_note_trimmed. }
  clearbody title2.
  split; [right; exact Hv|]. split; [apply strip_is_trimmed|]. split.
  - destruct (negb (truthy title2)); [|exact Ha].
    destruct (nth_error lines (i + 1)); [|exact Ha].
    destruct (valid_title_candidate _); [apply strip_is_trimmed | exact Ha].
  - destruct (nth_error lines (i + 2)); [|apply trimmed_nil].
    destruct (valid_title_candidate _); [apply strip_is_trimmed | apply trimmed_nil].
Qed.

Lemma scan_search_so_far (lines window : list str) :
  forall i, titles_so_far (scan_search lines window i).
Proof.
  induction window as [|line window IH]; intro i; cbn [scan_search].
  - split; [left; auto | repeat split].
  - destruct (Re.search IGNORECASE title_pattern line) as [m|] eqn:Hs; [|apply IH].
    apply titles_at_match_so_far. exact (@search_token_visible _ _ Hs).
Qed.

Lemma fill_first_empty (acc : str * str * str) (line : str) :
  titles_so_far acc ->
  titles_so_far
    (let '(title1, title2, title3) := acc in
     if negb (truthy title1) then (filter_note_from_line line, title2, title3)
     else if negb (truthy title2) then (title1, filter_note_from_line line, title3)
     else if negb (truthy title3) then (title1, title2, filter_note_from_line line)
     else acc).
Proof.
  destruct acc as [[t1 t2] t3]. intros (Hd & H1 & H2 & H3).
  destruct (truthy t1) eqn:E1; cbn [negb].
  - assert (Hv : visible t1 = true) by now rewrite <- (trimmed_visible H1).
    destruct (truthy t2); cbn [negb]; [destruct (truthy t3); cbn [negb]|];
      (split; [right; exact Hv|]); repeat split;
      auto using filter_note_trimmed.
  - destruct Hd as [(_ & -> & ->)|Hv].
    2:{ rewrite (trimmed_visible H1) in E1. congruence. }
    split; [|repeat split; auto using filter_note_trimmed, trimmed_nil].
    destruct (filter_note_from_line line) eqn:E; [left; auto|]. right.
    rewrite <- E, <- (trimmed_visible (filter_note_trimmed line)), E. reflexivity.
Qed.

Lemma fallback_step_so_far (acc : str * str * str) (line : str) :
  titles_so_far acc -> titles_so_far (fallback_step acc line).
Proof.
  intro H. unfold fallback_step. destruct acc as [[t1 t2] t3].
  destruct (valid_title_candidate line); [|exact H].
  exact (@fill_first_empty _ line H).
Qed.

Lemma fallback_fold_so_far (lines : list str) :
  forall acc, titles_so_far acc -> titles_so_far (fold_left fallback_step lines acc).
Proof.
  induction lines as [|line lines IH]; intros acc H; [exact H|].
  cbn [fold_left]. apply IH. now apply fallback_step_so_far.
Qed.

Lemma fallback_docx_so_far (all_lines : list str) :
  forall found_lines acc,
    titles_so_far acc -> titles_so_far (fallback_docx all_lines found_lines acc).
Proof.
  induction all_lines as [|line more IH]; intros n acc H; cbn [fallback_docx];
    [exact H|].
  destruct (valid_title_candidate line); [|now apply IH].
  pose proof (@fill_first_empty _ line H) as H'. destruct acc as [[t1 t2] t3].
  cbv zeta. destruct (S n =? 3)%nat; [exact H' | now apply IH].
Qed.

Lemma compose_visible (title1 title2 title3 : str) :
  visible title1 = true ->
  truthy (strip (compose_bookmark title1 title2 title3)) = true.
Proof.
  intro Hv. rewrite strip_truthy. unfold compose_bookmark, visible in *. cbv zeta.
  destruct (truthy title2), (truthy title3);
    rewrite ?existsb_app, Hv; reflexivity.
Qed.

Lemma bookmark_of_titles (file_name : str) (t : str * str * str) :
  titles_so_far t ->
  well_titled file_name
    (let '(title1, title2, title3) := t in
     (title1, title2, title3,
      if negb (truthy (strip (compose_bookmark title1 title2 title3)))
      then file_name else compose_bookmark title1 title2 title3)).
Proof.
  destruct t as [[t1 t2] t3]. intros (Hd & H1 & H2 & H3). unfold well_titled.
  split; [|auto]. destruct Hd as [(-> & -> & ->)|Hv].
  - left. auto.
  - right. now rewrite (@compose_visible t1 t2 t3 Hv).
Qed.

Lemma titles_at_match_docx_so_far (paras : list str) (idx : nat) (line : str) (m : mtch) :
  Forall trimmed paras ->
  visible (strip (Re.group0 line m)) = true ->
  titles_so_far (titles_at_match_docx paras idx line m).
Proof.
  intros Hp Hv. unfold titles_at_match_docx, titles_so_far. cbv zeta.
  assert (Hn : forall k cand, nth_error paras k = Some cand -> trimmed cand).
  { intros k cand Hk. rewrite Forall_forall in Hp. apply Hp.
    eapply nth_error_In; eauto. }
  set (remainder := remainder_of line m).
  set (title2 := if truthy remainder && valid_title_candidate remainder
                 then remainder else []).
  assert (Ha : trimmed title2).
  { unfold title2. destruct (_ && _); [|apply trimmed_nil].
    unfold remainder, remainder_of. apply filter_note_trimmed. }
  clearbody title2.
  split; [right; exact Hv|]. split; [apply strip_is_trimmed|]. split.
  - destruct (negb (truthy title2)); [|exact Ha].
    destruct (nth_error paras (idx + 1)) eqn:Hk; [|exact Ha].
    destruct (valid_title_candidate _); [eapply Hn; eauto | exact Ha].
  - destruct (nth_error paras (idx + 2)) eqn:Hk; [|apply trimmed_nil].
    destruct (valid_title_candidate _); [eapply Hn; eauto | apply trimmed_nil].
Qed.

Lemma scan_match_so_far (paras window : list str) :
  Forall trimmed paras ->
  forall idx, titles_so_far (scan_match paras window idx).
Proof.
  intro Hp. induction window as [|line window IH]; intro idx; cbn [scan_match].
  - split; [left; auto | repeat split].
  - destruct (Re.match_ IGNORECASE title_pattern line) as [m|] eqn:Hs; [|apply IH].
    apply titles_at_match_docx_so_far; [exact Hp|]. exact (@match_token_visible _ _ Hs).
Qed.

Lemma stripped_lines_trimmed (keep : str -> bool) (lines : list str) :
  Forall trimmed (filter keep (map strip lines)).
Proof.
  apply Forall_forall. intros x Hx. apply filter_In in Hx. destruct Hx as [Hx _].
  apply in_map_iff in Hx. destruct Hx as (y & <- & _). apply strip_is_trimmed.
Qed.

Lemma trimmed_filter (keep : str -> bool) (lines : list str) :
  Forall trimmed lines -> Forall trimmed (filter keep lines).
Proof.
  intro H. apply Forall_forall. intros x Hx. apply filter_In in Hx.
  rewrite Forall_forall in H. now apply H.
Qed.

Section BookmarkFacts.

Variable os_path_basename : str -> str.

(** X25. Whatever the file holds, each of the three extractors returns
    either no title at all, with the file name as bookmark, or a first title
    that holds a character other than white space, with the bookmark made of
    the titles ("Title 1", then ": Title 2" and " - Title 3" for those that
    are not empty); so there is no second or third title without a first.  No
    title begins or ends with white space. *)
Theorem bookmark_is_the_file_name_or_the_titles_joined (path : str) :
  (forall file,
     well_titled (os_path_basename path)
                 (extract_titles_from_rtf os_path_basename path file))
  /\ (forall page1,
        well_titled (os_path_basename path)
                    (extract_title_from_pdf os_path_basename path page1))
  /\ (forall file,
        well_titled (os_path_basename path)
                    (extract_title_from_docx os_path_basename path file)).
Proof.
  split; [|split].
  - intro file. unfold extract_titles_from_rtf, extract_titles_from_header_lines.
    cbv zeta.
    match goal with |- context [scan_search ?l ?l 0] =>
      pose proof (scan_search_so_far l l 0) as H;
        destruct (scan_search l l 0) as [[t1 t2] t3] end.
    destruct H as (Hd & H1 & H2 & H3).
    destruct (truthy t1) eqn:E.
    + split; [|auto]. right. split; [|reflexivity].
      now rewrite <- (trimmed_visible H1).
    + split; [left; auto | repeat split].
  - intros [text|]; [|split; [left; auto | repeat split]].
    unfold extract_title_from_pdf. cbv zeta.
    match goal with |- context [scan_search ?l ?w 0] =>
      pose proof (scan_search_so_far l w 0) as H;
        destruct (scan_search l w 0) as [[t1 t2] t3] end.
    match goal with |- context [if negb (truthy t1) then ?a else ?b] =>
      assert (H' : titles_so_far (if negb (truthy t1) then a else b));
        [destruct (negb (truthy t1)); [now apply fallback_fold_so_far | exact H]|];
        destruct (if negb (truthy t1) then a else b) as [[u1 u2] u3] end.
    exact (@bookmark_of_titles (os_path_basename path) _ H').
  - intros [doc|]; [|split; [left; auto | repeat split]].
    unfold extract_title_from_docx. cbv zeta.
    set (paras := filter (fun p => negb (is_footer_content p))
                         (filter truthy (map strip (List.concat (section_headers doc))))).
    set (body_paras := filter (fun p => negb (is_footer_content p)) _).
    assert (Hp : Forall trimmed paras)
      by (apply trimmed_filter, stripped_lines_trimmed).
    assert (Hb : Forall trimmed body_paras).
    { apply trimmed_filter, Forall_app. split; apply stripped_lines_trimmed. }
    pose proof (@scan_match_so_far paras (firstn 10 paras) Hp 0) as H.
    destruct (scan_match paras (firstn 10 paras) 0) as [[t1 t2] t3].
    match goal with |- context [if negb (truthy t1) then ?a else ?b] =>
      assert (H' : titles_so_far (if negb (truthy t1) then a else b));
        [|destruct (if negb (truthy t1) then a else b) as [[u1 u2] u3];
          exact (@bookmark_of_titles (os_path_basename path) _ H')] end.
    destruct (negb (truthy t1)); [|exact H].
    pose proof (@scan_match_so_far body_paras (firstn 15 body_paras) Hb 0) as Hbody.
    destruct (scan_match body_paras (firstn 15 body_paras) 0) as [[b1 b2] b3].
    destruct (negb (truthy b1)); [|exact Hbody].
    now apply fallback_docx_so_far.
Qed.

End BookmarkFacts.
